(** * EditIndexHelper: a shallow embedding of the reconciliation pipeline

    The development follows [EditIndexHelper.py] (class [EditTool]):
    the token template engine [regex_test], the timecode converter
    [tc_to_frames] / [frames_to_tc], batch grouping [_group_csvs], the skip
    filters of [read_csvs], media discovery [find_media], the two matching
    passes [prep_matching] / [csv_matching] and the reel column of
    [matched_media_to_edls].

    Python dictionaries whose iteration order matters are association lists
    with Python's insertion discipline, dictionaries that are only looked up
    are [gmap]s, and every call that can raise returns an [outcome]. *)

From Stdlib Require Import ZArith QArith Qround Ascii String List Sorted Permutation Lia.
From Stdlib Require Import Decimal DecimalString DecimalZ DecimalFacts.
From stdpp Require Import base option gmap strings list fin_maps.

Local Open Scope Z_scope.
Local Open Scope string_scope.
Local Open Scope list_scope.

(** ** Exceptions and the result of a call *)

Inductive pyexn : Type :=
| ValueError
| KeyError
| IndexError
| TypeError
| AttributeError
| ZeroDivisionError
| EditToolException.

Inductive outcome (A : Type) : Type :=
| Ret (a : A)
| Raise (e : pyexn).

Arguments Ret {A} a.
Arguments Raise {A} e.

Definition bind {A B : Type} (m : outcome A) (k : A -> outcome B) : outcome B :=
  match m with
  | Ret a => k a
  | Raise e => Raise e
  end.

Notation "'do' x <- m ; k" := (bind m (fun x => k))
  (at level 10, x name, m at level 100, k at level 200).

Definition returns {A : Type} (m : outcome A) : Prop := exists a, m = Ret a.

(** ** Python values held in the dictionaries of the program *)

Inductive pyval : Type :=
| PNone
| PBool (b : bool)
| PInt (z : Z)
| PStr (s : string).

(** Truth value of an object, as [if x:] tests it. *)
Definition truthy (v : pyval) : bool :=
  match v with
  | PNone => false
  | PBool b => b
  | PInt z => negb (z =? 0)%Z
  | PStr s => negb (String.eqb s "")
  end.

(** A [bool] is an [int] in Python. *)
Definition as_int (v : pyval) : option Z :=
  match v with
  | PInt z => Some z
  | PBool b => Some (if b then 1 else 0)
  | _ => None
  end.

(** [a == b]. *)
Definition py_eq (a b : pyval) : bool :=
  match a, b with
  | PNone, PNone => true
  | PStr s, PStr t => String.eqb s t
  | _, _ =>
      match as_int a, as_int b with
      | Some x, Some y => (x =? y)%Z
      | _, _ => false
      end
  end.

(** [a <= b] and [a >= b]: integers with integers, strings with strings,
    anything else is a [TypeError]. *)
Definition py_le (a b : pyval) : outcome bool :=
  match a, b with
  | PStr s, PStr t => Ret (String.leb s t)
  | _, _ =>
      match as_int a, as_int b with
      | Some x, Some y => Ret (x <=? y)%Z
      | _, _ => Raise TypeError
      end
  end.

Definition py_ge (a b : pyval) : outcome bool := py_le b a.

(** A dictionary with string keys whose order is not observed. *)
Abbreviation pydict := (gmap string pyval).

(** A TokenMap: placeholder name to the text [str.format] renders for it. *)
Abbreviation tokenmap := (gmap string string).

(** [d[k]] raises [KeyError] on a missing key; [d.get(k)] gives [None]. *)
Definition getitem (d : pydict) (k : string) : outcome pyval :=
  match d !! k with
  | Some v => Ret v
  | None => Raise KeyError
  end.

Definition dict_get (d : pydict) (k : string) : pyval :=
  match d !! k with
  | Some v => v
  | None => PNone
  end.

(** ** Ordered dictionaries

    [self.csvs], [self.media], [sort_me] and [grouped_csvs] are iterated, so
    they are association lists.  [d[k] = v] replaces the value of an existing
    key where it stands and appends a new key at the end. *)

Fixpoint od_get {K V : Type} `{EqDecision K} (d : list (K * V)) (k : K) : option V :=
  match d with
  | [] => None
  | (k', v) :: d' => if decide (k' = k) then Some v else od_get d' k
  end.

Fixpoint od_set {K V : Type} `{EqDecision K} (d : list (K * V)) (k : K) (v : V)
  : list (K * V) :=
  match d with
  | [] => [(k, v)]
  | (k', v') :: d' =>
      if decide (k' = k) then (k', v) :: d' else (k', v') :: od_set d' k v
  end.

Definition od_getitem {K V : Type} `{EqDecision K} (d : list (K * V)) (k : K)
  : outcome V :=
  match od_get d k with
  | Some v => Ret v
  | None => Raise KeyError
  end.

(** ** Strings *)

Definition is_digit (c : ascii) : bool :=
  (48 <=? nat_of_ascii c)%nat && (nat_of_ascii c <=? 57)%nat.

Definition all_digits (s : string) : bool :=
  forallb is_digit (list_ascii_of_string s).

(** [s.split(sep)] for a one-character separator. *)
Fixpoint split_char (sep : ascii) (s : string) : list string :=
  match s with
  | EmptyString => [EmptyString]
  | String c r =>
      if Ascii.eqb c sep then EmptyString :: split_char sep r
      else match split_char sep r with
           | h :: t => String c h :: t
           | [] => [String c EmptyString]
           end
  end.

(** [os.path.basename] on the slash-normalised paths the program keeps. *)
Definition basename (p : string) : string :=
  List.last (split_char "/" p) EmptyString.

(** [' ' * n]: the empty string when [n <= 0]. *)
Definition spaces (n : Z) : string :=
  string_of_list_ascii (List.repeat " "%char (Z.to_nat n)).

Definition py_len (s : string) : Z := Z.of_nat (String.length s).

(** ** The interface to Python's [re] module and to the part of
    [str.format_map] that depends on the object model *)

(** What [m.group(1)] does: [IndexError] when the pattern has no group 1,
    [None] when the group took no part in the match, its text otherwise. *)
Inductive group_result : Type :=
| GNoSuchGroup
| GUnmatched
| GText (s : string).

Class PyRuntime : Type := {
  regex : Type;
  rmatch : Type;
  (** [re.compile(p)]; [None] stands for [re.error]. *)
  re_compile : string -> option regex;
  (** [compiled.search(s)]. *)
  re_search : regex -> string -> option rmatch;
  m_group1 : rmatch -> group_result;
  (** [re.sub(compiled, repl, s)]; [None] stands for any exception. *)
  re_sub : regex -> string -> string -> option string;
  (** The rest of a format call from a replacement field that uses attribute
      access, indexing, a conversion or a format spec: [format_rest name s
      lookup] continues after the field name [name] with input [s], which
      starts with one of [. [ ! :]. *)
  format_rest : string -> string -> (string -> string) -> outcome string
}.

(** ** Token template engine: [regex_test] *)

Section TemplateEngine.
Context {rt : PyRuntime}.

(** [class Default(dict)]: a missing key gives back its placeholder. *)
Definition Default (tokens : tokenmap) (key : string) : string :=
  match tokens !! key with
  | Some v => v
  | None => ("{" ++ key ++ "}")%string
  end.

(** [source.format_map(Default(tokens))].  The scanner reads literal text
    ([field = None]) or the name of a replacement field ([field = Some name]).
    [{{] and [}}] are escapes, a lone brace is a [ValueError], an empty or
    numeric field name is positional and [format_map] has no positional
    arguments, and a field with [. [ ! :] is handed to [format_rest]. *)
Fixpoint format_scan (tokens : tokenmap) (field : option string) (s : string)
  : outcome string :=
  match field, s with
  | None, EmptyString => Ret EmptyString
  | None, String c r =>
      if Ascii.eqb c "{" then
        match r with
        | EmptyString => Raise ValueError
        | String c' r' =>
            if Ascii.eqb c' "{"
            then do t <- format_scan tokens None r'; Ret (String "{" t)
            else format_scan tokens (Some EmptyString) r
        end
      else if Ascii.eqb c "}" then
        match r with
        | EmptyString => Raise ValueError
        | String c' r' =>
            if Ascii.eqb c' "}"
            then do t <- format_scan tokens None r'; Ret (String "}" t)
            else Raise ValueError
        end
      else do t <- format_scan tokens None r; Ret (String c t)
  | Some name, EmptyString => Raise ValueError
  | Some name, String c r =>
      if Ascii.eqb c "}" then
        if String.eqb name EmptyString || all_digits name then Raise ValueError
        else do t <- format_scan tokens None r; Ret (Default tokens name ++ t)%string
      else if Ascii.eqb c "{" then Raise ValueError
      else if Ascii.eqb c "." || Ascii.eqb c "[" || Ascii.eqb c "!" || Ascii.eqb c ":"
      then format_rest name s (Default tokens)
      else format_scan tokens (Some (name ++ String c EmptyString)%string) r
  end.

Definition format_map (source : string) (tokens : tokenmap) : outcome string :=
  format_scan tokens None source.

(** [regex_test(source, tokens, pattern, repl)].  [source] is whatever the
    caller found in a dictionary; only a [str] has [format_map]. *)
Definition regex_test (source : pyval) (tokens : tokenmap) (pattern repl : string)
  : outcome pyval :=
  let compiled := re_compile pattern in
  do filled_source <-
     match source with
     | PStr s => format_map s tokens
     | _ => Raise AttributeError
     end;
  match compiled with
  | None => Ret (PStr "")
  | Some c =>
      if negb (String.eqb repl "") then
        match re_sub c repl filled_source with
        | Some r => Ret (PStr r)
        | None => Ret (PStr "")
        end
      else
        match re_search c filled_source with
        | Some m =>
            match m_group1 m with
            | GText g => Ret (PStr g)
            | GUnmatched => Ret PNone
            | GNoSuchGroup => Ret (PStr "")
            end
        | None => Ret (PStr "")
        end
  end.

(** The test the callers make on a result: [r is not None and r != '']. *)
Definition nonempty_result (r : pyval) : option string :=
  match r with
  | PStr s => if String.eqb s "" then None else Some s
  | _ => None
  end.

End TemplateEngine.

(** ** Timecode converter

    The program computes on Python floats; here every float is the rational
    it denotes and the arithmetic is exact, so the rounding error of binary
    floating point is not part of the model. *)

(** [round(x)]: the nearest integer, a tie going to the even one. *)
Definition py_round (x : Q) : Z :=
  let f := Qfloor x in
  match Qcompare (x - inject_Z f) (1 # 2) with
  | Lt => f
  | Gt => f + 1
  | Eq => if Z.even f then f else f + 1
  end.

(** [int(x)]: truncation toward zero. *)
Definition py_int (x : Q) : Z := Z.quot (Qnum x) (Zpos (Qden x)).

(** [a / b] and [a % b] on integers. *)
Definition true_div (a b : Z) : outcome Q :=
  if Z.eqb b 0 then Raise ZeroDivisionError else Ret (inject_Z a / inject_Z b)%Q.

Definition py_mod (a b : Z) : outcome Z :=
  if Z.eqb b 0 then Raise ZeroDivisionError else Ret (a mod b).

(** ["{:02d}".format(z)]. *)
Definition fmt_02d (z : Z) : string :=
  let s := NilZero.string_of_int (Z.to_int z) in
  if (String.length s <? 2)%nat then String "0" s else s.

(** [float(t)] for a field that is an integer literal: an optional sign and
    decimal digits, as every field the program prints is.  The other literals
    of Python's [float] (fractions, exponents, blanks around the number,
    [inf], [nan]) are outside the model, which reports them like a malformed
    field. *)
Definition nat_literal (s : string) : option Z :=
  match s with
  | EmptyString => None
  | String _ _ => option_map Z.of_uint (NilEmpty.uint_of_string s)
  end.

Definition int_literal (s : string) : option Z :=
  match s with
  | EmptyString => None
  | String c r =>
      if Ascii.eqb c "-" then option_map Z.opp (nat_literal r)
      else if Ascii.eqb c "+" then nat_literal r
      else nat_literal s
  end.

Definition py_float (t : string) : outcome Q :=
  match int_literal t with
  | Some z => Ret (inject_Z z)
  | None => Raise ValueError
  end.

(** [sum(f * float(t) for f, t in _zip_ft)], from the running total [acc]. *)
Fixpoint sum_products (_zip_ft : list (Q * string)) (acc : Q) : outcome Q :=
  match _zip_ft with
  | [] => Ret acc
  | (f, t) :: rest => do x <- py_float t; sum_products rest (acc + f * x)%Q
  end.

Definition _seconds (value : string) (fr_int : Z) : outcome Q :=
  do w <- true_div 1 fr_int;
  sum_products (combine [3600 # 1; 60 # 1; 1 # 1; w]%Q (split_char ":" value)) (0 # 1)%Q.

Definition _frames (secs : Q) (fr_int : Z) : Q := (secs * inject_Z fr_int)%Q.

Definition tc_to_frames (tc : string) (fps_float : Q) : outcome Z :=
  let fr_int := py_round fps_float in
  do secs <- _seconds tc fr_int;
  Ret (py_round (_frames secs fr_int)).

Definition frames_to_tc (frames : Z) (fps_float : Q) : outcome string :=
  let fps := py_round fps_float in
  do qh <- true_div frames (3600 * fps);
  let h := py_int qh in
  do qm <- true_div frames (60 * fps);
  do m <- py_mod (py_int qm) 60;
  do rs <- py_mod frames (60 * fps);
  do qs <- true_div rs fps;
  let s := py_int qs in
  do rf <- py_mod frames (60 * fps);
  do f <- py_mod rf fps;
  Ret (fmt_02d h ++ ":" ++ fmt_02d m ++ ":" ++ fmt_02d s ++ ":" ++ fmt_02d f)%string.

(** ** Batch grouping: [_group_csvs] *)

(** [one_rec]: the dictionary kept for a csv file while grouping. *)
Record one_rec : Type := {
  csv_path : string;
  csv_name : string;
  group : option string;
  sort : option string
}.

(** [sort_me[-1]]. *)
Definition py_last {A : Type} (l : list A) : outcome A :=
  match List.rev l with
  | x :: _ => Ret x
  | [] => Raise IndexError
  end.

(** [sorted(csv_list, key=lambda d: d['sort'])].  The keys are compared with
    [<]; a comparison with [None] on either side is a [TypeError].  Insertion
    from the right puts an element before the first one that is not smaller,
    which keeps equal keys in their original order, as Python's stable sort
    does. *)
Definition sort_lt (a b : one_rec) : outcome bool :=
  match sort a, sort b with
  | Some x, Some y => Ret (String.ltb x y)
  | _, _ => Raise TypeError
  end.

Fixpoint insert_sorted (x : one_rec) (l : list one_rec) : outcome (list one_rec) :=
  match l with
  | [] => Ret [x]
  | y :: l' =>
      do lt <- sort_lt y x;
      if lt then do r <- insert_sorted x l'; Ret (y :: r)
      else Ret (x :: y :: l')
  end.

Fixpoint sorted_by_sort (l : list one_rec) : outcome (list one_rec) :=
  match l with
  | [] => Ret []
  | x :: l' => do r <- sorted_by_sort l'; insert_sorted x r
  end.

Section Grouping.
Context {rt : PyRuntime} {V : Type}.
(** [prefs['group_csv']]: [common], [sort], [highest_only]. *)
Variables (common sort_pattern : string) (highest_only : bool).

(** Capture group 1 of a search in the file name, or [None]. *)
Definition search_group1 (compiled : regex) (name : string) : option string :=
  match re_search compiled name with
  | Some m =>
      match m_group1 m with
      | GText g => Some g
      | GUnmatched => None
      | GNoSuchGroup => None
      end
  | None => None
  end.

Definition make_rec (common_compiled sort_compiled : regex) (path : string) : one_rec :=
  let name := basename path in
  {| csv_path := path;
     csv_name := name;
     group := search_group1 common_compiled name;
     sort := search_group1 sort_compiled name |}.

(** The body of the first loop: append to the bucket of [result_common] when
    [result_common is not None and sort_me.get(result_common) is not None],
    start the bucket afresh otherwise. *)
Definition sort_me_add (sort_me : list (option string * list one_rec)) (rec : one_rec)
  : list (option string * list one_rec) :=
  match group rec, od_get sort_me (group rec) with
  | Some _, Some bucket => od_set sort_me (group rec) (bucket ++ [rec])
  | _, _ => od_set sort_me (group rec) [rec]
  end.

Definition build_sort_me (common_compiled sort_compiled : regex)
  (csvs : list (string * V)) : list (option string * list one_rec) :=
  fold_left (fun sort_me kv => sort_me_add sort_me (make_rec common_compiled sort_compiled (fst kv)))
            csvs [].

(** [for one_csv in sort_me_sorted[group]: grouped_csvs[path] = csvs[path]]. *)
Fixpoint keep_all (csvs : list (string * V)) (recs : list one_rec)
  (grouped_csvs : list (string * V)) : outcome (list (string * V)) :=
  match recs with
  | [] => Ret grouped_csvs
  | one_csv :: rest =>
      do v <- od_getitem csvs (csv_path one_csv);
      keep_all csvs rest (od_set grouped_csvs (csv_path one_csv) v)
  end.

(** The second loop, over [sort_me.items()]. *)
Fixpoint keep_groups (csvs : list (string * V))
  (sort_me : list (option string * list one_rec))
  (grouped_csvs : list (string * V)) : outcome (list (string * V)) :=
  match sort_me with
  | [] => Ret grouped_csvs
  | (_, csv_list) :: rest =>
      do sorted_list <- sorted_by_sort csv_list;
      if highest_only then
        do last <- py_last sorted_list;
        do v <- od_getitem csvs (csv_path last);
        keep_groups csvs rest (od_set grouped_csvs (csv_path last) v)
      else
        do grouped_csvs' <- keep_all csvs sorted_list grouped_csvs;
        keep_groups csvs rest grouped_csvs'
  end.

Definition _group_csvs (csvs : list (string * V)) : outcome (list (string * V)) :=
  match re_compile common, re_compile sort_pattern with
  | Some common_compiled, Some sort_compiled =>
      keep_groups csvs (build_sort_me common_compiled sort_compiled csvs) []
  | _, _ => Ret csvs
  end.

End Grouping.

(** ** Skip filters of [read_csvs] *)

(** One entry of [prefs['csv_match_skip']]. *)
Record skip_filter : Type := {
  filter_column : string;
  filter_pattern : string;
  filter_repl : string;
  filter_equals : string;
  filter_invert : bool
}.

Section SkipFilters.
Context {rt : PyRuntime}.
Variable csv_match_skip : list skip_filter.

(** The body of the loop of [is_match_skip]: the new value of
    [filter_matches]. *)
Definition filter_step (csv_line : pydict) (one_filter : skip_filter)
  (filter_matches : nat) : outcome nat :=
  do reg_test <- regex_test (dict_get csv_line (filter_column one_filter)) ∅
                            (filter_pattern one_filter) (filter_repl one_filter);
  if truthy reg_test && negb (py_eq reg_test (PStr "")) then
    if filter_invert one_filter then
      if negb (String.eqb (filter_equals one_filter) "")
         && negb (py_eq (PStr (filter_equals one_filter)) reg_test)
      then Ret (S filter_matches) else Ret filter_matches
    else
      if negb (String.eqb (filter_equals one_filter) "")
         && py_eq (PStr (filter_equals one_filter)) reg_test
      then Ret (S filter_matches) else Ret filter_matches
  else Ret filter_matches.

Fixpoint count_filter_matches (csv_line : pydict) (filters : list skip_filter)
  (filter_matches : nat) : outcome nat :=
  match filters with
  | [] => Ret filter_matches
  | one_filter :: rest =>
      do n <- filter_step csv_line one_filter filter_matches;
      count_filter_matches csv_line rest n
  end.

Definition is_match_skip (csv_line : pydict) : outcome bool :=
  do filter_matches <- count_filter_matches csv_line csv_match_skip 0%nat;
  Ret (0 <? filter_matches)%nat.

(** The end of the row loop of [read_csvs]: [csv_key] is initialised and
    [csv_skip_line] is set from [is_match_skip]. *)
Definition mark_skip (line_dict : pydict) : outcome pydict :=
  let line_dict := <["csv_key" := PStr ""]> line_dict in
  do skip <- is_match_skip line_dict;
  Ret (<["csv_skip_line" := PBool skip]> line_dict).

End SkipFilters.

(** ** Media items and discovery: [find_media] *)

(** A value of [self.media].  [csv_line] is the line object the item was
    matched to; the object lives in [self.csvs], so it is held as its place
    there: (position of the batch, position of the line in the batch). *)
Record media_dict : Type := {
  file : string;
  metadata : pydict;
  csv_line : option (nat * nat);
  csv_file : option string
}.

Section Discovery.
Context {rt : PyRuntime}.
(** [parse_file_name] and the metadata probe [get_metadata] are taken as
    given; the probe may raise. *)
Variable parse_file_name : string -> tokenmap.
Variable get_metadata : string -> outcome pydict.
(** [prefs['csv_matching']]: [media], [media_pattern], [media_repl]. *)
Variables (media_source media_pattern media_repl : string).

Definition media_key_of (one_file : string) : outcome pyval :=
  regex_test (PStr media_source) (parse_file_name one_file) media_pattern media_repl.

Fixpoint find_media_loop (media_files : list string)
  (media : list (string * media_dict)) : outcome (list (string * media_dict)) :=
  match media_files with
  | [] => Ret media
  | one_file :: rest =>
      do result <- media_key_of one_file;
      match nonempty_result result with
      | Some key =>
          do meta <- get_metadata one_file;
          find_media_loop rest
            (od_set media key
               {| file := one_file; metadata := meta;
                  csv_line := None; csv_file := None |})
      | None => find_media_loop rest media
      end
  end.

(** [find_media]: the value of [self.media] when the call ends.  Without
    media files it raises; when the media pattern does not compile it
    returns early and [self.media] stays empty. *)
Definition find_media (media_files : list string)
  : outcome (list (string * media_dict)) :=
  match media_files with
  | [] => Raise EditToolException
  | _ :: _ =>
      match re_compile media_pattern with
      | None => Ret []
      | Some _ => find_media_loop media_files []
      end
  end.

End Discovery.

(** ** Matching: [prep_matching] and [csv_matching] *)

Fixpoint map_outcome {A B : Type} (f : A -> outcome B) (l : list A) : outcome (list B) :=
  match l with
  | [] => Ret []
  | x :: l' => do y <- f x; do ys <- map_outcome f l'; Ret (y :: ys)
  end.

Abbreviation batches := (list (string * list pydict)).

Definition is_none (v : pyval) : bool :=
  match v with
  | PNone => true
  | _ => false
  end.

Definition is_tc_matching (csv_in media_in csv_out media_out : pyval) : outcome bool :=
  if is_none csv_in || is_none media_in || is_none csv_out || is_none media_out
  then Ret false
  else
    do ge <- py_ge csv_in media_in;
    if ge then py_le csv_out media_out else Ret false.

(** [one_line['csv_matched_media'] = ...] on the line at place [(i, j)]. *)
Definition set_line (csvs : batches) (i j : nat) (k : string) (v : pyval) : batches :=
  alter (fun b : string * list pydict => (fst b, alter (fun l : pydict => <[k := v]> l) j (snd b)))
        i csvs.

Definition line_at (csvs : batches) (i j : nat) : option pydict :=
  match csvs !! i with
  | Some b => snd b !! j
  | None => None
  end.

Section Matching.
Context {rt : PyRuntime}.
(** [prefs['csv_matching']]: [column], [csv_pattern], [csv_repl],
    [match_timecode]. *)
Variables (column csv_pattern csv_repl : string) (match_tc : bool).

Definition reset_key (one_line : pydict) : pydict := <["csv_key" := PStr ""]> one_line.

(** The body of the second loop of [prep_matching]. *)
Definition prep_line (one_line : pydict) : outcome pydict :=
  let one_line := reset_key one_line in
  do skip <- getitem one_line "csv_skip_line";
  if truthy skip then Ret one_line
  else
    do result <- regex_test (dict_get one_line column) ∅ csv_pattern csv_repl;
    match nonempty_result result with
    | Some key => Ret (<["csv_key" := PStr key]> one_line)
    | None => Ret one_line
    end.

Definition prep_matching (csvs : batches) : outcome batches :=
  let csvs := map (fun b : string * list pydict => (fst b, map reset_key (snd b))) csvs in
  map_outcome
    (fun b : string * list pydict =>
       do one_csv <- map_outcome prep_line (snd b); Ret (fst b, one_csv))
    csvs.

(** What the inner loop of [csv_matching] decides for one line: [true] when
    the line is taken for the media item. *)
Definition line_accepts (media_key : string) (item : media_dict) (one_line : pydict)
  : outcome bool :=
  do skip <- getitem one_line "csv_skip_line";
  if truthy skip then Ret false
  else
    do key <- getitem one_line "csv_key";
    if py_eq key (PStr media_key) then
      if match_tc then
        do csv_in <- getitem one_line "csv_sin_frames";
        do media_in <- getitem (metadata item) "tc_in_frames";
        do csv_out <- getitem one_line "csv_sout_frames";
        do media_out <- getitem (metadata item) "tc_out_frames";
        is_tc_matching csv_in media_in csv_out media_out
      else Ret true
    else Ret false.

(** The loop over the lines of one csv, from line position [cnt]: the
    position of the first line taken. *)
Fixpoint scan_lines (media_key : string) (item : media_dict) (one_csv : list pydict)
  (cnt : nat) : outcome (option nat) :=
  match one_csv with
  | [] => Ret None
  | one_line :: rest =>
      do ok <- line_accepts media_key item one_line;
      if ok then Ret (Some cnt) else scan_lines media_key item rest (S cnt)
  end.

(** The loop over [self.csvs.items()], from batch position [i]. *)
Fixpoint scan_csvs (media_key : string) (item : media_dict) (csvs : batches) (i : nat)
  : outcome (option (nat * nat * string)) :=
  match csvs with
  | [] => Ret None
  | (csv_file_name, one_csv) :: rest =>
      do found <- scan_lines media_key item one_csv 0;
      match found with
      | Some j => Ret (Some (i, j, csv_file_name))
      | None => scan_csvs media_key item rest (S i)
      end
  end.

(** The state [csv_matching] works on, and what it leaves: the media, the
    csvs and the files of [media_not_matched]. *)
Record match_state : Type := {
  st_media : list (string * media_dict);
  st_csvs : batches;
  media_not_matched : list string
}.

(** The outer loop over [self.media.items()]. *)
Fixpoint match_media (todo : list (string * media_dict)) (csvs : batches)
  : outcome match_state :=
  match todo with
  | [] => Ret {| st_media := []; st_csvs := csvs; media_not_matched := [] |}
  | (media_key, item) :: rest =>
      do found <- scan_csvs media_key item csvs 0;
      match found with
      | Some (i, j, csv_file_name) =>
          let item' := {| file := file item; metadata := metadata item;
                          csv_line := Some (i, j); csv_file := Some csv_file_name |} in
          let csvs' := set_line csvs i j "csv_matched_media" (PStr (file item)) in
          do st <- match_media rest csvs';
          Ret {| st_media := (media_key, item') :: st_media st;
                 st_csvs := st_csvs st;
                 media_not_matched := media_not_matched st |}
      | None =>
          do st <- match_media rest csvs;
          Ret {| st_media := (media_key, item) :: st_media st;
                 st_csvs := st_csvs st;
                 media_not_matched := file item :: media_not_matched st |}
      end
  end.

Definition csv_matching (media : list (string * media_dict)) (csvs : batches)
  : outcome match_state :=
  match media, csvs with
  | [], _ => Raise EditToolException
  | _, [] => Raise EditToolException
  | _, _ => match_media media csvs
  end.

End Matching.

(** ** The reel column of [media_to_edl_line] *)

Section Reel.
Context {rt : PyRuntime}.
(** [prefs['edl_reel']]: [source], [pattern], [repl]; [prefs['edl']['max_reel']]. *)
Variables (reel_source reel_pattern reel_repl : string) (max_reel : Z).

Definition reel_column (tokens : tokenmap) : outcome string :=
  do reel <- regex_test (PStr reel_source) tokens reel_pattern reel_repl;
  let reel := match nonempty_result reel with
              | Some r => r
              | None => "AX"
              end in
  let reel := (reel ++ spaces (max_reel - py_len reel))%string in
  Ret (reel ++ " ")%string.

End Reel.

(** ** A reference runtime for a fragment of the pattern language

    The theorems below hold for every [PyRuntime].  Concrete runs need one:
    [MiniRe] is a backtracking matcher for the patterns built from literal
    characters, [.], [\d], [\w], escaped punctuation, [^], [$], groups,
    [|] and the greedy [*], [+], [?], with Python's leftmost, greedy-first
    choice of the match.  Patterns outside the fragment are not given a
    meaning: [compile] rejects them, so [compile p = None] says that [p] is
    malformed only for a [p] written in the fragment. *)

Module MiniRe.

Inductive re : Type :=
| Eps
| Chr (c : ascii)
| Any
| Digit
| Word
| Bol
| Eol
| Seq (a b : re)
| Alt (a b : re)
| Star (a : re)
| Grp (n : nat) (a : re).

Definition is_alpha (c : ascii) : bool :=
  let n := nat_of_ascii c in
  ((65 <=? n) && (n <=? 90) || (97 <=? n) && (n <=? 122))%nat.

Definition is_word (c : ascii) : bool :=
  is_alpha c || is_digit c || Ascii.eqb c "_".

Definition is_newline (c : ascii) : bool := (nat_of_ascii c =? 10)%nat.

(** *** Parsing a pattern.  [g] is the number of the next group. *)

Fixpoint nullable (r : re) : bool :=
  match r with
  | Eps | Bol | Eol | Star _ => true
  | Chr _ | Any | Digit | Word => false
  | Seq a b => nullable a && nullable b
  | Alt a b => nullable a || nullable b
  | Grp _ a => nullable a
  end.

(** A postfix operator after an atom.  Stacked operators (lazy and
    possessive forms), counted repeats and the repetition of an expression
    that can match the empty string are outside the fragment. *)
Definition quantify (r : re) (s : list ascii) : option (re * list ascii) :=
  let stacked (t : list ascii) :=
    match t with
    | c :: _ => Ascii.eqb c "*" || Ascii.eqb c "+" || Ascii.eqb c "?" || Ascii.eqb c "{"
    | [] => false
    end in
  match s with
  | c :: t =>
      if Ascii.eqb c "*" then
        if stacked t || nullable r then None else Some (Star r, t)
      else if Ascii.eqb c "+" then
        if stacked t || nullable r then None else Some (Seq r (Star r), t)
      else if Ascii.eqb c "?" then if stacked t then None else Some (Alt r Eps, t)
      else if Ascii.eqb c "{" then None
      else Some (r, s)
  | [] => Some (r, s)
  end.

Definition escape (c : ascii) : option re :=
  if Ascii.eqb c "d" then Some Digit
  else if Ascii.eqb c "w" then Some Word
  else if is_alpha c || is_digit c then None
  else Some (Chr c).

Fixpoint parse_alt (fuel : nat) (s : list ascii) (g : nat) {struct fuel}
  : option (re * list ascii * nat) :=
  match fuel with
  | O => None
  | S fuel' =>
      match parse_seq fuel' s g with
      | Some (r1, c :: t, g1) =>
          if Ascii.eqb c "|" then
            match parse_alt fuel' t g1 with
            | Some (r2, t2, g2) => Some (Alt r1 r2, t2, g2)
            | None => None
            end
          else Some (r1, c :: t, g1)
      | other => other
      end
  end
with parse_seq (fuel : nat) (s : list ascii) (g : nat) {struct fuel}
  : option (re * list ascii * nat) :=
  match fuel with
  | O => None
  | S fuel' =>
      match s with
      | [] => Some (Eps, s, g)
      | c :: _ =>
          if Ascii.eqb c "|" || Ascii.eqb c ")" then Some (Eps, s, g)
          else
            match parse_atom fuel' s g with
            | Some (r1, t1, g1) =>
                match quantify r1 t1 with
                | Some (r1', t1') =>
                    match parse_seq fuel' t1' g1 with
                    | Some (r2, t2, g2) => Some (Seq r1' r2, t2, g2)
                    | None => None
                    end
                | None => None
                end
            | None => None
            end
      end
  end
with parse_atom (fuel : nat) (s : list ascii) (g : nat) {struct fuel}
  : option (re * list ascii * nat) :=
  match fuel with
  | O => None
  | S fuel' =>
      match s with
      | [] => None
      | c :: t =>
          if Ascii.eqb c "(" then
            match t with
            | c' :: _ =>
                if Ascii.eqb c' "?" then None
                else
                  match parse_alt fuel' t (S g) with
                  | Some (r, c'' :: t', g') =>
                      if Ascii.eqb c'' ")" then Some (Grp g r, t', g') else None
                  | _ => None
                  end
            | [] => None
            end
          else if Ascii.eqb c "\" then
            match t with
            | c' :: t' =>
                match escape c' with
                | Some r => Some (r, t', g)
                | None => None
                end
            | [] => None
            end
          else if Ascii.eqb c "." then Some (Any, t, g)
          else if Ascii.eqb c "^" then Some (Bol, t, g)
          else if Ascii.eqb c "$" then Some (Eol, t, g)
          else if Ascii.eqb c "*" || Ascii.eqb c "+" || Ascii.eqb c "?"
                  || Ascii.eqb c "[" || Ascii.eqb c "{" then None
          else Some (Chr c, t, g)
      end
  end.

(** A compiled pattern: the expression and the number of its groups. *)
Record compiled : Type := { expr : re; ngroups : nat }.

Definition compile (pattern : string) : option compiled :=
  let s := list_ascii_of_string pattern in
  match parse_alt (3 * List.length s + 3) s 1 with
  | Some (r, [], g) => Some {| expr := r; ngroups := (g - 1)%nat |}
  | _ => None
  end.

(** *** Matching.  [bol] tells whether the position is the start of the
    subject, [caps] holds the text of the groups closed so far (latest
    first), and [k] is what remains to be matched. *)

Abbreviation caps := (list (nat * list ascii)).

Fixpoint mt {A : Type} (r : re) (bol : bool) (s : list ascii) (cs : caps)
  (k : bool -> list ascii -> caps -> option A) {struct r} : option A :=
  match r with
  | Eps => k bol s cs
  | Chr c =>
      match s with
      | x :: s' => if Ascii.eqb x c then k false s' cs else None
      | [] => None
      end
  | Any =>
      match s with
      | x :: s' => if is_newline x then None else k false s' cs
      | [] => None
      end
  | Digit =>
      match s with
      | x :: s' => if is_digit x then k false s' cs else None
      | [] => None
      end
  | Word =>
      match s with
      | x :: s' => if is_word x then k false s' cs else None
      | [] => None
      end
  | Bol => if bol then k bol s cs else None
  | Eol =>
      match s with
      | [] => k bol s cs
      | [x] => if is_newline x then k bol s cs else None
      | _ => None
      end
  | Seq a b => mt a bol s cs (fun bol' s' cs' => mt b bol' s' cs' k)
  | Alt a b =>
      match mt a bol s cs k with
      | Some x => Some x
      | None => mt b bol s cs k
      end
  | Star a =>
      (fix star (n : nat) (bol : bool) (s : list ascii) (cs : caps) {struct n} : option A :=
         match n with
         | O => k bol s cs
         | S n' =>
             match mt a bol s cs
                     (fun bol' s' cs' =>
                        if (List.length s' <? List.length s)%nat
                        then star n' bol' s' cs' else None) with
             | Some x => Some x
             | None => k bol s cs
             end
         end) (S (List.length s)) bol s cs
  | Grp n a =>
      mt a bol s cs
         (fun bol' s' cs' =>
            k bol' s' ((n, firstn (List.length s - List.length s') s) :: cs'))
  end.

Fixpoint cap_get (cs : caps) (n : nat) : option (list ascii) :=
  match cs with
  | [] => None
  | (m, t) :: cs' => if (m =? n)%nat then Some t else cap_get cs' n
  end.

(** The leftmost match at or after the current position. *)
Fixpoint search_from (r : re) (bol : bool) (s : list ascii) : option caps :=
  match mt r bol s [] (fun _ _ cs => Some cs) with
  | Some cs => Some cs
  | None =>
      match s with
      | [] => None
      | _ :: s' => search_from r false s'
      end
  end.

Record found : Type := { in_pattern : compiled; groups : caps }.

Definition search (p : compiled) (s : string) : option found :=
  match search_from (expr p) true (list_ascii_of_string s) with
  | Some cs => Some {| in_pattern := p; groups := cs |}
  | None => None
  end.

Definition group1 (m : found) : group_result :=
  if (ngroups (in_pattern m) <? 1)%nat then GNoSuchGroup
  else match cap_get (groups m) 1 with
       | Some t => GText (string_of_list_ascii t)
       | None => GUnmatched
       end.

(** *** Substitution.  The replacement may hold [\1] to [\9], [\\] and the
    control escapes; another escaped letter or digit fails, as does a
    reference to a group the pattern does not have.  The replacement is
    checked before the first match is looked for. *)

Definition control (c : ascii) : option ascii :=
  if Ascii.eqb c "n" then Some (ascii_of_nat 10)
  else if Ascii.eqb c "t" then Some (ascii_of_nat 9)
  else if Ascii.eqb c "r" then Some (ascii_of_nat 13)
  else if Ascii.eqb c "a" then Some (ascii_of_nat 7)
  else if Ascii.eqb c "b" then Some (ascii_of_nat 8)
  else if Ascii.eqb c "f" then Some (ascii_of_nat 12)
  else if Ascii.eqb c "v" then Some (ascii_of_nat 11)
  else if Ascii.eqb c "\" then Some c
  else None.

Fixpoint expand (p : compiled) (cs : caps) (repl : list ascii) : option (list ascii) :=
  match repl with
  | [] => Some []
  | c :: t =>
      if Ascii.eqb c "\" then
        match t with
        | [] => None
        | d :: t' =>
            if is_digit d then
              let n := (nat_of_ascii d - 48)%nat in
              let followed := match t' with
                              | d' :: _ => is_digit d'
                              | [] => false
                              end in
              if (n =? 0)%nat || followed || (ngroups p <? n)%nat then None
              else
                let text := match cap_get cs n with
                            | Some x => x
                            | None => []
                            end in
                option_map (app text) (expand p cs t')
            else
              match control d with
              | Some x => option_map (cons x) (expand p cs t')
              | None =>
                  if is_alpha d then None
                  else option_map (fun u => c :: d :: u) (expand p cs t')
              end
        end
      else option_map (cons c) (expand p cs t)
  end.

(** One step per position: a match is replaced and the scan goes on behind
    it; after an empty match the next one at the same place must not be
    empty. *)
Fixpoint sub_loop (fuel : nat) (p : compiled) (repl : list ascii)
  (bol must_advance : bool) (s : list ascii) : option (list ascii) :=
  match fuel with
  | O => None
  | S fuel' =>
      match mt (expr p) bol s []
               (fun _ s' cs =>
                  if must_advance && (List.length s' =? List.length s)%nat
                  then None else Some (s', cs)) with
      | Some (s', cs) =>
          let empty := (List.length s' =? List.length s)%nat in
          match expand p cs repl with
          | Some text =>
              option_map (app text) (sub_loop fuel' p repl (bol && empty) empty s')
          | None => None
          end
      | None =>
          match s with
          | [] => Some []
          | c :: s1 => option_map (cons c) (sub_loop fuel' p repl false false s1)
          end
      end
  end.

Definition sub (p : compiled) (repl s : string) : option string :=
  let l := list_ascii_of_string s in
  let template := list_ascii_of_string repl in
  match expand p [] template with
  | None => None
  | Some _ =>
      option_map string_of_list_ascii
        (sub_loop (2 * List.length l + 2) p template true false l)
  end.

End MiniRe.

(** The reference runtime.  It gives no meaning to replacement fields with
    attribute access, indexing, conversions or format specs: it reports them
    as failing. *)
Definition mini_runtime : PyRuntime := {|
  regex := MiniRe.compiled;
  rmatch := MiniRe.found;
  re_compile := MiniRe.compile;
  re_search := MiniRe.search;
  m_group1 := MiniRe.group1;
  re_sub := MiniRe.sub;
  format_rest := fun _ _ _ => Raise ValueError
|}.

(** ** Auxiliary notions used in the statements *)

(** A frame count as the program stores it: an [int], or [None] when the
    timecode was empty. *)
Definition frame (o : option Z) : pyval :=
  match o with
  | Some z => PInt z
  | None => PNone
  end.

(** A line without the mark [csv_matching] leaves on it. *)
Definition strip_line (l : pydict) : pydict := delete "csv_matched_media" l.

Definition strip (csvs : batches) : batches :=
  map (fun b : string * list pydict => (fst b, map strip_line (snd b))) csvs.

(** The line at place [(i, j)] is taken for the item and every line before
    it, in batch order and then line order, is passed over. *)
Definition first_accepted (match_tc : bool) (media_key : string) (item : media_dict)
  (csvs : batches) (i j : nat) : Prop :=
  (exists l, line_at csvs i j = Some l /\ line_accepts match_tc media_key item l = Ret true)
  /\ (forall i' j' l, (i' < i \/ i' = i /\ j' < j)%nat ->
        line_at csvs i' j' = Some l ->
        line_accepts match_tc media_key item l = Ret false).


(** A line and an item on which the lookups of [csv_matching] find what
    [read_csvs] and [get_metadata] put there. *)
Definition is_frame (o : option pyval) : bool :=
  match o with
  | Some PNone => true
  | Some (PInt _) => true
  | _ => false
  end.

Definition wf_line (match_tc : bool) (l : pydict) : bool :=
  match l !! "csv_skip_line", l !! "csv_key" with
  | Some (PBool _), Some (PStr _) =>
      negb match_tc || is_frame (l !! "csv_sin_frames") && is_frame (l !! "csv_sout_frames")
  | _, _ => false
  end.




(** The item after a scan that found [found]. *)
Definition matched_to (item : media_dict) (found : option (nat * nat * string)) : media_dict :=
  match found with
  | Some (i, j, name) =>
      {| file := file item; metadata := metadata item;
         csv_line := Some (i, j); csv_file := Some name |}
  | None => item
  end.

(** What [csv_matching] leaves in an item: the key and the file are kept,
    and the item holds the first line taken for it, or is as it was when
    every line was passed over. *)
Definition first_fit (match_tc : bool) (csvs : batches)
  (before after : string * media_dict) : Prop :=
  fst after = fst before /\
  exists found, snd after = matched_to (snd before) found /\
    match found with
    | Some (i, j, name) =>
        (exists ls, csvs !! i = Some (name, ls))
        /\ first_accepted match_tc (fst before) (snd before) csvs i j
    | None =>
        forall i j l, line_at csvs i j = Some l ->
          line_accepts match_tc (fst before) (snd before) l = Ret false
    end.

(** What [read_csvs] and [prep_matching] leave in every line: a skipped line
    has the empty key. *)
Definition skipped_has_no_key (l : pydict) : Prop :=
  forall v, l !! "csv_skip_line" = Some v -> truthy v = true ->
    l !! "csv_key" = Some (PStr "").

(** The frame range of a record lies within the decoded range of an item. *)
Definition contained (csv_in csv_out media_in media_out : option Z) : Prop :=
  exists a b c d,
    csv_in = Some a /\ csv_out = Some b /\ media_in = Some c /\ media_out = Some d
    /\ a >= c /\ b <= d.

(** *** Skip filters *)

Section SkipFilterNotions.
Context {rt : PyRuntime}.

(** The template result of a filter on a line. *)
Definition filter_result (csv_line : pydict) (f : skip_filter) : outcome pyval :=
  regex_test (dict_get csv_line (filter_column f)) ∅ (filter_pattern f) (filter_repl f).

(** A filter fires, in the words of the specification: its result is not
    empty and compares positively to the target, by equality, or by
    non-equality when the filter is inverted. *)
Definition fires_as_stated (csv_line : pydict) (f : skip_filter) : Prop :=
  exists r, filter_result csv_line f = Ret (PStr r) /\ r <> ""
    /\ if filter_invert f then r <> filter_equals f else r = filter_equals f.

(** A filter fires, in the program: moreover its target is not empty. *)
Definition fires (csv_line : pydict) (f : skip_filter) : Prop :=
  exists r, filter_result csv_line f = Ret (PStr r) /\ r <> ""
    /\ filter_equals f <> ""
    /\ if filter_invert f then r <> filter_equals f else r = filter_equals f.

End SkipFilterNotions.

(** *** Well-formed templates

    A template as a sequence of pieces: a literal character other than a
    brace, a doubled brace, or a placeholder with a plain name (not empty,
    not a number, and without braces, [.], [[], [!] and [:]). *)

Inductive piece : Type :=
| Text (c : ascii)
| OpenBrace
| CloseBrace
| Field (name : string).

Definition name_char (c : ascii) : bool :=
  negb (Ascii.eqb c "{" || Ascii.eqb c "}" || Ascii.eqb c "."
        || Ascii.eqb c "[" || Ascii.eqb c "!" || Ascii.eqb c ":").

Definition plain_name (name : string) : bool :=
  negb (String.eqb name EmptyString || all_digits name)
  && forallb name_char (list_ascii_of_string name).

Definition wf_piece (p : piece) : bool :=
  match p with
  | Text c => negb (Ascii.eqb c "{" || Ascii.eqb c "}")
  | OpenBrace => true
  | CloseBrace => true
  | Field name => plain_name name
  end.

(** The template text of the pieces. *)
Fixpoint source_of (ps : list piece) : string :=
  match ps with
  | [] => EmptyString
  | Text c :: ps' => String c (source_of ps')
  | OpenBrace :: ps' => String "{" (String "{" (source_of ps'))
  | CloseBrace :: ps' => String "}" (String "}" (source_of ps'))
  | Field name :: ps' => (String "{" name ++ String "}" (source_of ps'))%string
  end.

(** The pieces filled from a token map: a placeholder becomes its token, or
    stays as it is written when the map has no such token. *)
Fixpoint filled_of (tokens : tokenmap) (ps : list piece) : string :=
  match ps with
  | [] => EmptyString
  | Text c :: ps' => String c (filled_of tokens ps')
  | OpenBrace :: ps' => String "{" (filled_of tokens ps')
  | CloseBrace :: ps' => String "}" (filled_of tokens ps')
  | Field name :: ps' =>
      match tokens !! name with
      | Some v => (v ++ filled_of tokens ps')%string
      | None => (String "{" name ++ String "}" (filled_of tokens ps'))%string
      end
  end.

(** *** Media discovery *)

Section DiscoveryNotions.
Context {rt : PyRuntime}.
Variable parse_file_name : string -> tokenmap.
Variable get_metadata : string -> outcome pydict.
Variables (media_source media_pattern media_repl : string).

(** The file yields the key: the template engine gives a non-empty string. *)
Definition derives_key (one_file key : string) : Prop :=
  exists r, media_key_of parse_file_name media_source media_pattern media_repl one_file = Ret r
    /\ nonempty_result r = Some key.

(** The item stands for the last of the media files that yield the key. *)
Definition last_with_key (media_files : list string) (key : string) (item : media_dict)
  : Prop :=
  exists pre post meta,
    media_files = pre ++ file item :: post
    /\ derives_key (file item) key
    /\ (forall f, In f post -> ~ derives_key f key)
    /\ get_metadata (file item) = Ret meta
    /\ item = {| file := file item; metadata := meta;
                 csv_line := None; csv_file := None |}.

End DiscoveryNotions.

(** *** Grouping, in the words of the specification

    Bucket the batches by group key, in the order in which the keys first
    appear; sort each bucket ascending by sort key, by plain string
    comparison and keeping the input order of equal keys; keep the last
    batch of each bucket under highest-only, all of them otherwise. *)

Definition key_leb (a b : option string) : bool :=
  match a, b with
  | Some x, Some y => String.leb x y
  | None, _ => true
  | Some _, None => false
  end.

Fixpoint spec_insert (x : one_rec) (l : list one_rec) : list one_rec :=
  match l with
  | [] => [x]
  | y :: l' =>
      if key_leb (sort x) (sort y) then x :: y :: l' else y :: spec_insert x l'
  end.

Fixpoint spec_sort (l : list one_rec) : list one_rec :=
  match l with
  | [] => []
  | x :: l' => spec_insert x (spec_sort l')
  end.

(** The distinct elements of a list, in the order of their first
    occurrence. *)
Fixpoint distinct {A : Type} `{EqDecision A} (l : list A) : list A :=
  match l with
  | [] => []
  | x :: l' => x :: filter (fun y => y <> x) (distinct l')
  end.

Definition bucket_of (recs : list one_rec) (k : option string) : list one_rec :=
  filter (fun r => group r = k) recs.

Definition spec_buckets (recs : list one_rec) : list (list one_rec) :=
  map (bucket_of recs) (distinct (map group recs)).

(** The last element of a list, as a list. *)
Definition last_only {A : Type} (l : list A) : list A :=
  match List.rev l with
  | last :: _ => [last]
  | [] => []
  end.

Definition spec_keep (highest_only : bool) (bucket : list one_rec) : list one_rec :=
  let sorted := spec_sort bucket in
  if highest_only then last_only sorted else sorted.

(** The batches of the records, with their contents. *)
Definition entries {V : Type} (csvs : list (string * V)) (recs : list one_rec)
  : list (string * V) :=
  flat_map (fun r => match od_get csvs (csv_path r) with
                     | Some v => [(csv_path r, v)]
                     | None => []
                     end) recs.

(** What is kept of the buckets. *)
Definition kept {V : Type} (highest_only : bool) (buckets : list (list one_rec))
  (csvs : list (string * V)) : list (string * V) :=
  entries csvs (concat (map (spec_keep highest_only) buckets)).

Definition spec_group_csvs {V : Type} (highest_only : bool) (recs : list one_rec)
  (csvs : list (string * V)) : list (string * V) :=
  kept highest_only (spec_buckets recs) csvs.

(** *** Grouping, as the first loop of [_group_csvs] buckets the batches

    A key that is present has all the batches with that key, in input order;
    the absent key has only the last batch without a key. *)
Definition built_bucket (recs : list one_rec) (k : option string) : list one_rec :=
  match k with
  | Some _ => bucket_of recs k
  | None => last_only (bucket_of recs None)
  end.

Definition built_buckets (recs : list one_rec) : list (list one_rec) :=
  map (built_bucket recs) (distinct (map group recs)).

(** The records of the batches. *)

Definition recs_of {rt : PyRuntime} {V : Type} (common_compiled sort_compiled : regex)
  (csvs : list (string * V)) : list one_rec :=
  map (fun kv => make_rec common_compiled sort_compiled (fst kv)) csvs.

(** Sorting a bucket compares no absent sort key: the bucket has one batch,
    or all its batches have a sort key. *)
Definition comparable (bucket : list one_rec) : bool :=
  (List.length bucket <=? 1)%nat || forallb (fun r => bool_decide (sort r <> None)) bucket.

(** ** Concrete inputs *)

(** A normalised csv line with the fields the matching reads. *)
Definition ex_line (key : string) (skip : bool) (source_in source_out : option Z)
  : pydict :=
  {[ "csv_key" := PStr key; "csv_skip_line" := PBool skip;
     "csv_sin_frames" := frame source_in; "csv_sout_frames" := frame source_out ]}.

(** A discovered media file with its decoded frame range. *)
Definition ex_item (path : string) (tc_in tc_out : option Z) : media_dict :=
  {| file := path;
     metadata := {[ "tc_in_frames" := frame tc_in; "tc_out_frames" := frame tc_out ]};
     csv_line := None;
     csv_file := None |}.

(** Two batches: a skipped line, a line out of range, then two lines in
    range, all with the key of the media file, and one more in the second
    batch. *)
Definition ex_csvs : batches :=
  [ ("/edit/one.csv",
      [ ex_line "shot" true (Some 10) (Some 20);
        ex_line "shot" false (Some 0) (Some 30);
        ex_line "shot" false (Some 10) (Some 20);
        ex_line "shot" false (Some 11) (Some 19) ]);
    ("/edit/two.csv",
      [ ex_line "shot" false (Some 12) (Some 18) ]) ].

Definition ex_media : list (string * media_dict) :=
  [ ("shot", ex_item "/media/shot.mov" (Some 5) (Some 25));
    ("other", ex_item "/media/other.mov" (Some 5) (Some 25)) ].

(** A filter that skips every line whose reel is not the empty target. *)
Definition ex_filter_inverted : skip_filter :=
  {| filter_column := "Reel"; filter_pattern := "(.*)"; filter_repl := "";
     filter_equals := ""; filter_invert := true |}.

(** Filters with targets: keep out reel A002, and everything that is not a
    video track. *)
Definition ex_filters : list skip_filter :=
  [ {| filter_column := "Reel"; filter_pattern := "(.*)"; filter_repl := "";
       filter_equals := "A002"; filter_invert := false |};
    {| filter_column := "Track"; filter_pattern := "^(\w)"; filter_repl := "";
       filter_equals := "V"; filter_invert := true |} ].

Definition ex_row (reel track : string) : pydict :=
  {[ "Reel" := PStr reel; "Track" := PStr track ]}.

(** The template ["{media_file}_{take} {{v1}}"]. *)
Definition ex_template : list piece :=
  [ Field "media_file"; Text "_"; Field "take"; Text " ";
    OpenBrace; Text "v"; Text "1"; CloseBrace ].

Definition ex_tokens : tokenmap := {[ "media_file" := "A001C003" ]}.

(** Media files as discovered, a parser that gives the base name as the
    token [name], and a probe that finds no metadata. *)
Definition ex_media_files : list string :=
  [ "/media/A001.mov"; "/media/notes.txt"; "/media/B002.mov"; "/media/A001.mxf" ].

Definition ex_parse_file_name (one_file : string) : tokenmap :=
  {[ "name" := basename one_file ]}.

Definition ex_get_metadata (one_file : string) : outcome pydict := Ret ∅.

(** Three versioned batches (a label stands for the rows of each), and the
    patterns that extract the group from the text before the underscore and
    the version after it. *)
Definition ex_batches : list (string * string) :=
  [ ("/edit/a_v2.csv", "rows of a_v2");
    ("/edit/b_v1.csv", "rows of b_v1");
    ("/edit/a_v1.csv", "rows of a_v1") ].

Definition ex_common : string := "^(\w)_".
Definition ex_sort : string := "_(v\d+)".

(** Two batches whose names the group pattern does not match. *)
Definition ex_ungrouped : list (string * string) :=
  [ ("/edit/monday.csv", "rows of monday");
    ("/edit/tuesday.csv", "rows of tuesday") ].

(** ** Further notions

    The parts of the program that the sections above leave out are embedded
    below, each with the notions its statements use. *)

(** *** Timecodes *)


(** [sep.join(l)]. *)
Fixpoint join (sep : string) (l : list string) : string :=
  match l with
  | [] => EmptyString
  | [x] => x
  | x :: l' => (x ++ sep ++ join sep l')%string
  end.


(** *** Batch grouping *)

(** What the loops of [_group_csvs] keep true of [grouped_csvs]: it holds
    batches of [csvs], each path once. *)
Definition grouped_sound {V : Type} (csvs grouped : list (string * V)) : Prop :=
  (forall kv, In kv grouped -> In kv csvs) /\ NoDup (map fst grouped).

(** *** Matching *)

Section MatchingNotions.
Context {rt : PyRuntime}.
Variables (column csv_pattern csv_repl : string).

(** The key [prep_matching] leaves in a line: empty for a skipped line, and
    otherwise the template result over the matching column, or empty when
    that is empty or [None]. *)
Definition derived_key (l : pydict) (key : string) : Prop :=
  exists skip, l !! "csv_skip_line" = Some skip /\
    if truthy skip then key = ""
    else exists r,
      regex_test (dict_get (reset_key l) column) ∅ csv_pattern csv_repl = Ret r
      /\ key = match nonempty_result r with
               | Some k => k
               | None => ""
               end.

End MatchingNotions.

(** An item that holds no line. *)
Definition unmatched (item : media_dict) : bool :=
  match csv_line item with
  | None => true
  | Some _ => false
  end.

(** The file of the last item of the collection that holds the line at place
    [(i, j)]. *)
Fixpoint last_holder (media : list (string * media_dict)) (i j : nat) : option string :=
  match media with
  | [] => None
  | (_, item) :: rest =>
      match last_holder rest i j with
      | Some f => Some f
      | None => if decide (csv_line item = Some (i, j)) then Some (file item) else None
      end
  end.

(** The line with the mark [csv_matching] leaves for a file. *)
Definition marked_for (f : option string) (l : pydict) : pydict :=
  match f with
  | Some name => <["csv_matched_media" := PStr name]> l
  | None => l
  end.

(** Place [(i', j')] comes no later than place [(i, j)] in the scan. *)
Definition no_later (p' p : nat * nat) : Prop :=
  (fst p' < fst p \/ fst p' = fst p /\ snd p' <= snd p)%nat.

(** Lines as [read_csvs] leaves them, with the clip name the keys are
    derived from: a line to match, a skipped line, and a line whose name
    gives no key. *)
Definition ex_named_line (name : string) (skip : bool) : pydict :=
  {[ "Name" := PStr name; "csv_key" := PStr ""; "csv_skip_line" := PBool skip ]}.

Definition ex_named_csvs : batches :=
  [ ("/edit/one.csv",
      [ ex_named_line "A001_take1" false;
        ex_named_line "B002_take1" true;
        ex_named_line "slate" false ]) ].

(** ** Reading the csv files: [read_csvs]

    A row is what [csv.DictReader] yields for a line: the columns of the
    header in order, each with its text, or [None] where the line is too
    short.  The files are given with the rows read from them; a file that
    cannot be opened has none. *)

Abbreviation row := (list (string * pyval)).

(** [rename_columns]: [rename] maps the name wanted to the name in the csv
    file; a column is renamed after the first entry that has its name. *)
Definition rename_target (rename : list (string * string)) (k : string) : string :=
  match List.find (fun r : string * string => String.eqb (snd r) k) rename with
  | Some r => fst r
  | None => k
  end.

Definition rename_columns (rename : list (string * string)) (one_line : row) : row :=
  fold_left (fun out_line kv => od_set out_line (rename_target rename (fst kv)) (snd kv))
            one_line [].

(** [csv_tc_to_frames]. *)
Definition tc_columns : list string := ["csv_sin"; "csv_sout"; "csv_rin"; "csv_rout"].

(** The frame count stored for a timecode cell: [None] for an empty cell,
    and [tc_to_frames] needs a string to split. *)
Definition csv_frames (fps : Q) (v : pyval) : outcome pyval :=
  if truthy v && negb (py_eq v (PStr "")) then
    match v with
    | PStr s => do frames <- tc_to_frames s fps; Ret (PInt frames)
    | _ => do _ <- true_div 1 (py_round fps); Raise AttributeError
    end
  else Ret PNone.

Fixpoint frames_loop (fps : Q) (items : row) (out_line : row) : outcome row :=
  match items with
  | [] => Ret out_line
  | (k, v) :: rest =>
      let out_line := od_set out_line k v in
      if existsb (String.eqb k) tc_columns then
        do frames <- csv_frames fps v;
        frames_loop fps rest (od_set out_line (k ++ "_frames")%string frames)
      else frames_loop fps rest out_line
  end.

Definition csv_tc_to_frames (fps : Q) (one_line : row) : outcome row :=
  frames_loop fps one_line [].

(** [s.replace('\\', '/')]. *)
Fixpoint slashes (s : string) : string :=
  match s with
  | EmptyString => EmptyString
  | String c r => String (if Ascii.eqb c "\" then "/"%char else c) (slashes r)
  end.

Section ReadCsvs.
Context {rt : PyRuntime}.
(** [prefs['csv_columns']]: [rename], [required]; [prefs['edl']['frame_rate']];
    [prefs['csv_match_skip']]; [prefs['search_csv']['check_required_columns']];
    [prefs['group_csv']]. *)
Variable rename : list (string * string).
Variable required_columns : list string.
Variable frame_rate : Q.
Variable csv_match_skip : list skip_filter.
Variable check_required_columns : bool.
Variables (common sort_pattern : string) (highest_only : bool).

(** The body of the row loop. *)
Definition read_row (r : row) : outcome pydict :=
  let line_dict := rename_columns rename r in
  do line_dict <- csv_tc_to_frames frame_rate line_dict;
  mark_skip csv_match_skip (list_to_map line_dict).

(** The row loop: the lines read and the number of them that are not
    skipped. *)
Fixpoint read_rows (rows : list row) (csv_listdict : list pydict) (valid_lines : nat)
  : outcome (list pydict * nat) :=
  match rows with
  | [] => Ret (csv_listdict, valid_lines)
  | r :: rest =>
      do line_dict <- read_row r;
      do skip <- getitem line_dict "csv_skip_line";
      read_rows rest (csv_listdict ++ [line_dict])
                (if truthy skip then valid_lines else S valid_lines)
  end.

(** [not skip]: the file has lines, one of them is valid, and when the
    columns are checked the first line has all the required ones. *)
Definition keep_csv (csv_listdict : list pydict) (valid_lines : nat) : bool :=
  match csv_listdict with
  | [] => false
  | first :: _ =>
      if (valid_lines =? 0)%nat then false
      else if check_required_columns
           then forallb (fun c => bool_decide (is_Some (first !! c))) required_columns
           else true
  end.

(** The loop over the csv files. *)
Fixpoint read_files (csv_files : list (string * list row)) (csvs : batches)
  : outcome batches :=
  match csv_files with
  | [] => Ret csvs
  | (one_csv, rows) :: rest =>
      let one_csv := slashes one_csv in
      do read <- read_rows rows [] 0%nat;
      if keep_csv (fst read) (snd read)
      then read_files rest (od_set csvs one_csv (fst read))
      else read_files rest csvs
  end.

(** [read_csvs]: the value of [self.csvs] when the call ends. *)
Definition read_csvs (csv_files : list (string * list row)) : outcome batches :=
  match csv_files with
  | [] => Raise EditToolException
  | _ :: _ =>
      do csvs <- read_files csv_files [];
      match csvs with
      | [] => Raise EditToolException
      | _ :: _ => _group_csvs common sort_pattern highest_only csvs
      end
  end.

End ReadCsvs.

(** A line as the row loop leaves it: the skip mark is a boolean and the key
    is the empty string. *)
Definition line_ready (l : pydict) : Prop :=
  (exists b, l !! "csv_skip_line" = Some (PBool b)) /\ l !! "csv_key" = Some (PStr "").

(** A line that is not skipped. *)
Definition valid_line (l : pydict) : bool :=
  match l !! "csv_skip_line" with
  | Some v => negb (truthy v)
  | None => false
  end.

(** A batch that [read_csvs] keeps: every line is ready, one of them is
    valid, and when the columns are checked the first line has all the
    required ones. *)
Definition batch_ready (check_required_columns : bool) (required_columns : list string)
  (lines : list pydict) : Prop :=
  Forall line_ready lines
  /\ Exists (fun l => valid_line l = true) lines
  /\ (check_required_columns = true ->
      exists first rest, lines = first :: rest
        /\ Forall (fun c => is_Some (first !! c)) required_columns).

(** The renaming of the columns of an edit index, a filter that skips reel
    A002, a row of the index, and a folder with one file of two rows. *)
Definition ex_rename : list (string * string) :=
  [ ("csv_sin", "Source In"); ("csv_sout", "Source Out");
    ("csv_rin", "Record In"); ("csv_rout", "Record Out") ].

Definition ex_reel_filters : list skip_filter :=
  [ {| filter_column := "Reel"; filter_pattern := "(.*)"; filter_repl := "";
       filter_equals := "A002"; filter_invert := false |} ].

Definition ex_raw_row (reel name source_in source_out : string) : row :=
  [ ("Reel", PStr reel); ("Name", PStr name);
    ("Source In", PStr source_in); ("Source Out", PStr source_out) ].

Definition ex_csv_files : list (string * list row) :=
  [ ("C:\edit\a_v1.csv",
      [ ex_raw_row "A001" "A001_t1" "00:00:10:00" "00:00:20:00";
        ex_raw_row "A002" "A002_t1" "00:00:05:00" "00:00:06:00" ]) ].

(** A renamed row with a source-in timecode and an empty source-out cell. *)
Definition ex_renamed_row : row :=
  [ ("Reel", PStr "A001"); ("csv_sin", PStr "00:00:10:00"); ("csv_sout", PStr "") ].

(** ** Listing a folder: [get_file_list]

    Both callers list without recursion.  The folder is given by the names
    of its plain files in the order of [os.listdir], or by nothing when the
    root is not a directory.  [re.match] is taken as given: [None] stands for
    [re.error], which nothing catches here. *)

(** [sub in s] for strings. *)
Fixpoint contains (sub s : string) : bool :=
  String.prefix sub s
  || match s with
     | EmptyString => false
     | String _ r => contains sub r
     end.

(** [sub] occurs in [s]. *)
Definition occurs (sub s : string) : Prop :=
  exists pre post, s = (pre ++ sub ++ post)%string.

Inductive file_list_result : Type :=
| FileList (file_list : list string)
| FolderUnreachable
| PatternError.

Section FileList.
(** [bool(re.match(pattern, s))]. *)
Variable re_match : string -> string -> option bool.
Variables (include exclude pattern : string).

(** The loop over [files], from the list [file_list] built so far. *)
Fixpoint file_loop (files file_list : list string) : file_list_result :=
  match files with
  | [] => FileList file_list
  | one_file :: rest =>
      if negb (String.eqb include "") && negb (contains include one_file)
      then file_loop rest file_list
      else if negb (String.eqb exclude "") && contains exclude one_file
      then file_loop rest file_list
      else if negb (String.eqb pattern "") then
        match re_match pattern (basename one_file) with
        | None => PatternError
        | Some true => file_loop rest (file_list ++ [one_file])
        | Some false => file_loop rest file_list
        end
      else file_loop rest (file_list ++ [one_file])
  end.

Definition get_file_list (root : string) (names : option (list string)) : file_list_result :=
  match names with
  | None => FolderUnreachable
  | Some names =>
      file_loop (map (fun f => (root ++ "/" ++ f)%string) names) []
  end.

(** A file passes the three filters. *)
Definition passes (one_file : string) : Prop :=
  (include = "" \/ occurs include one_file)
  /\ (exclude = "" \/ ~ occurs exclude one_file)
  /\ (pattern = "" \/ re_match pattern (basename one_file) = Some true).

End FileList.

(** [re.match] in the reference runtime: a match that starts at the first
    character. *)
Definition mini_match (pattern s : string) : option bool :=
  match MiniRe.compile pattern with
  | None => None
  | Some p =>
      Some (match MiniRe.mt (MiniRe.expr p) true (list_ascii_of_string s) []
                    (fun _ _ cs => Some cs) with
            | Some _ => true
            | None => false
            end)
  end.

(** The plain files of a folder. *)
Definition ex_folder : list string := [ "A001.csv"; "B002.csv"; "A003.txt"; "xA004.csv" ].

(** ** Writing the EDLs: [matched_media_to_edls]

    The value of [self.edls] when the loop over the csv files ends; writing
    the files is left out.  Paths are taken apart as [posixpath] does. *)

(** [a < b], as [sorted] compares keys: integers with integers, strings
    with strings, anything else is a [TypeError]. *)
Definition py_lt (a b : pyval) : outcome bool :=
  match a, b with
  | PStr s, PStr t => Ret (String.ltb s t)
  | _, _ =>
      match as_int a, as_int b with
      | Some x, Some y => Ret (x <? y)%Z
      | _, _ => Raise TypeError
      end
  end.

(** [sorted(l, key=key)], by insertion from the right as in
    [sorted_by_sort]. *)
Fixpoint insert_by {A : Type} (key : A -> pyval) (x : A) (l : list A) : outcome (list A) :=
  match l with
  | [] => Ret [x]
  | y :: l' =>
      do lt <- py_lt (key y) (key x);
      if lt then do r <- insert_by key x l'; Ret (y :: r)
      else Ret (x :: y :: l')
  end.

Fixpoint sorted_by {A : Type} (key : A -> pyval) (l : list A) : outcome (list A) :=
  match l with
  | [] => Ret []
  | x :: l' => do r <- sorted_by key l'; insert_by key x r
  end.

(** [str(v)], which is what a replacement field without a format spec
    renders. *)
Definition py_str (v : pyval) : string :=
  match v with
  | PNone => "None"
  | PBool true => "True"
  | PBool false => "False"
  | PInt z => NilZero.string_of_int (Z.to_int z)
  | PStr s => s
  end.

(** The newline character. *)
Definition nl : string := String "010"%char EmptyString.

(** [str(n).zfill(3)] for a count. *)
Definition zfill3 (n : nat) : string :=
  let s := NilZero.string_of_uint (Nat.to_uint n) in
  (string_of_list_ascii (List.repeat "0"%char (3 - String.length s)) ++ s)%string.

Fixpoint drop_while {A : Type} (f : A -> bool) (l : list A) : list A :=
  match l with
  | [] => []
  | x :: l' => if f x then drop_while f l' else l
  end.

(** [os.path.dirname]: the path up to its last slash, without the slashes
    at its end unless it consists of slashes only. *)
Definition dirname (p : string) : string :=
  let is_slash (c : ascii) := Ascii.eqb c "/" in
  let head := drop_while (fun c => negb (is_slash c)) (List.rev (list_ascii_of_string p)) in
  string_of_list_ascii
    (List.rev (if forallb is_slash head then head else drop_while is_slash head)).

(** [s[:-4]]. *)
Definition drop_last4 (s : string) : string :=
  string_of_list_ascii (firstn (String.length s - 4) (list_ascii_of_string s)).

(** The operand of a string concatenation. *)
Definition as_str (v : pyval) : outcome string :=
  match v with
  | PStr s => Ret s
  | _ => Raise TypeError
  end.

(** The line an item holds.  The item holds a line of [csvs]; a place
    outside [csvs] does not arise and is read as a line without fields. *)
Definition held_line (csvs : batches) (item : media_dict) : option pydict :=
  match csv_line item with
  | Some (i, j) => Some (default ∅ (line_at csvs i j))
  | None => None
  end.

(** [d.get('csv_line', {}).get('csv_rin_frames')]. *)
Definition rin_key (csvs : batches) (kv : string * media_dict) : pyval :=
  dict_get (default ∅ (held_line csvs (snd kv))) "csv_rin_frames".

(** [_exists and _f]: the bucket is there and not empty, and the csv file is
    neither [None] nor the empty string. *)
Definition by_csv_add (by_csv : list (option string * list (string * media_dict)))
  (kv : string * media_dict) : list (option string * list (string * media_dict)) :=
  let _f := csv_file (snd kv) in
  match od_get by_csv _f, _f with
  | Some (m :: l), Some (String c r) => od_set by_csv _f ((m :: l) ++ [kv])
  | _, _ => od_set by_csv _f [kv]
  end.

Definition by_csv_of (media : list (string * media_dict))
  : list (option string * list (string * media_dict)) :=
  fold_left by_csv_add media [].

(** [prefs['edl']], and an entry like [prefs['edl_reel']]. *)
Record edl_prefs : Type := {
  custom_folder : string;
  use_media_root : bool;
  use_media_root_up : bool;
  edl_name_custom : string;
  edl_name_from_csv : bool;
  edl_name_from_media_folder : bool;
  edl_name_prefix : string;
  edl_name_suffix : string;
  drop_frame : bool;
  max_reel : Z
}.

Record edl_template : Type := {
  t_source : string;
  t_pattern : string;
  t_repl : string;
  t_export : bool
}.

Section Edls.
Context {rt : PyRuntime}.
Variable edl : edl_prefs.
Variables (edl_reel edl_clip edl_clip_path : edl_template).
Variable csvs : batches.

(** The tokens of a media item: the fields of its line, those of the
    metadata over them, and the path, the file name and the key, each
    rendered as [str.format] renders it. *)
Definition edl_tokens (media_key : string) (item : media_dict) (line : pydict) : tokenmap :=
  py_str <$> (<["media_key" := PStr media_key]>
                (<["media_file" := PStr (basename (file item))]>
                   (<["media_path" := PStr (file item)]> (metadata item ∪ line)))).

Definition str_at (line : pydict) (k : string) : outcome string :=
  do v <- getitem line k; as_str v.

Definition media_to_edl_line (one_media : string * media_dict) (line_number : nat)
  : outcome string :=
  let number := (zfill3 line_number ++ "  ")%string in
  let vc := "V     C        " in
  do line <- match held_line csvs (snd one_media) with
             | Some l => Ret l
             | None => Raise KeyError
             end;
  do source_in <- str_at line "csv_sin";
  do source_out <- str_at line "csv_sout";
  do record_in <- str_at line "csv_rin";
  do record_out <- str_at line "csv_rout";
  let tcs := (source_in ++ " " ++ source_out ++ " " ++ record_in ++ " " ++ record_out)%string in
  let tokens := edl_tokens (fst one_media) (snd one_media) line in
  do reel <- reel_column (t_source edl_reel) (t_pattern edl_reel) (t_repl edl_reel)
                         (max_reel edl) tokens;
  do fcm <- regex_test (PStr (t_source edl_clip)) tokens (t_pattern edl_clip) (t_repl edl_clip);
  do fp <- regex_test (PStr (t_source edl_clip_path)) tokens
                      (t_pattern edl_clip_path) (t_repl edl_clip_path);
  let line := (number ++ reel ++ vc ++ tcs ++ nl)%string in
  do line <- (if t_export edl_clip
              then do t <- as_str fcm; Ret (line ++ t ++ nl)%string
              else Ret line);
  if t_export edl_clip_path
  then do t <- as_str fp; Ret (line ++ t ++ nl)%string
  else Ret line.

(** The loop over [sorted_medias], from the count [cnt] and the text so
    far. *)
Fixpoint edl_lines (sorted_medias : list (string * media_dict)) (cnt : nat) (lines : string)
  : outcome string :=
  match sorted_medias with
  | [] => Ret lines
  | one_media :: rest =>
      do l <- media_to_edl_line one_media (S cnt);
      edl_lines rest (S cnt) (lines ++ l)%string
  end.

Definition fcm_line : string :=
  if drop_frame edl then ("FCM: DROP FRAME" ++ nl ++ nl)%string
  else ("FCM: NON-DROP FRAME" ++ nl ++ nl)%string.

Definition edl_root_of (first_media_path : string) : string :=
  if use_media_root edl then first_media_path
  else if use_media_root_up edl
       then join "/" (removelast (split_char "/" first_media_path))
       else slashes (custom_folder edl).

Definition edl_name_of (one_csv first_media_path : string) : string :=
  let edl_name :=
    if edl_name_from_csv edl then drop_last4 (basename one_csv)
    else if edl_name_from_media_folder edl
         then List.last (split_char "/" first_media_path) EmptyString
         else edl_name_custom edl in
  (edl_name_prefix edl ++ edl_name ++ edl_name_suffix edl)%string.

(** The body of the loop over [by_csv]: the path of the EDL and its text. *)
Definition edl_of_bucket (one_csv : string) (medias : list (string * media_dict))
  : outcome (string * string) :=
  do sorted_medias <- sorted_by (rin_key csvs) medias;
  do first <- match sorted_medias with
              | m :: _ => Ret m
              | [] => Raise IndexError
              end;
  let first_media_path := slashes (dirname (file (snd first))) in
  let edl_root := edl_root_of first_media_path in
  let edl_name := edl_name_of one_csv first_media_path in
  let header := ("TITLE: " ++ edl_name ++ nl ++ fcm_line)%string in
  do lines <- edl_lines sorted_medias 0 header;
  Ret ((edl_root ++ "/" ++ edl_name ++ ".edl")%string, lines).

Fixpoint edl_loop (by_csv : list (option string * list (string * media_dict)))
  (edls : list (string * string)) : outcome (list (string * string)) :=
  match by_csv with
  | [] => Ret edls
  | (None, _) :: rest => edl_loop rest edls
  | (Some one_csv, medias) :: rest =>
      do e <- edl_of_bucket one_csv medias;
      edl_loop rest (od_set edls (fst e) (snd e))
  end.

(** [matched_media_to_edls] on a tool that has written no EDL yet. *)
Definition matched_media_to_edls (media : list (string * media_dict))
  : outcome (list (string * string)) :=
  edl_loop (by_csv_of media) [].

End Edls.

(** The preferences with another drop-frame flag. *)
Definition set_drop_frame (b : bool) (e : edl_prefs) : edl_prefs :=
  {| custom_folder := custom_folder e;
     use_media_root := use_media_root e;
     use_media_root_up := use_media_root_up e;
     edl_name_custom := edl_name_custom e;
     edl_name_from_csv := edl_name_from_csv e;
     edl_name_from_media_folder := edl_name_from_media_folder e;
     edl_name_prefix := edl_name_prefix e;
     edl_name_suffix := edl_name_suffix e;
     drop_frame := b;
     max_reel := max_reel e |}.

(** Two EDL texts that differ in the frame-count-mode line only. *)
Definition same_but_fcm (a b : string * string) : Prop :=
  fst a = fst b
  /\ exists title body,
       snd a = (title ++ ("FCM: DROP FRAME" ++ nl ++ nl) ++ body)%string
       /\ snd b = (title ++ ("FCM: NON-DROP FRAME" ++ nl ++ nl) ++ body)%string.

(** The path every EDL gets when neither the folder nor the name is taken
    from the media or the csv file. *)
Definition custom_edl_path (e : edl_prefs) : string :=
  (slashes (custom_folder e) ++ "/"
   ++ (edl_name_prefix e ++ edl_name_custom e ++ edl_name_suffix e) ++ ".edl")%string.

(** A line with its four timecodes, held by one media file, and the
    preferences of an EDL written to a folder of its own. *)
Definition ex_edl_line : pydict :=
  {[ "csv_sin" := PStr "00:00:10:00"; "csv_sout" := PStr "00:00:20:00";
     "csv_rin" := PStr "01:00:00:00"; "csv_rout" := PStr "01:00:10:00";
     "csv_rin_frames" := PInt 86400 ]}.

Definition ex_edl_csvs : batches := [ ("/edit/a_v1.csv", [ ex_edl_line ]) ].

Definition ex_edl_media : list (string * media_dict) :=
  [ ("A001", {| file := "/media/A001.mov"; metadata := ∅;
                csv_line := Some (0, 0)%nat; csv_file := Some "/edit/a_v1.csv" |}) ].

Definition ex_edl_prefs : edl_prefs :=
  {| custom_folder := "/out";
     use_media_root := false;
     use_media_root_up := false;
     edl_name_custom := "cut";
     edl_name_from_csv := false;
     edl_name_from_media_folder := false;
     edl_name_prefix := "";
     edl_name_suffix := "";
     drop_frame := false;
     max_reel := 8 |}.

Definition ex_reel_template : edl_template :=
  {| t_source := "{media_key}"; t_pattern := "(.*)"; t_repl := ""; t_export := false |}.

Definition ex_clip_template : edl_template :=
  {| t_source := "* {media_file}"; t_pattern := "(.*)"; t_repl := ""; t_export := true |}.

Definition ex_path_template : edl_template :=
  {| t_source := "{media_path}"; t_pattern := "(.*)"; t_repl := ""; t_export := false |}.

(** Two csv files, each with a line held by a media file of its own. *)
Definition ex_edl_csvs2 : batches :=
  [ ("/edit/a_v1.csv", [ ex_edl_line ]); ("/edit/b_v1.csv", [ ex_edl_line ]) ].

Definition ex_edl_media2 : list (string * media_dict) :=
  [ ("A001", {| file := "/media/A001.mov"; metadata := ∅;
                csv_line := Some (0, 0)%nat; csv_file := Some "/edit/a_v1.csv" |});
    ("B001", {| file := "/media/B001.mov"; metadata := ∅;
                csv_line := Some (1, 0)%nat; csv_file := Some "/edit/b_v1.csv" |}) ].

(** The items of the collection matched to a line of the csv file [p], in
    the order of the collection. *)
Definition held_by (p : string) (media : list (string * media_dict))
  : list (string * media_dict) :=
  List.filter (fun kv => bool_decide (csv_file (snd kv) = Some p)) media.

(** The key of [a] is not above the key of [b], as [sorted] finds it. *)
Definition key_below {A : Type} (key : A -> pyval) (a b : A) : Prop :=
  py_lt (key b) (key a) = Ret false.

(** [''.join(ls)]. *)
Fixpoint concat_lines (ls : list string) : string :=
  match ls with
  | [] => EmptyString
  | l :: ls' => (l ++ concat_lines ls')%string
  end.

(** One csv file with two lines, held by two media files in the reverse of
    their record-in order. *)
Definition ex_edl_line_at (record_in record_out : string) (frames : Z) : pydict :=
  {[ "csv_sin" := PStr "00:00:10:00"; "csv_sout" := PStr "00:00:20:00";
     "csv_rin" := PStr record_in; "csv_rout" := PStr record_out;
     "csv_rin_frames" := PInt frames ]}.

Definition ex_edl_csvs3 : batches :=
  [ ("/edit/a_v1.csv",
      [ ex_edl_line_at "01:00:10:00" "01:00:20:00" 86640;
        ex_edl_line_at "01:00:00:00" "01:00:10:00" 86400 ]) ].

Definition ex_edl_bucket3 : list (string * media_dict) :=
  [ ("B001", {| file := "/media/B001.mov"; metadata := ∅;
                csv_line := Some (0, 0)%nat; csv_file := Some "/edit/a_v1.csv" |});
    ("A001", {| file := "/media/A001.mov"; metadata := ∅;
                csv_line := Some (0, 1)%nat; csv_file := Some "/edit/a_v1.csv" |}) ].

(** ** Tests on a result, for the runs of the statements *)

(** The call returns. *)
Definition is_ret {A : Type} (m : outcome A) : bool :=
  match m with
  | Ret _ => true
  | Raise _ => false
  end.

(** The line holds the key [k]. *)
Definition has_key (k : string) (l : pydict) : bool :=
  match l !! "csv_key" with
  | Some (PStr s) => String.eqb s k
  | _ => false
  end.

(** * Properties *)

(** ** The result monad *)

Lemma bind_Ret_inv {A B : Type} (m : outcome A) (k : A -> outcome B) (b : B) :
  bind m k = Ret b -> exists a, m = Ret a /\ k a = Ret b.
Proof. destruct m as [a|e]; simpl; [eauto | discriminate]. Qed.

Lemma returns_bind {A B : Type} (m : outcome A) (k : A -> outcome B) :
  returns m -> (forall a, m = Ret a -> returns (k a)) -> returns (bind m k).
Proof. intros [a ->] Hk. simpl. apply Hk. reflexivity. Qed.

Ltac inv_bind H :=
  let a := fresh "a" in
  let Ha := fresh "Ha" in
  apply bind_Ret_inv in H; destruct H as (a & Ha & H).

(** ** Ordered dictionaries *)

Section OrderedDictFacts.
Context {K V : Type} `{EqDecision K}.
Implicit Types (d : list (K * V)) (k : K) (v : V).

Lemma od_get_set_eq d k v : od_get (od_set d k v) k = Some v.
Proof.
  induction d as [|[k' v'] d IH]; simpl.
  - rewrite decide_True; auto.
  - destruct (decide (k' = k)) as [->|Hne]; simpl.
    + rewrite decide_True; auto.
    + rewrite decide_False; auto.
Qed.

Lemma od_get_set_ne d k k' v : k <> k' -> od_get (od_set d k v) k' = od_get d k'.
Proof.
  intros Hne. induction d as [|[k0 v0] d IH]; simpl.
  - rewrite decide_False; auto.
  - destruct (decide (k0 = k)) as [->|Hne0]; simpl.
    + rewrite !decide_False; auto.
    + destruct (decide (k0 = k')); auto.
Qed.

Lemma od_get_None_notin d k : od_get d k = None <-> ~ In k (map fst d).
Proof.
  induction d as [|[k' v'] d IH]; simpl.
  - tauto.
  - destruct (decide (k' = k)) as [->|Hne].
    + split; [discriminate | tauto].
    + rewrite IH. tauto.
Qed.

Lemma od_set_fresh d k v : od_get d k = None -> od_set d k v = d ++ [(k, v)].
Proof.
  induction d as [|[k' v'] d IH]; simpl; auto.
  destruct (decide (k' = k)); [discriminate|].
  intros Hn. rewrite IH; auto.
Qed.

Lemma od_set_keys_present d k v v0 :
  od_get d k = Some v0 -> map fst (od_set d k v) = map fst d.
Proof.
  induction d as [|[k' v'] d IH]; simpl; [discriminate|].
  destruct (decide (k' = k)) as [->|Hne]; simpl; auto.
  intros Hg. rewrite IH; auto.
Qed.

Lemma od_set_NoDup d k v : NoDup (map fst d) -> NoDup (map fst (od_set d k v)).
Proof.
  intros Hnd. destruct (od_get d k) as [v0|] eqn:E.
  - erewrite od_set_keys_present; eauto.
  - rewrite od_set_fresh, map_app by exact E. simpl.
    apply NoDup_ListNoDup, List.NoDup_app; repeat split.
    + apply NoDup_ListNoDup. exact Hnd.
    + repeat constructor. simpl. tauto.
    + intros x Hx [<-|[]]. apply od_get_None_notin in E. tauto.
Qed.

Lemma od_get_In d k v : od_get d k = Some v -> In (k, v) d.
Proof.
  induction d as [|[k' v'] d IH]; simpl; [discriminate|].
  destruct (decide (k' = k)) as [->|Hne]; auto.
  intros [= ->]. auto.
Qed.

Lemma od_In_get d k v : NoDup (map fst d) -> In (k, v) d -> od_get d k = Some v.
Proof.
  induction d as [|[k' v'] d IH]; simpl; [tauto|].
  intros Hnd [Heq|Hin].
  - injection Heq as -> ->. rewrite decide_True; auto.
  - apply NoDup_cons in Hnd as [Hni Hnd].
    destruct (decide (k' = k)) as [->|Hne]; auto.
    exfalso. apply Hni. apply list_elem_of_In.
    change k with (fst (k, v)). apply in_map. exact Hin.
Qed.

End OrderedDictFacts.

(** ** Matching *)

Section MatchingFacts.
Variable match_tc : bool.

Lemma getitem_strip (l : pydict) (k : string) :
  k <> "csv_matched_media" -> getitem (strip_line l) k = getitem l k.
Proof.
  intros Hne. unfold getitem, strip_line. rewrite lookup_delete_ne; auto.
Qed.

Lemma line_accepts_strip media_key item l :
  line_accepts match_tc media_key item (strip_line l) = line_accepts match_tc media_key item l.
Proof.
  unfold line_accepts. rewrite !getitem_strip by discriminate. reflexivity.
Qed.

Lemma scan_lines_strip media_key item ls cnt :
  scan_lines match_tc media_key item (map strip_line ls) cnt
  = scan_lines match_tc media_key item ls cnt.
Proof.
  revert cnt. induction ls as [|l ls IH]; intros cnt; simpl; auto.
  rewrite line_accepts_strip, IH. reflexivity.
Qed.

Lemma scan_csvs_strip media_key item csvs i :
  scan_csvs match_tc media_key item (strip csvs) i = scan_csvs match_tc media_key item csvs i.
Proof.
  revert i. induction csvs as [|[name ls] csvs IH]; intros i; simpl; auto.
  rewrite scan_lines_strip, IH. reflexivity.
Qed.

Lemma strip_line_insert l v :
  strip_line (<["csv_matched_media" := v]> l) = strip_line l.
Proof. unfold strip_line. apply delete_insert_eq. Qed.

Lemma strip_set_line csvs i j v :
  strip (set_line csvs i j "csv_matched_media" v) = strip csvs.
Proof.
  unfold strip, set_line. revert i.
  induction csvs as [|[name ls] csvs IH]; intros [|i]; simpl; auto.
  - f_equal. f_equal. clear IH. revert j.
    induction ls as [|l ls IHl]; intros [|j]; simpl; auto.
    + rewrite strip_line_insert. reflexivity.
    + f_equal. apply IHl.
  - f_equal. apply IH.
Qed.

(** *** The scan of one batch *)

Lemma scan_lines_Some media_key item ls cnt n :
  scan_lines match_tc media_key item ls cnt = Ret (Some n) <->
  exists j l, n = (cnt + j)%nat /\ ls !! j = Some l
    /\ line_accepts match_tc media_key item l = Ret true
    /\ forall j' l', (j' < j)%nat -> ls !! j' = Some l' ->
         line_accepts match_tc media_key item l' = Ret false.
Proof.
  revert cnt. induction ls as [|l0 ls IH]; intros cnt; simpl.
  - split; [discriminate|]. intros (j & l & _ & Hl & _). discriminate.
  - destruct (line_accepts match_tc media_key item l0) as [[|]|e] eqn:E; simpl.
    + split.
      * intros [= <-]. exists 0%nat, l0. repeat split; auto with lia.
      * intros (j & l & -> & Hl & Hacc & Hbefore).
        destruct j as [|j]; [f_equal; f_equal; lia|].
        specialize (Hbefore 0%nat l0 ltac:(lia) eq_refl). congruence.
    + rewrite IH. split.
      * intros (j & l & -> & Hl & Hacc & Hbefore).
        exists (S j), l. repeat split; auto with lia.
        intros [|j'] l' Hj Hl'; simpl in Hl'.
        -- injection Hl' as <-. exact E.
        -- apply (Hbefore j'); auto with lia.
      * intros (j & l & -> & Hl & Hacc & Hbefore).
        destruct j as [|j]; simpl in Hl.
        -- injection Hl as <-. congruence.
        -- exists j, l. repeat split; auto with lia.
           intros j' l' Hj Hl'. apply (Hbefore (S j')); auto with lia.
    + split; [discriminate|].
      intros (j & l & -> & Hl & Hacc & Hbefore).
      destruct j as [|j]; simpl in Hl.
      * injection Hl as <-. congruence.
      * specialize (Hbefore 0%nat l0 ltac:(lia) eq_refl). congruence.
Qed.

Lemma scan_lines_None media_key item ls cnt :
  scan_lines match_tc media_key item ls cnt = Ret None <->
  forall j l, ls !! j = Some l -> line_accepts match_tc media_key item l = Ret false.
Proof.
  revert cnt. induction ls as [|l0 ls IH]; intros cnt; simpl.
  - split; auto. intros _ j l Hl. discriminate.
  - destruct (line_accepts match_tc media_key item l0) as [[|]|e] eqn:E; simpl.
    + split; [discriminate|]. intros Hall.
      specialize (Hall 0%nat l0 eq_refl). congruence.
    + rewrite IH. split.
      * intros Hall [|j] l Hl; simpl in Hl.
        -- injection Hl as <-. exact E.
        -- eapply Hall; eauto.
      * intros Hall j l Hl. apply (Hall (S j)). exact Hl.
    + split; [discriminate|]. intros Hall.
      specialize (Hall 0%nat l0 eq_refl). congruence.
Qed.

(** *** The scan of all batches *)

Lemma line_at_cons_0 b csvs j : line_at (b :: csvs) 0 j = snd b !! j.
Proof. reflexivity. Qed.

Lemma line_at_cons_S b csvs i j : line_at (b :: csvs) (S i) j = line_at csvs i j.
Proof. reflexivity. Qed.

Lemma scan_csvs_None media_key item csvs i0 :
  scan_csvs match_tc media_key item csvs i0 = Ret None <->
  forall i j l, line_at csvs i j = Some l ->
    line_accepts match_tc media_key item l = Ret false.
Proof.
  revert i0. induction csvs as [|[name ls] csvs IH]; intros i0; simpl.
  - split; auto. intros _ i j l. unfold line_at. rewrite lookup_nil. discriminate.
  - destruct (scan_lines match_tc media_key item ls 0) as [[j0|]|e] eqn:E; simpl.
    + split; [discriminate|]. intros Hall.
      apply scan_lines_Some in E as (j & l & _ & Hl & Hacc & _).
      specialize (Hall 0%nat j l Hl). congruence.
    + rewrite IH. pose proof (proj1 (scan_lines_None _ _ _ _) E) as Hls. split.
      * intros Hall [|i] j l Hl.
        -- apply (Hls j). exact Hl.
        -- apply (Hall i j). exact Hl.
      * intros Hall i j l Hl. apply (Hall (S i) j). exact Hl.
    + split; [discriminate|]. intros Hall.
      assert (scan_lines match_tc media_key item ls 0 = Ret None) as Hn.
      { apply scan_lines_None. intros j l Hl. apply (Hall 0%nat j). exact Hl. }
      congruence.
Qed.

Lemma scan_csvs_Some media_key item csvs i0 i j name :
  scan_csvs match_tc media_key item csvs i0 = Ret (Some (i, j, name)) <->
  exists i1, i = (i0 + i1)%nat /\ (exists ls, csvs !! i1 = Some (name, ls))
    /\ first_accepted match_tc media_key item csvs i1 j.
Proof.
  revert i0. induction csvs as [|[name0 ls0] csvs IH]; intros i0; simpl.
  - split; [discriminate|]. intros (i1 & _ & (ls & Hls) & _).
    rewrite lookup_nil in Hls. discriminate.
  - destruct (scan_lines match_tc media_key item ls0 0) as [[j0|]|e] eqn:E; simpl.
    + pose proof (proj1 (scan_lines_Some _ _ _ _ _) E) as (j1 & l & Hj & Hl & Hacc & Hbefore).
      simpl in Hj. subst j1. split.
      * intros [= <- <- <-]. exists 0%nat. split; [lia|]. split; [eauto|].
        split; [exists l; auto|].
        intros i' j' l' [Hlt|[-> Hlt]] Hl'; [lia|].
        apply (Hbefore j'); auto.
      * intros (i1 & -> & (ls & Hls) & (l1 & Hl1 & Hacc1) & Hfirst).
        destruct i1 as [|i1].
        -- simpl in Hls. injection Hls as <- <-.
           rewrite line_at_cons_0 in Hl1. simpl in Hl1.
           assert (j = j0) as ->.
           { destruct (Nat.lt_trichotomy j j0) as [Hlt|[Heq|Hgt]]; auto.
             - specialize (Hbefore j l1 Hlt Hl1). congruence.
             - specialize (Hfirst 0%nat j0 l ltac:(lia) Hl). congruence. }
           repeat f_equal. lia.
        -- specialize (Hfirst 0%nat j0 l ltac:(lia) Hl). congruence.
    + pose proof (proj1 (scan_lines_None _ _ _ _) E) as Hls0.
      rewrite IH. split.
      * intros (i1 & -> & (ls & Hls) & (l1 & Hl1 & Hacc1) & Hfirst).
        exists (S i1). split; [lia|]. split; [eauto|].
        split; [exists l1; auto|].
        intros [|i'] j' l' Hlt Hl'.
        -- apply (Hls0 j'). exact Hl'.
        -- apply (Hfirst i' j'); auto. lia.
      * intros (i1 & -> & (ls & Hls) & (l1 & Hl1 & Hacc1) & Hfirst).
        destruct i1 as [|i1].
        -- rewrite line_at_cons_0 in Hl1. simpl in Hl1.
           specialize (Hls0 j l1 Hl1). congruence.
        -- exists i1. split; [lia|]. split; [eauto|].
           split; [exists l1; auto|].
           intros i' j' l' Hlt Hl'. apply (Hfirst (S i') j'); auto. lia.
    + split; [discriminate|].
      intros (i1 & -> & (ls & Hls) & (l1 & Hl1 & Hacc1) & Hfirst).
      destruct i1 as [|i1].
      * rewrite line_at_cons_0 in Hl1. simpl in Hl1.
        assert (scan_lines match_tc media_key item ls0 0 = Ret (Some j)) as Hs.
        { apply scan_lines_Some. exists j, l1. repeat split; auto.
          intros j' l' Hlt Hl'. apply (Hfirst 0%nat j'); auto. }
        congruence.
      * assert (scan_lines match_tc media_key item ls0 0 = Ret None) as Hn.
        { apply scan_lines_None. intros j' l' Hl'.
          apply (Hfirst 0%nat j'); auto. lia. }
        congruence.
Qed.





(** *** Well-formed lines never make a lookup raise *)


Lemma is_tc_matching_frames (a b c d : option Z) :
  is_tc_matching (frame a) (frame c) (frame b) (frame d)
  = Ret (match a, b, c, d with
         | Some x, Some y, Some u, Some v => (u <=? x)%Z && (y <=? v)%Z
         | _, _, _, _ => false
         end).
Proof.
  destruct a as [x|], c as [u|], b as [y|], d as [v|]; simpl; try reflexivity.
  unfold is_tc_matching, py_ge, py_le; simpl.
  destruct (u <=? x)%Z; reflexivity.
Qed.



(** *** The loop over the media *)

Lemma scan_csvs_same_strip media_key item csvs csvs0 :
  strip csvs = strip csvs0 ->
  scan_csvs match_tc media_key item csvs 0 = scan_csvs match_tc media_key item csvs0 0.
Proof.
  intros Hs. rewrite <- (scan_csvs_strip _ _ csvs), <- (scan_csvs_strip _ _ csvs0), Hs.
  reflexivity.
Qed.

Lemma match_media_scans todo : forall csvs0 csvs st,
  strip csvs = strip csvs0 ->
  match_media match_tc todo csvs = Ret st ->
  strip (st_csvs st) = strip csvs0
  /\ Forall2 (fun before after : string * media_dict =>
               fst after = fst before
               /\ exists found,
                    scan_csvs match_tc (fst before) (snd before) csvs0 0 = Ret found
                    /\ snd after = matched_to (snd before) found)
             todo (st_media st).
Proof.
  induction todo as [|[media_key item] rest IH]; intros csvs0 csvs st Hs Hm; simpl in Hm.
  - injection Hm as <-. simpl. split; [exact Hs | constructor].
  - inv_bind Hm. rewrite (scan_csvs_same_strip _ _ _ _ Hs) in Ha.
    destruct a as [[[i j] name]|].
    + inv_bind Hm. injection Hm as <-. simpl.
      apply (IH csvs0) in Ha0 as [Hs' Hall].
      * split; [exact Hs'|]. constructor; [|exact Hall].
        simpl. split; [reflexivity|]. eexists. split; [exact Ha | reflexivity].
      * rewrite strip_set_line. exact Hs.
    + inv_bind Hm. injection Hm as <-. simpl.
      apply (IH csvs0) in Ha0 as [Hs' Hall]; [|exact Hs].
      split; [exact Hs'|]. constructor; [|exact Hall].
      simpl. split; [reflexivity|]. eexists. split; [exact Ha | reflexivity].
Qed.


Lemma scan_first_fit media_key item csvs found :
  scan_csvs match_tc media_key item csvs 0 = Ret found ->
  match found with
  | Some (i, j, name) =>
      (exists ls, csvs !! i = Some (name, ls))
      /\ first_accepted match_tc media_key item csvs i j
  | None =>
      forall i j l, line_at csvs i j = Some l ->
        line_accepts match_tc media_key item l = Ret false
  end.
Proof.
  destruct found as [[[i j] name]|]; intros Hs.
  - apply scan_csvs_Some in Hs as (i1 & -> & Hls & Hfirst). simpl. auto.
  - exact (proj1 (scan_csvs_None _ _ _ _) Hs).
Qed.

Lemma match_media_first_fit todo csvs st :
  match_media match_tc todo csvs = Ret st ->
  strip (st_csvs st) = strip csvs
  /\ Forall2 (first_fit match_tc csvs) todo (st_media st).
Proof.
  intros Hm. apply (match_media_scans todo csvs) in Hm as [Hs Hall]; [|reflexivity].
  split; [exact Hs|].
  eapply Forall2_impl; [exact Hall|].
  intros before after (Hk & found & Hscan & Hafter).
  split; [exact Hk|]. exists found. split; [exact Hafter|].
  apply scan_first_fit. exact Hscan.
Qed.


Lemma csv_matching_inv media csvs st :
  csv_matching match_tc media csvs = Ret st ->
  match_media match_tc media csvs = Ret st.
Proof. destruct media, csvs; simpl; try discriminate; auto. Qed.

(** *** A line that is taken is not a skipped line *)

Lemma accepted_not_skipped media_key item l :
  line_accepts match_tc media_key item l = Ret true ->
  exists v, l !! "csv_skip_line" = Some v /\ truthy v = false.
Proof.
  unfold line_accepts, getitem.
  destruct (l !! "csv_skip_line") as [v|]; [|discriminate]. simpl.
  destruct (truthy v) eqn:Hv; [discriminate|]. intros _. eauto.
Qed.

Lemma strip_line_at csvs csvs' i j l :
  strip csvs = strip csvs' -> line_at csvs i j = Some l ->
  exists l', line_at csvs' i j = Some l' /\ strip_line l' = strip_line l.
Proof.
  unfold strip, line_at. revert csvs' i.
  induction csvs as [|[name ls] csvs IH]; intros [|[name' ls'] csvs'] i Hs;
    simpl in Hs; try discriminate.
  injection Hs as Hn Hls Hs. destruct i as [|i]; simpl.
  - clear IH Hs. revert ls' j Hls.
    induction ls as [|l0 ls IHl]; intros [|l0' ls'] j Hls; simpl in Hls;
      try discriminate.
    injection Hls as Hl0 Hls. destruct j as [|j]; simpl.
    + intros [= <-]. eauto.
    + apply IHl. exact Hls.
  - apply IH. exact Hs.
Qed.

End MatchingFacts.

(** ** The template engine gives a string or [None] *)

Section EngineFacts.
Context {rt : PyRuntime}.

Lemma regex_test_shape source tokens pattern repl v :
  regex_test source tokens pattern repl = Ret v ->
  v = PNone \/ exists s, v = PStr s.
Proof.
  unfold regex_test. intros H. inv_bind H.
  destruct (re_compile pattern) as [c|]; [|injection H as <-; eauto].
  destruct (negb (String.eqb repl "")).
  - destruct (re_sub c repl a); injection H as <-; eauto.
  - destruct (re_search c a) as [m|]; [|injection H as <-; eauto].
    destruct (m_group1 m); injection H as <-; eauto.
Qed.

Lemma nonempty_result_Some r s :
  nonempty_result r = Some s <-> r = PStr s /\ s <> "".
Proof.
  destruct r as [| b | z | x]; simpl; try (split; [discriminate | intros [[=] _]]).
  destruct (String.eqb_spec x ""); split.
  - discriminate.
  - intros [[= ->] Hne]. congruence.
  - intros [= ->]. auto.
  - intros [[= ->] _]. reflexivity.
Qed.

(** ** Filling a well-formed template *)

Lemma append_cons (c : ascii) (s t : string) :
  (String c s ++ t)%string = String c (s ++ t).
Proof. reflexivity. Qed.

Lemma append_nil_l (t : string) : (EmptyString ++ t)%string = t.
Proof. reflexivity. Qed.

Lemma append_nil_r (s : string) : (s ++ "")%string = s.
Proof. induction s as [|c s IH]; rewrite ?append_cons, ?append_nil_l; congruence. Qed.

Lemma append_snoc (s : string) (c : ascii) (t : string) :
  ((s ++ String c "") ++ t)%string = (s ++ String c t)%string.
Proof.
  induction s as [|c' s IH];
    repeat (rewrite append_cons || rewrite append_nil_l); congruence.
Qed.

Lemma format_scan_field tokens (name : string) : forall (acc rest : string),
  forallb name_char (list_ascii_of_string name) = true ->
  format_scan tokens (Some acc) (name ++ String "}" rest)
  = if String.eqb (acc ++ name) EmptyString || all_digits (acc ++ name)
    then Raise ValueError
    else do t <- format_scan tokens None rest;
         Ret (Default tokens (acc ++ name) ++ t)%string.
Proof.
  induction name as [|c name IH]; intros acc rest Hname;
    rewrite ?append_cons, ?append_nil_l; cbn.
  - rewrite append_nil_r. reflexivity.
  - cbn in Hname. apply andb_prop in Hname as [Hc Hname].
    unfold name_char in Hc. apply negb_true_iff in Hc.
    repeat (apply orb_false_elim in Hc as [Hc ?]).
    rewrite H, Hc, H0, H1, H2, H3. cbn.
    rewrite IH by exact Hname. rewrite append_snoc. reflexivity.
Qed.

Lemma format_scan_open tokens (c : ascii) (r : string) :
  Ascii.eqb c "{" = false ->
  format_scan tokens None (String "{" (String c r))
  = format_scan tokens (Some EmptyString) (String c r).
Proof. intros Hc. simpl. rewrite Hc. reflexivity. Qed.

Lemma format_scan_placeholder tokens (name rest : string) :
  plain_name name = true ->
  format_scan tokens None (String "{" name ++ String "}" rest)
  = do t <- format_scan tokens None rest; Ret (Default tokens name ++ t)%string.
Proof.
  unfold plain_name. intros Hp. apply andb_prop in Hp as [Hnum Hchars].
  destruct name as [|c name]; [discriminate|].
  assert (Ascii.eqb c "{" = false) as Hc.
  { simpl in Hchars. apply andb_prop in Hchars as [Hc _].
    unfold name_char in Hc. apply negb_true_iff in Hc.
    repeat (apply orb_false_elim in Hc as [Hc _]). exact Hc. }
  rewrite !append_cons, format_scan_open by exact Hc.
  rewrite <- append_cons, format_scan_field by exact Hchars.
  rewrite append_nil_l. apply negb_true_iff in Hnum. rewrite Hnum. reflexivity.
Qed.

Lemma format_map_plain tokens (ps : list piece) :
  forallb wf_piece ps = true ->
  format_map (source_of ps) tokens = Ret (filled_of tokens ps).
Proof.
  unfold format_map. induction ps as [|p ps IH]; [reflexivity|].
  intros Hwf. simpl in Hwf. apply andb_prop in Hwf as [Hp Hps]. specialize (IH Hps).
  destruct p as [c| | |name].
  - simpl in *. apply negb_true_iff, orb_false_elim in Hp as [H1 H2].
    rewrite H1, H2, IH. reflexivity.
  - simpl. rewrite IH. reflexivity.
  - simpl. rewrite IH. reflexivity.
  - simpl in Hp.
    change (source_of (Field name :: ps))
      with (String "{" name ++ String "}" (source_of ps))%string.
    rewrite format_scan_placeholder, IH by exact Hp.
    unfold Default. simpl. destruct (tokens !! name); [reflexivity|].
    f_equal. repeat (rewrite append_cons || rewrite append_nil_l).
    rewrite append_snoc. reflexivity.
Qed.

(** A brace that is not doubled and opens no field makes the call raise,
    whatever the runtime. *)
Lemma regex_test_lone_brace tokens pattern repl :
  regex_test (PStr "{") tokens pattern repl = Raise ValueError.
Proof. reflexivity. Qed.

(** ** The key derivation pass *)

Lemma prep_line_spec column csv_pattern csv_repl (l l' : pydict) :
  prep_line column csv_pattern csv_repl l = Ret l' ->
  l' !! "csv_skip_line" = l !! "csv_skip_line"
  /\ (exists key, l' !! "csv_key" = Some (PStr key))
  /\ skipped_has_no_key l'.
Proof.
  unfold prep_line, reset_key, getitem. rewrite lookup_insert_ne by discriminate.
  destruct (l !! "csv_skip_line") as [v|] eqn:Hv; [|discriminate]. simpl.
  destruct (truthy v) eqn:Ht.
  - intros [= <-]. rewrite lookup_insert_ne by discriminate.
    rewrite lookup_insert_eq. repeat split; eauto.
    intros w _ _. apply lookup_insert_eq.
  - intros H. inv_bind H.
    assert (forall key : string,
              <["csv_key" := PStr key]> (<["csv_key" := PStr ""]> l) !! "csv_skip_line"
              = Some v) as Hskip.
    { intros key. rewrite !lookup_insert_ne by discriminate. exact Hv. }
    destruct (nonempty_result a) as [key|]; injection H as <-.
    + rewrite Hskip, lookup_insert_eq. repeat split; eauto.
      intros w Hw Htw. rewrite Hskip in Hw. congruence.
    + rewrite lookup_insert_ne by discriminate. rewrite lookup_insert_eq.
      repeat split; eauto.
      intros w Hw Htw. rewrite lookup_insert_ne in Hw by discriminate. congruence.
Qed.

(** Running the pass again on its own result changes nothing. *)
Lemma prep_line_idempotent column csv_pattern csv_repl (l l' : pydict) :
  prep_line column csv_pattern csv_repl l = Ret l' ->
  column <> "csv_key" ->
  prep_line column csv_pattern csv_repl l' = Ret l'.
Proof.
  unfold prep_line, reset_key, getitem. rewrite lookup_insert_ne by discriminate.
  intros H Hcol.
  destruct (l !! "csv_skip_line") as [v|] eqn:Hv; [|discriminate]. simpl in H.
  destruct (truthy v) eqn:Ht.
  - injection H as <-. rewrite insert_insert_eq.
    rewrite lookup_insert_ne, Hv by discriminate. simpl. rewrite Ht. reflexivity.
  - inv_bind H.
    assert (dict_get (<["csv_key" := PStr ""]> l) column = dict_get l column) as Hget.
    { unfold dict_get. rewrite lookup_insert_ne by congruence. reflexivity. }
    rewrite Hget in Ha.
    destruct (nonempty_result a) as [key|] eqn:Hk; injection H as <-;
      rewrite ?insert_insert_eq, lookup_insert_ne, Hv by discriminate; simpl;
      rewrite Ht, Hget, Ha; simpl; rewrite Hk; rewrite ?insert_insert_eq; reflexivity.
Qed.

Lemma map_outcome_Forall2 {A B : Type} (f : A -> outcome B) (l : list A) (l' : list B) :
  map_outcome f l = Ret l' -> Forall2 (fun x y => f x = Ret y) l l'.
Proof.
  revert l'. induction l as [|x l IH]; intros l' H; simpl in H.
  - injection H as <-. constructor.
  - inv_bind H. inv_bind H. injection H as <-. constructor; auto.
Qed.

(** Every line that leaves [prep_matching] has a string key, empty when the
    line is skipped. *)
Lemma prep_matching_spec column csv_pattern csv_repl (csvs csvs' : batches) :
  prep_matching column csv_pattern csv_repl csvs = Ret csvs' ->
  map fst csvs' = map fst csvs
  /\ forall i j l, line_at csvs' i j = Some l ->
       (exists key, l !! "csv_key" = Some (PStr key)) /\ skipped_has_no_key l.
Proof.
  unfold prep_matching. intros H. apply map_outcome_Forall2 in H.
  rewrite Forall2_fmap_l in H. split.
  - induction H as [|b b' bs bs' Hb _ IH]; [reflexivity|].
    simpl in Hb. inv_bind Hb. injection Hb as <-. simpl. f_equal. exact IH.
  - intros i j l. unfold line_at.
    destruct (csvs' !! i) as [b'|] eqn:Hi; [|discriminate]. intros Hj.
    destruct (Forall2_lookup_r _ _ _ _ _ H Hi) as (b & _ & Hb).
    simpl in Hb. inv_bind Hb. injection Hb as <-. simpl in Hj.
    apply map_outcome_Forall2 in Ha.
    destruct (Forall2_lookup_r _ _ _ _ _ Ha Hj) as (l0 & _ & Hl).
    destruct (prep_line_spec _ _ _ _ _ Hl) as (_ & Hkey & Hinv). auto.
Qed.

Lemma mark_skip_no_key csv_match_skip (line_dict marked : pydict) :
  mark_skip csv_match_skip line_dict = Ret marked -> skipped_has_no_key marked.
Proof.
  unfold mark_skip. intros H. inv_bind H. injection H as <-.
  intros w _ _. rewrite lookup_insert_ne by discriminate. apply lookup_insert_eq.
Qed.

(** ** Skip filters *)

Lemma filter_step_spec (csv_line : pydict) (f : skip_filter) (n : nat) :
  returns (filter_result csv_line f) ->
  (filter_step csv_line f n = Ret (S n) /\ fires csv_line f)
  \/ (filter_step csv_line f n = Ret n /\ ~ fires csv_line f).
Proof.
  intros [r Hr]. unfold filter_step, fires. fold (filter_result csv_line f).
  rewrite Hr. simpl.
  destruct (regex_test_shape _ _ _ _ _ Hr) as [->|[x ->]]; simpl.
  - right. split; [reflexivity|]. intros (x & [=] & _).
  - destruct (String.eqb_spec x "") as [->|Hx]; simpl.
    + right. split; [reflexivity|]. intros (x & [= <-] & Hne & _). congruence.
    + destruct (filter_invert f) eqn:Hinv;
        destruct (String.eqb_spec (filter_equals f) "") as [He|He]; simpl;
        try (right; split; [reflexivity|]; intros (y & _ & _ & Hne & _); congruence);
        destruct (String.eqb_spec (filter_equals f) x) as [Hex|Hex]; simpl.
      * right. split; [reflexivity|]. intros (y & [= <-] & _ & _ & Hne). congruence.
      * left. split; [reflexivity|]. exists x. repeat split; auto.
      * left. split; [reflexivity|]. exists x. repeat split; auto.
      * right. split; [reflexivity|]. intros (y & [= <-] & _ & _ & Heq). congruence.
Qed.

Lemma count_filter_matches_spec (csv_line : pydict) (filters : list skip_filter) :
  (forall f, In f filters -> returns (filter_result csv_line f)) ->
  forall n, exists m, count_filter_matches csv_line filters n = Ret m
    /\ (n <= m)%nat
    /\ ((n < m)%nat <-> exists f, In f filters /\ fires csv_line f).
Proof.
  induction filters as [|f filters IH]; intros Hret n; simpl.
  - exists n. split; [reflexivity|]. split; [lia|].
    split; [lia | intros (f & [] & _)].
  - destruct (filter_step_spec csv_line f n (Hret f (or_introl eq_refl)))
      as [[-> Hf]|[-> Hf]]; simpl.
    + destruct (IH (fun g Hg => Hret g (or_intror Hg)) (S n)) as (m & -> & Hle & Hiff).
      exists m. split; [reflexivity|]. split; [lia|].
      split; [eauto | lia].
    + destruct (IH (fun g Hg => Hret g (or_intror Hg)) n) as (m & -> & Hle & Hiff).
      exists m. split; [reflexivity|]. split; [lia|].
      rewrite Hiff. split.
      * intros (g & Hg & Hfire). eauto.
      * intros (g & [<-|Hg] & Hfire); [tauto | eauto].
Qed.

End EngineFacts.

(** ** Media discovery *)

Section DiscoveryFacts.
Context {rt : PyRuntime}.
Variable parse_file_name : string -> tokenmap.
Variable get_metadata : string -> outcome pydict.
Variables (media_source media_pattern media_repl : string).

Local Abbreviation key_of := (media_key_of parse_file_name media_source media_pattern media_repl).
Local Abbreviation derives := (derives_key parse_file_name media_source media_pattern media_repl).
Local Abbreviation last_key :=
  (last_with_key parse_file_name get_metadata media_source media_pattern media_repl).
Local Abbreviation loop :=
  (find_media_loop parse_file_name get_metadata media_source media_pattern media_repl).

Lemma derives_key_fun f k1 k2 : derives f k1 -> derives f k2 -> k1 = k2.
Proof. intros (r1 & H1 & E1) (r2 & H2 & E2). congruence. Qed.

Lemma last_with_key_nil key item : ~ last_key [] key item.
Proof. intros (pre & post & meta & Heq & _). destruct pre; discriminate. Qed.

Lemma last_with_key_cons f rest key item :
  last_key (f :: rest) key item <->
  last_key rest key item
  \/ (file item = f /\ derives f key /\ (forall g, In g rest -> ~ derives g key)
      /\ exists meta, get_metadata f = Ret meta
           /\ item = {| file := f; metadata := meta; csv_line := None; csv_file := None |}).
Proof.
  split.
  - intros (pre & post & meta & Heq & Hd & Hpost & Hmeta & Hitem).
    destruct pre as [|f' pre]; simpl in Heq; injection Heq as -> ->.
    + right. repeat split; auto. exists meta. split; [exact Hmeta|].
      rewrite Hitem. reflexivity.
    + left. exists pre, post, meta. repeat split; auto.
  - intros [(pre & post & meta & -> & Hd & Hpost & Hmeta & Hitem)
           |(Hf & Hd & Hrest & meta & Hmeta & Hitem)].
    + exists (f :: pre), post, meta. repeat split; auto.
    + exists [], rest, meta. subst f. repeat split; auto.
Qed.

Lemma find_media_loop_spec media_files : forall media0 media,
  loop media_files media0 = Ret media ->
  NoDup (map fst media0) ->
  NoDup (map fst media)
  /\ forall key item,
       od_get media key = Some item <->
       last_key media_files key item
       \/ (od_get media0 key = Some item /\ forall f, In f media_files -> ~ derives f key).
Proof.
  induction media_files as [|f rest IH]; intros media0 media Hloop Hnd; simpl in Hloop.
  - injection Hloop as <-. split; [exact Hnd|]. intros key item. split.
    + intros Hg. right. split; [exact Hg|]. intros f [].
    + intros [Hl|[Hg _]]; [|exact Hg]. exfalso. eapply last_with_key_nil; eauto.
  - inv_bind Hloop. rename a into r. rename Ha into Hr.
    destruct (nonempty_result r) as [key0|] eqn:Hkey.
    + inv_bind Hloop. rename a into meta. rename Ha into Hmeta.
      assert (derives f key0) as Hd0 by (exists r; auto).
      apply IH in Hloop as [Hnd' Hspec]; [|apply od_set_NoDup; exact Hnd].
      split; [exact Hnd'|]. intros key item.
      rewrite Hspec, last_with_key_cons. split.
      * intros [Hl|[Hg Hrest]]; [left; left; exact Hl|].
        destruct (decide (key0 = key)) as [<-|Hne].
        -- rewrite od_get_set_eq in Hg. injection Hg as <-.
           left. right. simpl. repeat split; auto. eauto.
        -- rewrite od_get_set_ne in Hg by exact Hne.
           right. split; [exact Hg|]. intros g [<-|Hin]; [|auto].
           intros Hd. apply Hne. eapply derives_key_fun; eauto.
      * intros [[Hl|(Hf & Hd & Hrest & meta' & Hmeta' & Hitem)]|[Hg Hno]].
        -- left. exact Hl.
        -- right. assert (key = key0) as -> by (eapply derives_key_fun; eauto).
           rewrite od_get_set_eq. split; [|exact Hrest].
           rewrite Hitem. congruence.
        -- right. assert (key0 <> key) as Hne.
           { intros <-. apply (Hno f); [left; reflexivity | exact Hd0]. }
           rewrite od_get_set_ne by exact Hne.
           split; [exact Hg|]. intros g Hin. apply Hno. right. exact Hin.
    + assert (forall key, ~ derives f key) as Hnone.
      { intros key (r' & Hr' & Hk'). congruence. }
      apply IH in Hloop as [Hnd' Hspec]; [|exact Hnd].
      split; [exact Hnd'|]. intros key item.
      rewrite Hspec, last_with_key_cons. split.
      * intros [Hl|[Hg Hrest]]; [left; left; exact Hl|].
        right. split; [exact Hg|]. intros g [<-|Hin]; auto.
      * intros [[Hl|(Hf & Hd & _)]|[Hg Hno]].
        -- left. exact Hl.
        -- exfalso. eapply Hnone; eauto.
        -- right. split; [exact Hg|]. intros g Hin. apply Hno. right. exact Hin.
Qed.

Lemma find_media_loop_total media_files : forall media0,
  (forall f, In f media_files ->
     exists r, key_of f = Ret r
       /\ (nonempty_result r <> None -> returns (get_metadata f))) ->
  returns (loop media_files media0).
Proof.
  induction media_files as [|f rest IH]; intros media0 Hall; simpl.
  - eexists; reflexivity.
  - destruct (Hall f (or_introl eq_refl)) as (r & -> & Hmeta). simpl.
    destruct (nonempty_result r) as [key|].
    + destruct Hmeta as [meta ->]; [discriminate|]. simpl.
      apply IH. intros g Hg. apply Hall. right. exact Hg.
    + apply IH. intros g Hg. apply Hall. right. exact Hg.
Qed.

Lemma regex_test_no_compile source tokens pattern repl v :
  re_compile pattern = None ->
  regex_test source tokens pattern repl = Ret v -> v = PStr "".
Proof.
  intros Hc H. unfold regex_test in H. rewrite Hc in H.
  inv_bind H. congruence.
Qed.

Lemma no_key_without_pattern f key :
  re_compile media_pattern = None -> ~ derives f key.
Proof.
  intros Hc (r & Hr & Hk). unfold media_key_of in Hr.
  apply regex_test_no_compile in Hr; [|exact Hc]. subst r. discriminate.
Qed.

End DiscoveryFacts.

(** ** Sorting a bucket *)

Lemma ltb_negb_leb (x y : string) : String.ltb y x = negb (String.leb x y).
Proof.
  unfold String.ltb, String.leb. rewrite (String.compare_antisym x y).
  destruct (String.compare y x); reflexivity.
Qed.

Lemma key_leb_total (a b : option string) : key_leb a b = true \/ key_leb b a = true.
Proof.
  destruct a as [x|], b as [y|]; simpl; auto. apply String.leb_total.
Qed.

Lemma key_leb_trans (a b c : option string) :
  key_leb a b = true -> key_leb b c = true -> key_leb a c = true.
Proof.
  destruct a as [x|], b as [y|], c as [z|]; simpl; auto; try discriminate.
  intros H1 H2. apply Is_true_true.
  apply Is_true_true in H1, H2.
  exact (transitivity (R := String.le) H1 H2).
Qed.

Abbreviation has_sort := (fun r : one_rec => bool_decide (sort r <> None)).

Lemma has_sort_Some r : has_sort r = true -> exists x, sort r = Some x.
Proof.
  intros H. apply bool_decide_eq_true in H.
  destruct (sort r) as [x|]; [eauto | congruence].
Qed.

Lemma spec_insert_Forall (P : one_rec -> Prop) x l :
  P x -> Forall P l -> Forall P (spec_insert x l).
Proof.
  intros Hx Hl. induction Hl as [|y l Hy Hl IH]; simpl.
  - repeat constructor. exact Hx.
  - destruct (key_leb (sort x) (sort y)); repeat constructor; auto.
Qed.

Lemma spec_sort_Forall (P : one_rec -> Prop) l : Forall P l -> Forall P (spec_sort l).
Proof.
  intros Hl. induction Hl as [|x l Hx Hl IH]; simpl; [constructor|].
  apply spec_insert_Forall; auto.
Qed.

Lemma insert_sorted_spec x l :
  has_sort x = true -> forallb has_sort l = true ->
  insert_sorted x l = Ret (spec_insert x l).
Proof.
  intros Hx. induction l as [|y l IH]; simpl; [reflexivity|].
  intros Hl. apply andb_prop in Hl as [Hy Hl].
  unfold sort_lt. destruct (has_sort_Some x Hx) as [kx Ex].
  destruct (has_sort_Some y Hy) as [ky Ey]. rewrite Ex, Ey. simpl.
  rewrite ltb_negb_leb. destruct (String.leb kx ky); simpl; [reflexivity|].
  rewrite IH by exact Hl. reflexivity.
Qed.

Lemma sorted_by_sort_all l :
  forallb has_sort l = true -> sorted_by_sort l = Ret (spec_sort l).
Proof.
  induction l as [|x l IH]; simpl; [reflexivity|].
  intros Hl. apply andb_prop in Hl as [Hx Hl].
  rewrite IH by exact Hl. simpl. apply insert_sorted_spec; [exact Hx|].
  apply forallb_forall. intros y Hy.
  assert (Forall (fun r => has_sort r = true) (spec_sort l)) as Hall.
  { apply spec_sort_Forall. apply Forall_forall. intros z Hz.
    rewrite forallb_forall in Hl. apply Hl. apply list_elem_of_In. exact Hz. }
  rewrite Forall_forall in Hall. apply Hall. apply list_elem_of_In. exact Hy.
Qed.

Lemma sorted_by_sort_spec l :
  comparable l = true -> sorted_by_sort l = Ret (spec_sort l).
Proof.
  unfold comparable. intros H. apply orb_prop in H as [H|H].
  - destruct l as [|x [|y l]]; try reflexivity. discriminate.
  - apply sorted_by_sort_all. exact H.
Qed.

(** A bucket in which two batches meet and one has no sort key cannot be
    sorted. *)
Lemma insert_sorted_raises x l :
  l <> [] -> has_sort x = false -> insert_sorted x l = Raise TypeError.
Proof.
  destruct l as [|y l]; [congruence|]. intros _ Hx. simpl.
  unfold sort_lt. apply bool_decide_eq_false in Hx.
  destruct (sort x) as [kx|]; [exfalso; apply Hx; discriminate|].
  destruct (sort y); reflexivity.
Qed.

(** The specification's sort is a sort: a permutation, ascending, that keeps
    the order of the batches with the same sort key. *)
Lemma spec_insert_perm x l : Permutation (spec_insert x l) (x :: l).
Proof.
  induction l as [|y l IH]; simpl; [reflexivity|].
  destruct (key_leb (sort x) (sort y)); [reflexivity|].
  rewrite IH. apply perm_swap.
Qed.

Lemma spec_sort_perm l : Permutation (spec_sort l) l.
Proof.
  induction l as [|x l IH]; simpl; [reflexivity|].
  rewrite spec_insert_perm, IH. reflexivity.
Qed.

(** Python's [sorted] raises exactly when it has something to compare and a
    sort key is absent. *)
Lemma sorted_by_sort_raises l :
  comparable l = false -> sorted_by_sort l = Raise TypeError.
Proof.
  unfold comparable. induction l as [|x l IH]; [discriminate|].
  intros H. apply orb_false_elim in H as [Hlen Hall]. simpl in *.
  destruct l as [|y l]; [discriminate|]. clear Hlen.
  destruct (forallb has_sort (y :: l)) eqn:Hl.
  - rewrite andb_true_r in Hall.
    rewrite (sorted_by_sort_all (y :: l) Hl). cbn [bind].
    apply insert_sorted_raises; [|exact Hall].
    intros Hnil. apply (Permutation_nil_cons (l := l) (x := y)).
    rewrite <- Hnil. apply spec_sort_perm.
  - destruct l as [|z l].
    + simpl in Hl. rewrite andb_true_r in Hl. simpl.
      unfold sort_lt. apply bool_decide_eq_false in Hl.
      destruct (sort y); [exfalso; apply Hl; discriminate | reflexivity].
    + rewrite IH; reflexivity.
Qed.

Abbreviation key_le := (fun a b : one_rec => key_leb (sort a) (sort b) = true).

Lemma spec_insert_sorted x l :
  StronglySorted key_le l -> StronglySorted key_le (spec_insert x l).
Proof.
  induction 1 as [|y l Hs IH Hy]; simpl.
  - repeat constructor.
  - destruct (key_leb (sort x) (sort y)) eqn:E.
    + constructor; [constructor; assumption|].
      constructor; [exact E|].
      eapply Forall_impl; [exact Hy|]. intros z Hz. simpl in *.
      eapply key_leb_trans; eauto.
    + constructor; [exact IH|].
      assert (key_leb (sort y) (sort x) = true) as Hyx.
      { destruct (key_leb_total (sort x) (sort y)); congruence. }
      assert (Forall (key_le y) (x :: l)) as Hall by (constructor; assumption).
      eapply Permutation_Forall; [|exact Hall].
      symmetry. apply spec_insert_perm.
Qed.

Lemma spec_sort_sorted l : StronglySorted key_le (spec_sort l).
Proof.
  induction l as [|x l IH]; simpl; [constructor|].
  apply spec_insert_sorted. exact IH.
Qed.

Lemma spec_insert_stable (k : option string) x l :
  StronglySorted key_le l ->
  filter (fun r => sort r = k) (spec_insert x l)
  = filter (fun r => sort r = k) (x :: l).
Proof.
  induction 1 as [|y l Hs IH Hy]; simpl; [reflexivity|].
  destruct (key_leb (sort x) (sort y)) eqn:E; [reflexivity|].
  rewrite !filter_cons in *. rewrite IH.
  destruct (decide (sort x = k)) as [Hx|Hx]; [|reflexivity].
  destruct (decide (sort y = k)) as [Hy'|Hy']; [|reflexivity].
  exfalso. rewrite Hx, Hy' in E.
  destruct (key_leb_total k k); congruence.
Qed.

Lemma spec_sort_stable (k : option string) l :
  filter (fun r => sort r = k) (spec_sort l) = filter (fun r => sort r = k) l.
Proof.
  induction l as [|x l IH]; simpl; [reflexivity|].
  rewrite spec_insert_stable by apply spec_sort_sorted.
  rewrite !filter_cons, IH. reflexivity.
Qed.

(** ** The distinct elements of a list *)

Section DistinctFacts.
Context {A : Type} `{EqDecision A}.
Implicit Types (l : list A) (x y : A).

Lemma elem_of_distinct l x : x ∈ distinct l <-> x ∈ l.
Proof.
  induction l as [|y l IH]; simpl; [reflexivity|].
  rewrite !elem_of_cons, list_elem_of_filter, IH.
  destruct (decide (x = y)); intuition.
Qed.

Lemma NoDup_distinct l : NoDup (distinct l).
Proof.
  induction l as [|y l IH]; simpl; [constructor|].
  apply NoDup_cons. split.
  - rewrite list_elem_of_filter. intros [Hne _]. congruence.
  - apply NoDup_filter. exact IH.
Qed.

Lemma distinct_snoc l x :
  distinct (l ++ [x]) = if decide (x ∈ l) then distinct l else distinct l ++ [x].
Proof.
  induction l as [|y l IH]; simpl.
  - reflexivity.
  - rewrite IH. destruct (decide (x ∈ l)) as [Hin|Hnin].
    + rewrite decide_True by (apply elem_of_cons; auto). reflexivity.
    + rewrite filter_app. destruct (decide (x = y)) as [->|Hne].
      * rewrite decide_True by (apply elem_of_cons; auto).
        rewrite filter_cons_False by congruence.
        rewrite filter_nil, app_nil_r. reflexivity.
      * rewrite decide_False by (rewrite elem_of_cons; intuition).
        rewrite filter_cons_True by congruence. reflexivity.
Qed.

End DistinctFacts.

(** ** A dictionary laid out over a list of keys *)

Section KeyedFacts.
Context {K V : Type} `{EqDecision K}.
Implicit Types (keys : list K) (F : K -> V).

Lemma od_get_keyed keys F k :
  od_get (map (fun k' => (k', F k')) keys) k
  = if decide (k ∈ keys) then Some (F k) else None.
Proof.
  induction keys as [|k0 keys IH]; simpl.
  - reflexivity.
  - destruct (decide (k0 = k)) as [->|Hne].
    + rewrite decide_True by (apply elem_of_cons; auto). reflexivity.
    + rewrite IH. destruct (decide (k ∈ keys)).
      * rewrite decide_True by (apply elem_of_cons; auto). reflexivity.
      * rewrite decide_False by (rewrite elem_of_cons; intuition congruence).
        reflexivity.
Qed.

Lemma od_set_keyed keys F k v :
  NoDup keys -> k ∈ keys ->
  od_set (map (fun k' => (k', F k')) keys) k v
  = map (fun k' => (k', if decide (k' = k) then v else F k')) keys.
Proof.
  induction keys as [|k0 keys IH]; simpl; intros Hnd Hin.
  - apply elem_of_nil in Hin. contradiction.
  - apply NoDup_cons in Hnd as [Hk0 Hnd].
    destruct (decide (k0 = k)) as [->|Hne].
    + f_equal. apply map_ext_in. intros k' Hk'.
      rewrite decide_False; [reflexivity|].
      intros ->. apply Hk0. apply list_elem_of_In. exact Hk'.
    + f_equal. apply IH; [exact Hnd|].
      apply elem_of_cons in Hin as [->|Hin]; [congruence | exact Hin].
Qed.

End KeyedFacts.

(** ** Grouping: the buckets *)

Lemma bucket_of_snoc recs r k :
  bucket_of (recs ++ [r]) k
  = bucket_of recs k ++ (if decide (group r = k) then [r] else []).
Proof.
  unfold bucket_of. rewrite filter_app. reflexivity.
Qed.

Lemma bucket_of_absent recs k : k ∉ map group recs -> bucket_of recs k = [].
Proof.
  intros Hk. unfold bucket_of. induction recs as [|r recs IH]; [reflexivity|].
  simpl in Hk. rewrite elem_of_cons in Hk.
  rewrite filter_cons_False by (intros E; apply Hk; auto).
  apply IH. intros Hin. apply Hk. auto.
Qed.

Lemma bucket_of_present recs k : k ∈ map group recs -> bucket_of recs k <> [].
Proof.
  intros Hk. apply list_elem_of_In, in_map_iff in Hk as (r & Hr & Hin).
  intros Hnil. apply (filter_nil_not_elem_of (fun r => group r = k) recs r Hnil Hr).
  apply list_elem_of_In. exact Hin.
Qed.

Lemma last_only_snoc {A : Type} (l : list A) (x : A) : last_only (l ++ [x]) = [x].
Proof. unfold last_only. rewrite rev_unit. reflexivity. Qed.


Lemma last_only_sublist {A : Type} (l : list A) : last_only l `sublist_of` l.
Proof.
  induction l as [|x l _] using rev_ind; [reflexivity|].
  rewrite last_only_snoc. apply sublist_inserts_l. reflexivity.
Qed.

Lemma last_only_nonempty {A : Type} (l : list A) : l <> [] -> last_only l <> [].
Proof.
  induction l as [|x l _] using rev_ind; [congruence|].
  rewrite last_only_snoc. discriminate.
Qed.

Lemma built_bucket_snoc recs r k :
  built_bucket (recs ++ [r]) k
  = if decide (group r = k)
    then match k with
         | Some _ => built_bucket recs k ++ [r]
         | None => [r]
         end
    else built_bucket recs k.
Proof.
  unfold built_bucket. rewrite !bucket_of_snoc.
  destruct k as [g|].
  - destruct (decide (group r = Some g)); [reflexivity | apply app_nil_r].
  - destruct (decide (group r = None)).
    + apply last_only_snoc.
    + rewrite app_nil_r. reflexivity.
Qed.

(** The dictionary [sort_me] after the first loop. *)
Lemma sort_me_add_built recs r :
  sort_me_add (map (fun k => (k, built_bucket recs k)) (distinct (map group recs))) r
  = map (fun k => (k, built_bucket (recs ++ [r]) k)) (distinct (map group (recs ++ [r]))).
Proof.
  unfold sort_me_add.
  rewrite map_app. simpl. rewrite distinct_snoc, od_get_keyed.
  rewrite !(decide_ext (group r ∈ distinct (map group recs)) (group r ∈ map group recs))
    by apply elem_of_distinct.
  destruct (decide (group r ∈ map group recs)) as [Hin|Hnin].
  - assert (forall v,
              (match group r with
               | Some _ => built_bucket recs (group r) ++ [r]
               | None => [r]
               end) = v ->
              od_set (map (fun k => (k, built_bucket recs k)) (distinct (map group recs)))
                (group r) v
              = map (fun k => (k, built_bucket (recs ++ [r]) k))
                  (distinct (map group recs))) as Hset.
    { intros v <-.
      rewrite od_set_keyed; [|apply NoDup_distinct | apply elem_of_distinct; exact Hin].
      apply map_ext. intros k. f_equal. rewrite built_bucket_snoc.
      destruct (decide (k = group r)) as [->|Hne].
      - rewrite decide_True by reflexivity. reflexivity.
      - rewrite decide_False by congruence. reflexivity. }
    destruct (group r) as [g|] eqn:Hg; apply Hset; reflexivity.
  - assert (od_set (map (fun k => (k, built_bucket recs k)) (distinct (map group recs)))
              (group r) [r]
            = map (fun k => (k, built_bucket recs k)) (distinct (map group recs))
              ++ [(group r, [r])]) as Hset.
    { apply od_set_fresh. rewrite od_get_keyed.
      rewrite decide_False; [reflexivity|]. rewrite elem_of_distinct. exact Hnin. }
    assert (map (fun k => (k, built_bucket (recs ++ [r]) k))
              (distinct (map group recs) ++ [group r])
            = map (fun k => (k, built_bucket recs k)) (distinct (map group recs))
              ++ [(group r, [r])]) as Htarget.
    { rewrite map_app. simpl. f_equal.
      - apply map_ext_in. intros k Hk. f_equal. rewrite built_bucket_snoc.
        rewrite decide_False; [reflexivity|].
        intros E. apply Hnin. rewrite E. apply elem_of_distinct, list_elem_of_In. exact Hk.
      - rewrite built_bucket_snoc, decide_True by reflexivity.
        unfold built_bucket. rewrite (bucket_of_absent recs (group r) Hnin).
        destruct (group r); reflexivity. }
    rewrite Htarget. destruct (group r); exact Hset.
Qed.

Lemma fold_sort_me_add recs :
  fold_left sort_me_add recs []
  = map (fun k => (k, built_bucket recs k)) (distinct (map group recs)).
Proof.
  induction recs as [|r recs IH] using rev_ind; [reflexivity|].
  rewrite fold_left_app. simpl. rewrite IH. apply sort_me_add_built.
Qed.

(** A record without group key takes the place of the bucket of the records
    without group key. *)
Lemma sort_me_add_absent sort_me r :
  group r = None -> od_get (sort_me_add sort_me r) None = Some [r].
Proof.
  intros Hg. unfold sort_me_add. rewrite Hg. apply od_get_set_eq.
Qed.


Lemma build_sort_me_fold {rt : PyRuntime} {V : Type} (cc sc : regex)
  (csvs : list (string * V)) :
  build_sort_me cc sc csvs = fold_left sort_me_add (recs_of cc sc csvs) [].
Proof.
  unfold build_sort_me, recs_of. generalize (@nil (option string * list one_rec)).
  induction csvs as [|kv csvs IH]; intros acc; simpl; [reflexivity|].
  apply IH.
Qed.

Lemma concat_buckets_cons (r : one_rec) (F : option string -> list one_rec)
  (keys : list (option string)) :
  NoDup keys -> group r ∈ keys ->
  Permutation
    (concat (map (fun k => if decide (group r = k) then r :: F k else F k) keys))
    (r :: concat (map F keys)).
Proof.
  induction keys as [|k keys IH]; simpl; intros Hnd Hin.
  - apply elem_of_nil in Hin. contradiction.
  - apply NoDup_cons in Hnd as [Hk Hnd].
    destruct (decide (group r = k)) as [E|Hne].
    + simpl. constructor.
      assert (map (fun k' => if decide (group r = k') then r :: F k' else F k') keys
              = map F keys) as ->; [|reflexivity].
      apply map_ext_in. intros k' Hk'. rewrite decide_False; [reflexivity|].
      intros E'. apply Hk. rewrite <- E, E'. apply list_elem_of_In. exact Hk'.
    + apply elem_of_cons in Hin as [E|Hin]; [congruence|].
      rewrite IH by assumption. symmetry. apply Permutation_middle.
Qed.

Lemma concat_buckets_perm recs keys :
  NoDup keys -> (forall r, In r recs -> group r ∈ keys) ->
  Permutation (concat (map (bucket_of recs) keys)) recs.
Proof.
  intros Hnd. induction recs as [|r recs IH]; intros Hall.
  - assert (map (bucket_of []) keys = map (fun _ => []) keys) as -> by reflexivity.
    clear. induction keys; simpl; auto.
  - assert (map (bucket_of (r :: recs)) keys
            = map (fun k => if decide (group r = k)
                            then r :: bucket_of recs k else bucket_of recs k) keys) as ->.
    { apply map_ext. intros k. unfold bucket_of. rewrite filter_cons. reflexivity. }
    rewrite concat_buckets_cons; [|exact Hnd | apply Hall; left; reflexivity].
    constructor. apply IH. intros r' Hr'. apply Hall. right. exact Hr'.
Qed.

Lemma spec_buckets_perm recs : Permutation (concat (spec_buckets recs)) recs.
Proof.
  apply concat_buckets_perm; [apply NoDup_distinct|].
  intros r Hr. apply elem_of_distinct, list_elem_of_In, in_map. exact Hr.
Qed.

(** ** Grouping: what is kept *)


Lemma NoDup_rev_tail {A : Type} (l : list A) x rest :
  List.rev l = x :: rest -> l = List.rev rest ++ [x].
Proof.
  intros E. rewrite <- (rev_involutive l), E. reflexivity.
Qed.


Section KeepFacts.
Context {V : Type}.
Implicit Types (csvs grouped : list (string * V)).







End KeepFacts.

(** ** Grouping: the whole *)

Section GroupingFacts.
Context {rt : PyRuntime} {V : Type}.
Implicit Types (csvs : list (string * V)).

Lemma recs_of_paths (cc sc : regex) csvs :
  map csv_path (recs_of cc sc csvs) = map fst csvs.
Proof. unfold recs_of. rewrite map_map. reflexivity. Qed.

Lemma recs_of_present (cc sc : regex) csvs r :
  In r (recs_of cc sc csvs) -> od_get csvs (csv_path r) <> None.
Proof.
  intros Hr. apply (in_map csv_path) in Hr. rewrite recs_of_paths in Hr.
  intros Hn. apply od_get_None_notin in Hn. contradiction.
Qed.

Lemma entries_recs_of (cc sc : regex) csvs :
  NoDup (map fst csvs) -> entries csvs (recs_of cc sc csvs) = csvs.
Proof.
  intros Hnd. unfold entries, recs_of. rewrite flat_map_concat_map, map_map.
  assert (map (fun kv : string * V =>
                 match od_get csvs (csv_path (make_rec cc sc (fst kv))) with
                 | Some v => [(csv_path (make_rec cc sc (fst kv)), v)]
                 | None => []
                 end) csvs
          = map (fun kv => [kv]) csvs) as ->.
  { apply map_ext_in. intros [p v] Hin. simpl.
    rewrite (od_In_get csvs p v Hnd Hin). reflexivity. }
  clear Hnd. induction csvs; simpl; congruence.
Qed.

Lemma entries_perm csvs l1 l2 :
  Permutation l1 l2 -> Permutation (entries csvs l1) (entries csvs l2).
Proof. intros Hp. unfold entries. apply Permutation_flat_map. exact Hp. Qed.


Lemma built_bucket_sublist recs k : built_bucket recs k `sublist_of` bucket_of recs k.
Proof. destruct k; simpl; [reflexivity | apply last_only_sublist]. Qed.

Lemma built_buckets_nonempty recs bucket : In bucket (built_buckets recs) -> bucket <> [].
Proof.
  unfold built_buckets. intros Hb. apply in_map_iff in Hb as (k & <- & Hk).
  assert (bucket_of recs k <> []) as Hne.
  { apply bucket_of_present, elem_of_distinct, list_elem_of_In. exact Hk. }
  destruct k; simpl; [exact Hne | apply last_only_nonempty; exact Hne].
Qed.

Lemma built_buckets_sub recs bucket r :
  In bucket (built_buckets recs) -> In r bucket -> In r recs.
Proof.
  unfold built_buckets. intros Hb Hr.
  apply in_map_iff in Hb as (k & <- & Hk).
  apply list_elem_of_In in Hr.
  apply (sublist_subseteq _ _ (built_bucket_sublist recs k)) in Hr.
  unfold bucket_of in Hr. apply list_elem_of_filter in Hr as [_ Hr].
  apply list_elem_of_In. exact Hr.
Qed.





(** Without highest-only the specification's grouping loses no batch. *)
Lemma spec_group_all_perm (cc sc : regex) csvs :
  NoDup (map fst csvs) ->
  Permutation (spec_group_csvs false (recs_of cc sc csvs) csvs) csvs.
Proof.
  intros Hnd. unfold spec_group_csvs, kept.
  transitivity (entries csvs (recs_of cc sc csvs));
    [|rewrite entries_recs_of by exact Hnd; reflexivity].
  apply entries_perm. etransitivity; [|apply spec_buckets_perm].
  induction (spec_buckets (recs_of cc sc csvs)) as [|b buckets IH]; [reflexivity|].
  simpl. apply Permutation_app; [apply spec_sort_perm | exact IH].
Qed.

End GroupingFacts.

(** ** Timecodes *)



(** *** Printing and reading a field *)










(** *** Splitting at the colons *)

Lemma split_char_no_sep (sep : ascii) (s : string) :
  forallb (fun c => negb (Ascii.eqb c sep)) (list_ascii_of_string s) = true ->
  split_char sep s = [s].
Proof.
  induction s as [|c s IH]; simpl; [reflexivity|].
  intros H. apply andb_prop in H as [Hc Hs]. apply negb_true_iff in Hc.
  rewrite Hc, IH by exact Hs. reflexivity.
Qed.



(** *** The two conversions *)





(** ** The reel column *)

Lemma length_append (s t : string) :
  String.length (s ++ t) = (String.length s + String.length t)%nat.
Proof.
  induction s as [|c s IH]; [reflexivity|].
  rewrite append_cons. simpl. rewrite IH. reflexivity.
Qed.

Lemma length_spaces (n : Z) : String.length (spaces n) = Z.to_nat n.
Proof.
  unfold spaces. induction (Z.to_nat n) as [|k IH]; simpl; congruence.
Qed.

(** The label is padded up to [max_reel] characters and never cut: the
    column is as wide as the longer of the label and [max_reel], and one
    space follows it. *)
Lemma reel_column_width {rt : PyRuntime} (reel_source reel_pattern reel_repl : string)
  (max_reel : Z) (tokens : tokenmap) (v : pyval) :
  regex_test (PStr reel_source) tokens reel_pattern reel_repl = Ret v ->
  let label := match nonempty_result v with
               | Some r => r
               | None => "AX"
               end in
  reel_column reel_source reel_pattern reel_repl max_reel tokens
  = Ret ((label ++ spaces (max_reel - py_len label)) ++ " ")%string
  /\ py_len (label ++ spaces (max_reel - py_len label)) = Z.max (py_len label) max_reel.
Proof.
  intros Hv label. unfold reel_column. rewrite Hv. simpl. fold label.
  split; [reflexivity|].
  unfold py_len. rewrite length_append, length_spaces. lia.
Qed.

(** * The claims *)

(** ** Matching (C1, C2, C6) *)

(** C1.  With the temporal check enabled, a record whose key equals the key
    of the media item is accepted if and only if all four frame values are
    present, the record's source-in frame is not before the item's first
    frame and its source-out frame is not after the item's last frame; the
    decision never raises on such a record.  (A media key is never empty and
    a skipped record has the empty key, so a record with the item's key is
    not a skipped one.) *)
Theorem tc_check_accepts_iff_contained
  (media_key : string) (item : media_dict) (one_line : pydict) (skip : bool)
  (csv_in csv_out media_in media_out : option Z) :
  media_key <> "" ->
  skipped_has_no_key one_line ->
  one_line !! "csv_skip_line" = Some (PBool skip) ->
  one_line !! "csv_key" = Some (PStr media_key) ->
  one_line !! "csv_sin_frames" = Some (frame csv_in) ->
  one_line !! "csv_sout_frames" = Some (frame csv_out) ->
  metadata item !! "tc_in_frames" = Some (frame media_in) ->
  metadata item !! "tc_out_frames" = Some (frame media_out) ->
  returns (line_accepts true media_key item one_line)
  /\ (line_accepts true media_key item one_line = Ret true
      <-> contained csv_in csv_out media_in media_out).
Proof.
  intros Hne Hinv Hskip Hkey Hsin Hsout Hin Hout.
  assert (skip = false) as ->.
  { destruct skip; [|reflexivity].
    specialize (Hinv (PBool true) Hskip eq_refl). congruence. }
  assert (line_accepts true media_key item one_line
          = is_tc_matching (frame csv_in) (frame media_in) (frame csv_out) (frame media_out))
    as ->.
  { unfold line_accepts, getitem.
    rewrite Hskip, Hkey, Hsin, Hsout, Hin, Hout. simpl.
    rewrite String.eqb_refl. reflexivity. }
  rewrite is_tc_matching_frames. split; [eexists; reflexivity|].
  unfold contained. split.
  - destruct csv_in as [a|], csv_out as [b|], media_in as [c|], media_out as [d|];
      try discriminate.
    intros [= H]. apply andb_prop in H as [H1 H2].
    apply Z.leb_le in H1, H2. exists a, b, c, d. repeat split; auto; lia.
  - intros (a & b & c & d & -> & -> & -> & -> & H1 & H2).
    f_equal. apply andb_true_intro. split; apply Z.leb_le; lia.
Qed.

(** The record with source range [10,20] is accepted against the decoded
    range [5,25] and rejected against [12,18]. *)
Lemma tc_check_accepts_iff_contained_witness :
  line_accepts true "shot" (ex_item "/media/a.mov" (Some 5) (Some 25))
    (ex_line "shot" false (Some 10) (Some 20)) = Ret true
  /\ line_accepts true "shot" (ex_item "/media/b.mov" (Some 12) (Some 18))
       (ex_line "shot" false (Some 10) (Some 20)) = Ret false.
Proof.
  assert (skipped_has_no_key (ex_line "shot" false (Some 10) (Some 20))) as Hinv.
  { intros v Hv Ht. vm_compute in Hv. injection Hv as <-. discriminate Ht. }
  split.
  - apply (tc_check_accepts_iff_contained "shot" _ _ false
             (Some 10) (Some 20) (Some 5) (Some 25));
      try reflexivity; [discriminate | exact Hinv |].
    exists 10, 20, 5, 25. repeat split; lia.
  - destruct (tc_check_accepts_iff_contained "shot"
                (ex_item "/media/b.mov" (Some 12) (Some 18))
                (ex_line "shot" false (Some 10) (Some 20)) false
                (Some 10) (Some 20) (Some 12) (Some 18)
                ltac:(discriminate) Hinv
                eq_refl eq_refl eq_refl eq_refl eq_refl eq_refl)
      as [[accepted Hret] Hiff].
    destruct accepted; [|exact Hret].
    apply Hiff in Hret. destruct Hret as (a & b & c & d & Ha & Hb & Hc & Hd & H1 & H2).
    injection Ha as <-. injection Hc as <-. lia.
Defined.



(** The run of the witness: the first two lines with the key of the media
    file are passed over (skipped, out of range), the third is taken and the
    two behind it are not looked at; the other file stays unmatched. *)
Example csv_matching_run :
  exists st, csv_matching true ex_media ex_csvs = Ret st
    /\ map (fun kv => (fst kv, csv_line (snd kv), csv_file (snd kv))) (st_media st)
       = [ ("shot", Some (0, 2)%nat, Some "/edit/one.csv"); ("other", None, None) ]
    /\ media_not_matched st = ["/media/other.mov"]
    /\ (forall i j, (exists l, line_at (st_csvs st) i j = Some l
                        /\ l !! "csv_matched_media" = Some (PStr "/media/shot.mov"))
                   <-> (i = 0 /\ j = 2)%nat).
Proof.
  pose (holds := fun l : pydict =>
          match l !! "csv_matched_media" with
          | Some (PStr s) => String.eqb s "/media/shot.mov"
          | _ => false
          end).
  assert (forall l, l !! "csv_matched_media" = Some (PStr "/media/shot.mov")
                    <-> holds l = true) as Hholds.
  { intros l. unfold holds. split.
    - intros ->. reflexivity.
    - destruct (l !! "csv_matched_media") as [[| | |s]|]; try discriminate.
      intros H. apply String.eqb_eq in H. subst s. reflexivity. }
  assert ((do st <- csv_matching true ex_media ex_csvs;
           Ret (bool_decide
                  (map (fun kv => (fst kv, csv_line (snd kv), csv_file (snd kv))) (st_media st)
                   = [ ("shot", Some (0, 2)%nat, Some "/edit/one.csv"); ("other", None, None) ])
                && bool_decide (media_not_matched st = ["/media/other.mov"])
                && bool_decide (map (fun b => map holds (snd b)) (st_csvs st)
                                = [ [false; false; true; false]; [false] ])))
          = Ret true) as H by (vm_compute; reflexivity).
  destruct (bind_Ret_inv _ _ _ H) as (st & Hst & Htest).
  injection Htest as Htest.
  apply andb_prop in Htest as [Htest Hcsvs]. apply andb_prop in Htest as [Hmedia Hnot].
  apply bool_decide_eq_true in Hmedia, Hnot, Hcsvs.
  exists st. split; [exact Hst|]. split; [exact Hmedia|]. split; [exact Hnot|].
  clearbody holds. clear H Hst Hmedia Hnot.
  destruct (st_csvs st) as [|[n1 b1] [|[n2 b2] [|]]]; try discriminate.
  simpl in Hcsvs. injection Hcsvs as Hb1 Hb2.
  destruct b1 as [|l1 [|l2 [|l3 [|l4 [|]]]]]; try discriminate.
  destruct b2 as [|l5 [|]]; try discriminate.
  injection Hb1 as H1 H2 H3 H4. injection Hb2 as H5.
  intros i j. split.
  - intros (l & Hl & Hm). apply Hholds in Hm.
    destruct i as [|[|i]]; [destruct j as [|[|[|[|j]]]] | destruct j as [|j] |];
      try discriminate; try (injection Hl as <-; congruence); auto.
  - intros [-> ->]. exists l3. split; [reflexivity|]. apply Hholds. exact H3.
Qed.

(** C6.  A skipped record is never selected: after [csv_matching], whatever
    the temporal-check setting, every line an item was matched to is a line
    whose [csv_skip_line] is false, also when its key equals the item's. *)
Theorem skipped_never_selected (match_tc : bool)
  (media : list (string * media_dict)) (csvs : batches) (st : match_state) :
  csv_matching match_tc media csvs = Ret st ->
  (forall k item, In (k, item) media -> csv_line item = None) ->
  forall k item i j, In (k, item) (st_media st) -> csv_line item = Some (i, j) ->
    exists l v, line_at (st_csvs st) i j = Some l
      /\ l !! "csv_skip_line" = Some v /\ truthy v = false.
Proof.
  intros Hm Hfresh k item i j Hin Hline.
  apply csv_matching_inv in Hm.
  apply match_media_first_fit in Hm as [Hs Hall].
  apply list_elem_of_In in Hin.
  assert (exists before, In before media /\ first_fit match_tc csvs before (k, item))
    as (before & Hbefore & Hfit).
  { clear -Hall Hin. induction Hall as [|b a bs as_ Hba Hrest IH].
    - inversion Hin.
    - apply elem_of_cons in Hin as [->|Hin].
      + exists b. split; [left; reflexivity | exact Hba].
      + destruct (IH Hin) as (b' & Hb' & Hfit). exists b'. split; [right|]; auto. }
  destruct before as [k0 item0]. destruct Hfit as (_ & found & Hafter & Hfound).
  simpl in *. subst item.
  destruct found as [[[i0 j0] name]|]; simpl in Hline.
  - injection Hline as -> ->.
    destruct Hfound as (_ & (l & Hl & Hacc) & _).
    apply accepted_not_skipped in Hacc as (v & Hv & Htruth).
    destruct (strip_line_at csvs (st_csvs st) i j l) as (l' & Hl' & Hstrip); auto.
    exists l', v. repeat split; auto.
    assert (strip_line l' !! "csv_skip_line" = strip_line l !! "csv_skip_line") as Heq
      by (rewrite Hstrip; reflexivity).
    unfold strip_line in Heq. rewrite !lookup_delete_ne in Heq by discriminate.
    congruence.
  - rewrite (Hfresh k0 item0 Hbefore) in Hline. discriminate.
Qed.

Lemma skipped_never_selected_witness :
  exists st, csv_matching true ex_media ex_csvs = Ret st
    /\ forall k item i j, In (k, item) (st_media st) -> csv_line item = Some (i, j) ->
         exists l v, line_at (st_csvs st) i j = Some l
           /\ l !! "csv_skip_line" = Some v /\ truthy v = false.
Proof.
  assert ((do st <- csv_matching true ex_media ex_csvs; Ret true) = Ret true) as H
    by (vm_compute; reflexivity).
  destruct (bind_Ret_inv _ _ _ H) as (st & Hst & _).
  exists st. split; [exact Hst|].
  apply (skipped_never_selected true ex_media ex_csvs st Hst).
  intros k item [H'|[H'|[]]]; injection H' as <- <-; reflexivity.
Defined.

(** ** Skip filters (C5) *)

(** C5, as the program has it.  When no filter makes the template engine
    raise, a record is marked [skip=true] if and only if at least one filter
    fires, and a filter fires exactly when its template result over the
    record's column value (empty token map) is not empty, its target is not
    empty either, and the result equals the target, or differs from it for
    an inverted filter.  A filter whose result is empty never contributes,
    and neither does a filter whose target is empty. *)
Theorem skip_iff_some_filter_fires {rt : PyRuntime}
  (csv_match_skip : list skip_filter) (line_dict : pydict) :
  let csv_line := <["csv_key" := PStr ""]> line_dict in
  (forall f, In f csv_match_skip -> returns (filter_result csv_line f)) ->
  exists skip,
    mark_skip csv_match_skip line_dict = Ret (<["csv_skip_line" := PBool skip]> csv_line)
    /\ is_match_skip csv_match_skip csv_line = Ret skip
    /\ (skip = true <-> exists f, In f csv_match_skip /\ fires csv_line f).
Proof.
  intros csv_line Hret.
  destruct (count_filter_matches_spec csv_line csv_match_skip Hret 0%nat)
    as (m & Hm & _ & Hiff).
  exists (0 <? m)%nat. unfold mark_skip, is_match_skip. fold csv_line.
  rewrite Hm. simpl. split; [reflexivity|]. split; [reflexivity|].
  rewrite <- Hiff. apply Nat.ltb_lt.
Qed.

Lemma skip_iff_some_filter_fires_witness :
  exists skip,
    mark_skip (rt := mini_runtime) ex_filters (ex_row "A001" "A1")
    = Ret (<["csv_skip_line" := PBool skip]> (<["csv_key" := PStr ""]> (ex_row "A001" "A1")))
    /\ is_match_skip (rt := mini_runtime) ex_filters
         (<["csv_key" := PStr ""]> (ex_row "A001" "A1")) = Ret skip
    /\ (skip = true <->
        exists f, In f ex_filters
          /\ fires (rt := mini_runtime) (<["csv_key" := PStr ""]> (ex_row "A001" "A1")) f).
Proof.
  apply (skip_iff_some_filter_fires (rt := mini_runtime) ex_filters (ex_row "A001" "A1")).
  intros f [<-|[<-|[]]]; eexists; vm_compute; reflexivity.
Defined.

(** The claim as stated fails on an inverted filter with an empty target:
    its result ["A001"] is not empty and differs from the target, so the
    filter fires in the words of the claim, and the record is not skipped. *)
Lemma skip_filter_counterexample :
  (exists f, In f [ex_filter_inverted]
     /\ fires_as_stated (rt := mini_runtime)
          (<["csv_key" := PStr ""]> (ex_row "A001" "V1")) f)
  /\ is_match_skip (rt := mini_runtime) [ex_filter_inverted]
       (<["csv_key" := PStr ""]> (ex_row "A001" "V1")) = Ret false.
Proof.
  split.
  - exists ex_filter_inverted. split; [left; reflexivity|].
    exists "A001". split; [vm_compute; reflexivity|]. split; discriminate.
  - vm_compute. reflexivity.
Qed.

(** ** The template engine (C7) *)

(** C7, as the program has it.  On a well-formed template (literal text,
    doubled braces, placeholders with plain names) the engine never raises:
    each placeholder is filled from the token map and a placeholder without
    a token stays as it is written; the result is the empty string when the
    pattern does not compile; and without a replacement the result is group
    1 of the first match in the filled template ([None] when the group took
    no part in the match), or the empty string when there is no match or the
    pattern has no group 1. *)
Theorem template_engine_on_wellformed {rt : PyRuntime}
  (ps : list piece) (tokens : tokenmap) (pattern : string) :
  forallb wf_piece ps = true ->
  format_map (source_of ps) tokens = Ret (filled_of tokens ps)
  /\ (forall repl, re_compile pattern = None ->
        regex_test (PStr (source_of ps)) tokens pattern repl = Ret (PStr ""))
  /\ (forall compiled, re_compile pattern = Some compiled ->
        regex_test (PStr (source_of ps)) tokens pattern ""
        = Ret (match re_search compiled (filled_of tokens ps) with
               | Some m =>
                   match m_group1 m with
                   | GText g => PStr g
                   | GUnmatched => PNone
                   | GNoSuchGroup => PStr ""
                   end
               | None => PStr ""
               end)).
Proof.
  intros Hwf. pose proof (format_map_plain tokens ps Hwf) as Hfill.
  split; [exact Hfill|]. split.
  - intros repl Hc. unfold regex_test. rewrite Hfill, Hc. reflexivity.
  - intros compiled Hc. unfold regex_test. rewrite Hfill, Hc. simpl.
    destruct (re_search compiled (filled_of tokens ps)) as [m|]; [|reflexivity].
    destruct (m_group1 m); reflexivity.
Qed.

Lemma template_engine_on_wellformed_witness :
  format_map (rt := mini_runtime) (source_of ex_template) ex_tokens
  = Ret "A001C003_{take} {v1}"
  /\ regex_test (rt := mini_runtime) (PStr (source_of ex_template)) ex_tokens "(" ""
     = Ret (PStr "")
  /\ regex_test (rt := mini_runtime) (PStr (source_of ex_template)) ex_tokens "^(\w+)_" ""
     = Ret (PStr "A001C003")
  /\ regex_test (rt := mini_runtime) (PStr (source_of ex_template)) ex_tokens "\d+" ""
     = Ret (PStr "")
  /\ regex_test (rt := mini_runtime) (PStr (source_of ex_template)) ex_tokens "(x)?A" ""
     = Ret PNone.
Proof.
  destruct (template_engine_on_wellformed (rt := mini_runtime) ex_template ex_tokens "("
              eq_refl) as (Hfill & Hbad & _).
  destruct (template_engine_on_wellformed (rt := mini_runtime) ex_template ex_tokens "^(\w+)_"
              eq_refl) as (_ & _ & Hgroup).
  destruct (template_engine_on_wellformed (rt := mini_runtime) ex_template ex_tokens "\d+"
              eq_refl) as (_ & _ & Hnogroup).
  destruct (template_engine_on_wellformed (rt := mini_runtime) ex_template ex_tokens "(x)?A"
              eq_refl) as (_ & _ & Hunmatched).
  split; [rewrite Hfill; reflexivity|].
  split; [apply Hbad; reflexivity|].
  split; [erewrite Hgroup by (vm_compute; reflexivity); vm_compute; reflexivity|].
  split; [erewrite Hnogroup by (vm_compute; reflexivity); vm_compute; reflexivity|].
  erewrite Hunmatched by (vm_compute; reflexivity). vm_compute. reflexivity.
Defined.

(** The claim as stated fails on a template with a lone brace: filling it
    raises, whatever the pattern. *)
Lemma template_engine_counterexample :
  regex_test (rt := mini_runtime) (PStr "{") ∅ "(.*)" "" = Raise ValueError
  /\ regex_test (rt := mini_runtime) (PStr "take}1") ∅ "(" "" = Raise ValueError.
Proof. split; reflexivity. Qed.

(** ** Media discovery (C10) *)

(** C10.  The collection built by [find_media] is keyed by the derived key:
    no key occurs twice, every item stands for the last discovered file that
    yields its key (an earlier file with the same key is replaced), and a
    file whose derived key is empty has no item. *)
Theorem find_media_keyed_by_last_file {rt : PyRuntime}
  (parse_file_name : string -> tokenmap) (get_metadata : string -> outcome pydict)
  (media_source media_pattern media_repl : string) (media_files : list string) :
  media_files <> [] ->
  (forall f, In f media_files ->
     exists r, media_key_of parse_file_name media_source media_pattern media_repl f = Ret r
       /\ (nonempty_result r <> None -> returns (get_metadata f))) ->
  exists media,
    find_media parse_file_name get_metadata media_source media_pattern media_repl media_files
    = Ret media
    /\ NoDup (map fst media)
    /\ (forall key item,
          In (key, item) media <->
          last_with_key parse_file_name get_metadata media_source media_pattern media_repl
            media_files key item)
    /\ (forall key item, In (key, item) media -> key <> "").
Proof.
  intros Hne Hall.
  assert (forall media,
            NoDup (map fst media) ->
            (forall key item,
               od_get media key = Some item <->
               last_with_key parse_file_name get_metadata media_source media_pattern
                 media_repl media_files key item) ->
            NoDup (map fst media)
            /\ (forall key item,
                  In (key, item) media <->
                  last_with_key parse_file_name get_metadata media_source media_pattern
                    media_repl media_files key item)
            /\ (forall key item, In (key, item) media -> key <> "")) as Hwrap.
  { intros media Hnd Hspec.
    assert (forall key item, In (key, item) media <-> od_get media key = Some item) as Hin.
    { intros key item. split; [apply od_In_get; exact Hnd | apply od_get_In]. }
    split; [exact Hnd|]. split.
    - intros key item. rewrite Hin. apply Hspec.
    - intros key item Hi. apply Hin, Hspec in Hi.
      destruct Hi as (_ & _ & _ & _ & (r & _ & Hk) & _).
      apply nonempty_result_Some in Hk as [_ Hk]. exact Hk. }
  unfold find_media. destruct media_files as [|f0 rest]; [congruence|].
  destruct (re_compile media_pattern) as [c|] eqn:Hc.
  - destruct (find_media_loop_total parse_file_name get_metadata media_source
                media_pattern media_repl (f0 :: rest) [] Hall) as [media Hloop].
    exists media. split; [exact Hloop|].
    apply find_media_loop_spec in Hloop as [Hnd Hspec]; [|constructor].
    apply Hwrap; [exact Hnd|].
    intros key item. rewrite Hspec. split; [|auto].
    intros [Hl|[Hg _]]; [exact Hl | discriminate].
  - exists []. split; [reflexivity|]. apply Hwrap; [constructor|].
    intros key item. split; [discriminate|].
    intros (_ & _ & _ & _ & Hd & _). exfalso.
    eapply no_key_without_pattern; eauto.
Qed.

Lemma find_media_keyed_by_last_file_witness :
  exists media,
    find_media (rt := mini_runtime) ex_parse_file_name ex_get_metadata
      "{name}" "^(\w+)\.m" "" ex_media_files = Ret media
    /\ NoDup (map fst media)
    /\ (forall key item,
          In (key, item) media <->
          last_with_key (rt := mini_runtime) ex_parse_file_name ex_get_metadata
            "{name}" "^(\w+)\.m" "" ex_media_files key item)
    /\ (forall key item, In (key, item) media -> key <> "").
Proof.
  apply (find_media_keyed_by_last_file (rt := mini_runtime)).
  - discriminate.
  - intros f [<-|[<-|[<-|[<-|[]]]]]; eexists; (split; [vm_compute; reflexivity|]);
      intros _; eexists; reflexivity.
Defined.

(** The run of the witness: the two files with key ["A001"] leave one item,
    for the later file, at the place of the key's first appearance; the text
    file, whose key is empty, leaves none. *)
Example find_media_run :
  find_media (rt := mini_runtime) ex_parse_file_name ex_get_metadata
    "{name}" "^(\w+)\.m" "" ex_media_files
  = Ret [ ("A001", {| file := "/media/A001.mxf"; metadata := ∅;
                      csv_line := None; csv_file := None |});
          ("B002", {| file := "/media/B002.mov"; metadata := ∅;
                      csv_line := None; csv_file := None |}) ].
Proof. vm_compute. reflexivity. Qed.

(** ** Batch grouping (C8, C4) *)



(** C4, at the failing input.  Neither file name matches the group pattern,
    highest-only is off, and only the second batch comes out of grouping:
    the bucket of the batches without a group key is started afresh by each
    of them. *)
Lemma ungrouped_batches_replace_each_other :
  _group_csvs (rt := mini_runtime) ex_common ex_sort false ex_ungrouped
  = Ret [ ("/edit/tuesday.csv", "rows of tuesday") ].
Proof. vm_compute. reflexivity. Qed.

(** ** Timecodes (C3) *)



Example frames_to_tc_run : frames_to_tc 107892 (2997 # 100) = Ret "00:59:56:12".
Proof. vm_compute. reflexivity. Qed.


(** ** The reel column (C9) *)

(** C9, at the failing input.  With a maximum reel width of 8, a label of
    ten characters is written in full, followed by the separating space:
    nothing cuts it down to the width. *)
Lemma reel_label_not_truncated :
  reel_column (rt := mini_runtime) "{reel}" "(.*)" "" 8 {[ "reel" := "ABCDEFGHIJ" ]}
  = Ret "ABCDEFGHIJ ".
Proof. vm_compute. reflexivity. Qed.

(** A short label is padded to the width, and an empty one becomes AX. *)
Example reel_label_padded :
  reel_column (rt := mini_runtime) "{reel}" "(.*)" "" 8 {[ "reel" := "A001" ]}
  = Ret "A001     "
  /\ reel_column (rt := mini_runtime) "{reel}" "(\d+)" "" 8 {[ "reel" := "none" ]}
     = Ret "AX       ".
Proof. split; vm_compute; reflexivity. Qed.

(** * Further properties of the program *)

(** ** Timecodes *)








(** *** Fields that are integer literals *)








(** ** The template engine *)


Lemma regex_test_returns_str {rt : PyRuntime}
  (source : pyval) (tokens : tokenmap) (pattern repl : string) :
  returns (regex_test source tokens pattern repl) -> exists s, source = PStr s.
Proof.
  intros [v Hv]. destruct source as [| b | z | s]; try discriminate. eauto.
Qed.

(** ** Skip filters *)

Lemma count_filter_matches_returns {rt : PyRuntime} (csv_line : pydict)
  (filters : list skip_filter) : forall n,
  returns (count_filter_matches csv_line filters n) ->
  forall f, In f filters -> returns (filter_result csv_line f).
Proof.
  induction filters as [|f0 filters IH]; intros n Hret f Hin; [destruct Hin|].
  destruct Hret as [m Hm]. simpl in Hm. inv_bind Hm.
  destruct Hin as [<-|Hin].
  - unfold filter_step in Ha. inv_bind Ha. eexists. exact Ha0.
  - apply (IH a); [eexists; exact Hm|exact Hin].
Qed.

(** X6.  The skip test returns only on a row that holds a string in the column of
    every filter: a filter on a column that the row lacks, or that holds
    [None], makes it raise. *)
Theorem is_match_skip_needs_string_columns {rt : PyRuntime}
  (csv_match_skip : list skip_filter) (csv_line : pydict) :
  returns (is_match_skip csv_match_skip csv_line) ->
  forall f, In f csv_match_skip -> exists s, csv_line !! filter_column f = Some (PStr s).
Proof.
  intros [b Hb] f Hin. unfold is_match_skip in Hb. inv_bind Hb.
  assert (returns (filter_result csv_line f)) as Hr.
  { apply (count_filter_matches_returns csv_line csv_match_skip 0%nat);
      [eexists; exact Ha|exact Hin]. }
  apply regex_test_returns_str in Hr as [s Hs].
  exists s. unfold dict_get in Hs.
  destruct (csv_line !! filter_column f) as [v|]; [congruence|discriminate].
Qed.

(** The two filters of the example on a row with a reel and a track. *)
Lemma is_match_skip_needs_string_columns_witness :
  is_match_skip (rt := mini_runtime) ex_filters (ex_row "A001" "V1") = Ret false
  /\ forall f, In f ex_filters ->
       exists s, ex_row "A001" "V1" !! filter_column f = Some (PStr s).
Proof.
  split; [vm_compute; reflexivity|].
  apply (is_match_skip_needs_string_columns (rt := mini_runtime) ex_filters (ex_row "A001" "V1")).
  eexists. vm_compute. reflexivity.
Defined.

(** ** Batch grouping *)

Section GroupingInvariants.
Context {V : Type}.
Implicit Types (csvs grouped : list (string * V)).

Lemma od_set_In {K W : Type} `{EqDecision K} (d : list (K * W)) (k : K) (v : W) kv :
  In kv (od_set d k v) -> kv = (k, v) \/ In kv d.
Proof.
  induction d as [|[k' v'] d IH]; simpl.
  - intros [<-|[]]. left. reflexivity.
  - destruct (decide (k' = k)) as [->|Hne]; simpl.
    + intros [<-|H]; auto.
    + intros [<-|H]; auto. destruct (IH H); auto.
Qed.

Lemma od_set_nonempty {K W : Type} `{EqDecision K} (d : list (K * W)) (k : K) (v : W) :
  od_set d k v <> [].
Proof. destruct d as [|[k' v'] d]; simpl; [|destruct (decide (k' = k))]; discriminate. Qed.

Lemma sound_set csvs grouped path v :
  grouped_sound csvs grouped -> od_getitem csvs path = Ret v -> grouped_sound csvs (od_set grouped path v).
Proof.
  intros [Hin Hnd] Hv. split; [|apply od_set_NoDup; exact Hnd].
  intros kv Hkv. apply od_set_In in Hkv as [->|Hkv]; [|auto].
  unfold od_getitem in Hv. destruct (od_get csvs path) as [w|] eqn:Hw; [|discriminate].
  injection Hv as <-. apply od_get_In. exact Hw.
Qed.

Lemma keep_all_sound csvs recs : forall grouped out,
  keep_all csvs recs grouped = Ret out -> grouped_sound csvs grouped ->
  grouped_sound csvs out /\ (grouped <> [] \/ recs <> [] -> out <> []).
Proof.
  induction recs as [|r recs IH]; intros grouped out H Hs; simpl in H.
  - injection H as <-. split; [exact Hs|]. intros [Hg|Hr]; congruence.
  - inv_bind H. destruct (IH _ _ H (sound_set _ _ _ _ Hs Ha)) as [Hout Hne].
    split; [exact Hout|]. intros _. apply Hne. left. apply od_set_nonempty.
Qed.

Lemma keep_groups_sound highest_only csvs (sort_me : list (option string * list one_rec)) :
  forall grouped out,
  keep_groups highest_only csvs sort_me grouped = Ret out -> grouped_sound csvs grouped ->
  grouped_sound csvs out
  /\ (grouped <> [] \/ (exists kb, In kb sort_me /\ snd kb <> []) -> out <> []).
Proof.
  induction sort_me as [|[k bucket] rest IH]; intros grouped out H Hs; simpl in H.
  - injection H as <-. split; [exact Hs|]. intros [Hg|(kb & [] & _)]. exact Hg.
  - inv_bind H. destruct highest_only.
    + inv_bind H. inv_bind H.
      destruct (IH _ _ H (sound_set _ _ _ _ Hs Ha1)) as [Hout Hne].
      split; [exact Hout|]. intros _. apply Hne. left. apply od_set_nonempty.
    + inv_bind H. destruct (keep_all_sound _ _ _ _ Ha0 Hs) as [Hs' Hne'].
      destruct (IH _ _ H Hs') as [Hout Hne].
      split; [exact Hout|]. intros Hor. apply Hne.
      destruct Hor as [Hg|(kb & [<-|Hkb] & Hb)].
      * left. apply Hne'. left. exact Hg.
      * left. apply Hne'. right. simpl in Hb. intros ->.
        apply Hb, Permutation_nil.
        destruct (comparable bucket) eqn:Hc.
        -- rewrite (sorted_by_sort_spec bucket Hc) in Ha. injection Ha as Ha.
           rewrite <- Ha. apply spec_sort_perm.
        -- rewrite (sorted_by_sort_raises bucket Hc) in Ha. discriminate.
      * right. exists kb. split; assumption.
Qed.

End GroupingInvariants.

Lemma group_csvs_sound {rt : PyRuntime} {V : Type}
  (common sort_pattern : string) (highest_only : bool) (csvs out : list (string * V)) :
  _group_csvs common sort_pattern highest_only csvs = Ret out ->
  (forall kv, In kv out -> In kv csvs)
  /\ (NoDup (map fst csvs) -> NoDup (map fst out))
  /\ (csvs <> [] -> out <> []).
Proof.
  intros H. unfold _group_csvs in H.
  destruct (re_compile common) as [cc|]; [|injection H as <-; auto].
  destruct (re_compile sort_pattern) as [sc|]; [|injection H as <-; auto].
  assert (grouped_sound csvs ([] : list (string * V))) as Hs0 by (split; [intros kv []|constructor]).
  destruct (keep_groups_sound _ _ _ _ _ H Hs0) as [[Hin Hout] Hne].
  split; [exact Hin|]. split; [intros _; exact Hout|].
  intros Hcsvs. apply Hne. right.
  rewrite build_sort_me_fold, fold_sort_me_add.
  destruct csvs as [|[path v] csvs]; [congruence|].
  set (recs := recs_of cc sc ((path, v) :: csvs)).
  exists (group (make_rec cc sc path), built_bucket recs (group (make_rec cc sc path))).
  split.
  - apply in_map_iff. eexists. split; [reflexivity|]. left. reflexivity.
  - simpl. apply (built_buckets_nonempty recs). unfold built_buckets.
    apply in_map. left. reflexivity.
Qed.

(** X7.  Grouping invents nothing: every batch it returns is a batch it was
    given, with its rows, no path comes out twice, and from at least one
    batch at least one is left. *)
Theorem group_csvs_sub_collection {rt : PyRuntime} {V : Type}
  (common sort_pattern : string) (highest_only : bool) (csvs out : list (string * V)) :
  NoDup (map fst csvs) ->
  _group_csvs common sort_pattern highest_only csvs = Ret out ->
  (forall kv, In kv out -> In kv csvs)
  /\ NoDup (map fst out)
  /\ (csvs <> [] -> out <> []).
Proof.
  intros Hnd H.
  destruct (group_csvs_sound common sort_pattern highest_only csvs out H) as (Hin & Hout & Hne).
  auto.
Qed.

(** The three versioned batches, under highest-only. *)
Lemma group_csvs_sub_collection_witness :
  (forall kv, In kv [ ("/edit/a_v2.csv", "rows of a_v2"); ("/edit/b_v1.csv", "rows of b_v1") ]
     -> In kv ex_batches)
  /\ NoDup (map fst [ ("/edit/a_v2.csv", "rows of a_v2"); ("/edit/b_v1.csv", "rows of b_v1") ])
  /\ (ex_batches <> [] ->
      [ ("/edit/a_v2.csv", "rows of a_v2"); ("/edit/b_v1.csv", "rows of b_v1") ] <> []).
Proof.
  apply (group_csvs_sub_collection (rt := mini_runtime) ex_common ex_sort true ex_batches).
  - apply NoDup_ListNoDup. repeat constructor; simpl; intuition discriminate.
  - vm_compute. reflexivity.
Defined.

Section GroupingRaises.
Context {V : Type}.
Implicit Types (csvs grouped : list (string * V)).

Lemma keep_all_returns csvs recs : forall grouped,
  (forall r, In r recs -> od_get csvs (csv_path r) <> None) ->
  returns (keep_all csvs recs grouped).
Proof.
  induction recs as [|r recs IH]; intros grouped Hp; simpl; [eexists; reflexivity|].
  unfold od_getitem. destruct (od_get csvs (csv_path r)) as [v|] eqn:Hv.
  - simpl. apply IH. intros r' Hr'. apply Hp. right. exact Hr'.
  - exfalso. apply (Hp r); [left; reflexivity|exact Hv].
Qed.

Lemma keep_groups_raises highest_only csvs (sort_me : list (option string * list one_rec)) :
  (forall kb, In kb sort_me ->
     snd kb <> [] /\ forall r, In r (snd kb) -> od_get csvs (csv_path r) <> None) ->
  (exists kb, In kb sort_me /\ comparable (snd kb) = false) ->
  forall grouped, keep_groups highest_only csvs sort_me grouped = Raise TypeError.
Proof.
  induction sort_me as [|[k bucket] rest IH]; intros Hall (kb & Hkb & Hc) grouped.
  { destruct Hkb. }
  simpl. destruct (comparable bucket) eqn:Hcb.
  - assert (exists kb, In kb rest /\ comparable (snd kb) = false) as Hrest.
    { destruct Hkb as [<-|Hkb]; [simpl in Hc; congruence|]. eauto. }
    assert (forall kb, In kb rest ->
              snd kb <> [] /\ forall r, In r (snd kb) -> od_get csvs (csv_path r) <> None)
      as Hall'.
    { intros kb' Hkb'. apply Hall. right. exact Hkb'. }
    destruct (Hall (k, bucket) (or_introl eq_refl)) as [Hne Hp]. simpl in Hne, Hp.
    assert (forall r, In r (spec_sort bucket) -> od_get csvs (csv_path r) <> None) as Hps.
    { intros r Hr. apply Hp. apply (Permutation_in r (spec_sort_perm bucket)). exact Hr. }
    rewrite (sorted_by_sort_spec bucket Hcb). simpl.
    destruct highest_only.
    + unfold py_last. destruct (List.rev (spec_sort bucket)) as [|last tl] eqn:E.
      { exfalso. apply Hne, Permutation_nil. rewrite <- (spec_sort_perm bucket).
        rewrite <- (rev_involutive (spec_sort bucket)), E. reflexivity. }
      simpl. unfold od_getitem.
      destruct (od_get csvs (csv_path last)) as [v|] eqn:Hv.
      * simpl. apply IH; assumption.
      * exfalso. apply (Hps last); [|exact Hv].
        apply in_rev. rewrite E. left. reflexivity.
    + destruct (keep_all_returns csvs (spec_sort bucket) grouped Hps) as [g Hg].
      rewrite Hg. simpl. apply IH; assumption.
  - rewrite (sorted_by_sort_raises bucket Hcb). reflexivity.
Qed.

End GroupingRaises.

(** X8.  Two batches of one group, one of them without a sort key, cannot be
    sorted: grouping raises, with highest-only or without. *)
Theorem group_csvs_missing_sort_key_raises {rt : PyRuntime} {V : Type}
  (common sort_pattern : string) (highest_only : bool) (cc sc : regex)
  (csvs : list (string * V)) (p1 p2 g : string) :
  re_compile common = Some cc -> re_compile sort_pattern = Some sc ->
  In p1 (map fst csvs) -> In p2 (map fst csvs) -> p1 <> p2 ->
  search_group1 cc (basename p1) = Some g ->
  search_group1 cc (basename p2) = Some g ->
  search_group1 sc (basename p1) = None ->
  _group_csvs common sort_pattern highest_only csvs = Raise TypeError.
Proof.
  intros Hcc Hsc H1 H2 Hne Hg1 Hg2 Hs1. unfold _group_csvs. rewrite Hcc, Hsc.
  rewrite build_sort_me_fold, fold_sort_me_add.
  set (recs := recs_of cc sc csvs).
  assert (forall p, In p (map fst csvs) -> In (make_rec cc sc p) recs) as Hrec.
  { intros p Hp. apply in_map_iff in Hp as (kv & <- & Hkv).
    unfold recs, recs_of. apply in_map_iff. eauto. }
  apply keep_groups_raises.
  - intros kb Hkb. apply in_map_iff in Hkb as (k & <- & Hk). simpl.
    assert (In (built_bucket recs k) (built_buckets recs)) as Hb.
    { unfold built_buckets. apply in_map. exact Hk. }
    split; [exact (built_buckets_nonempty recs _ Hb)|].
    intros r Hr. apply (recs_of_present cc sc). exact (built_buckets_sub recs _ r Hb Hr).
  - exists (Some g, built_bucket recs (Some g)). split.
    + apply in_map_iff. exists (Some g). split; [reflexivity|].
      apply list_elem_of_In, elem_of_distinct, list_elem_of_In.
      apply in_map_iff. exists (make_rec cc sc p1). split; [exact Hg1 | apply Hrec, H1].
    + simpl. unfold comparable.
      assert (In (make_rec cc sc p1) (bucket_of recs (Some g))) as Hb1.
      { apply list_elem_of_In, list_elem_of_filter. split; [exact Hg1|].
        apply list_elem_of_In, Hrec, H1. }
      assert (In (make_rec cc sc p2) (bucket_of recs (Some g))) as Hb2.
      { apply list_elem_of_In, list_elem_of_filter. split; [exact Hg2|].
        apply list_elem_of_In, Hrec, H2. }
      apply orb_false_intro.
      * apply Nat.leb_gt.
        destruct (bucket_of recs (Some g)) as [|a [|b l]]; simpl; try lia.
        { destruct Hb1. }
        destruct Hb1 as [E1|[]]. destruct Hb2 as [E2|[]].
        rewrite E1 in E2. apply (f_equal csv_path) in E2. simpl in E2. congruence.
      * apply not_true_is_false. intros Hall. rewrite forallb_forall in Hall.
        specialize (Hall _ Hb1). apply bool_decide_eq_true in Hall.
        apply Hall. exact Hs1.
Qed.

(** The batch a_draft has the group of a_v1 and no version. *)
Lemma group_csvs_missing_sort_key_raises_witness :
  _group_csvs (rt := mini_runtime) ex_common ex_sort true
    [ ("/edit/a_draft.csv", "rows of a_draft"); ("/edit/a_v1.csv", "rows of a_v1") ]
  = Raise TypeError.
Proof.
  apply (group_csvs_missing_sort_key_raises (rt := mini_runtime) ex_common ex_sort true _ _
           [ ("/edit/a_draft.csv", "rows of a_draft"); ("/edit/a_v1.csv", "rows of a_v1") ]
           "/edit/a_draft.csv" "/edit/a_v1.csv" "a" eq_refl eq_refl).
  - left. reflexivity.
  - right. left. reflexivity.
  - discriminate.
  - vm_compute. reflexivity.
  - vm_compute. reflexivity.
  - vm_compute. reflexivity.
Defined.

(** ** Key derivation: [prep_matching] *)

Section PrepFacts.
Context {rt : PyRuntime}.
Variables (column csv_pattern csv_repl : string).

Lemma reset_key_twice (l : pydict) : reset_key (reset_key l) = reset_key l.
Proof. unfold reset_key. apply insert_insert_eq. Qed.

Lemma reset_key_insert (l : pydict) (v : pyval) :
  reset_key (<["csv_key" := v]> l) = reset_key l.
Proof. unfold reset_key. apply insert_insert_eq. Qed.

Lemma prep_line_reset (l : pydict) :
  prep_line column csv_pattern csv_repl (reset_key l) = prep_line column csv_pattern csv_repl l.
Proof. unfold prep_line. rewrite reset_key_twice. reflexivity. Qed.

Lemma prep_line_key (l l' : pydict) :
  prep_line column csv_pattern csv_repl l = Ret l' ->
  exists key, l' = <["csv_key" := PStr key]> l
    /\ derived_key column csv_pattern csv_repl l key.
Proof.
  unfold prep_line, derived_key, getitem.
  assert (reset_key l !! "csv_skip_line" = l !! "csv_skip_line") as ->.
  { unfold reset_key. apply lookup_insert_ne. discriminate. }
  destruct (l !! "csv_skip_line") as [skip|]; [|discriminate]. simpl.
  destruct (truthy skip) eqn:Ht.
  - intros [= <-]. exists "". split; [reflexivity|].
    exists skip. rewrite Ht. auto.
  - intros H. inv_bind H.
    exists (match nonempty_result a with Some k => k | None => "" end). split.
    + destruct (nonempty_result a) as [k|]; injection H as <-; [|reflexivity].
      unfold reset_key. apply insert_insert_eq.
    + exists skip. rewrite Ht. eauto.
Qed.

Lemma derived_key_reset (l : pydict) (key : string) :
  derived_key column csv_pattern csv_repl (reset_key l) key
  <-> derived_key column csv_pattern csv_repl l key.
Proof.
  unfold derived_key. rewrite reset_key_twice.
  assert (reset_key l !! "csv_skip_line" = l !! "csv_skip_line") as ->.
  { unfold reset_key. apply lookup_insert_ne. discriminate. }
  reflexivity.
Qed.

Lemma map_outcome_fixed {A : Type} (f g : A -> outcome A) (l l' : list A) :
  Forall2 (fun x y => f x = Ret y) l l' ->
  (forall x y, f x = Ret y -> g y = Ret y) ->
  map_outcome g l' = Ret l'.
Proof.
  intros Hall Hfg. induction Hall as [|x y l l' Hxy _ IH]; [reflexivity|].
  simpl. rewrite (Hfg x y Hxy). simpl. rewrite IH. reflexivity.
Qed.

Lemma prep_matching_lines (csvs csvs' : batches) :
  prep_matching column csv_pattern csv_repl csvs = Ret csvs' ->
  Forall2 (fun b b' : string * list pydict =>
             fst b' = fst b
             /\ Forall2 (fun l l' : pydict =>
                           exists key, l' = <["csv_key" := PStr key]> l
                             /\ derived_key column csv_pattern csv_repl l key)
                        (snd b) (snd b'))
          csvs csvs'.
Proof.
  unfold prep_matching. intros H. apply map_outcome_Forall2 in H.
  rewrite Forall2_fmap_l in H.
  induction H as [|b b' bs bs' Hb _ IH]; constructor; [|exact IH].
  simpl in Hb. inv_bind Hb. injection Hb as <-. simpl. split; [reflexivity|].
  apply map_outcome_Forall2 in Ha. rewrite Forall2_fmap_l in Ha.
  induction Ha as [|l l' ls ls' Hl _ IHl]; constructor; [|exact IHl].
  apply prep_line_key in Hl as (key & -> & Hkey).
  exists key. split; [|apply derived_key_reset; exact Hkey].
  unfold reset_key. apply insert_insert_eq.
Qed.

(** X9.  Key derivation touches nothing but the keys: the batches and their lines
    stay in place, and each line comes back with its [csv_key] set to the
    derived key and every other field as it was. *)
Theorem prep_matching_changes_keys_only (csvs csvs' : batches) :
  prep_matching column csv_pattern csv_repl csvs = Ret csvs' ->
  Forall2 (fun b b' : string * list pydict =>
             fst b' = fst b
             /\ Forall2 (fun l l' : pydict =>
                           exists key, l' = <["csv_key" := PStr key]> l
                             /\ derived_key column csv_pattern csv_repl l key)
                        (snd b) (snd b'))
          csvs csvs'.
Proof. apply prep_matching_lines. Qed.

Lemma map_outcome_map {A B C : Type} (g : A -> B) (f : B -> outcome C) (l : list A) :
  map_outcome f (map g l) = map_outcome (fun x => f (g x)) l.
Proof.
  induction l as [|x l IH]; [reflexivity|]. simpl. rewrite IH. reflexivity.
Qed.

(** X10.  Deriving the keys again changes nothing. *)
Theorem prep_matching_idempotent (csvs csvs' : batches) :
  prep_matching column csv_pattern csv_repl csvs = Ret csvs' ->
  prep_matching column csv_pattern csv_repl csvs' = Ret csvs'.
Proof.
  assert (forall l l', prep_line column csv_pattern csv_repl l = Ret l' ->
            prep_line column csv_pattern csv_repl (reset_key l') = Ret l') as Hline.
  { intros l l' Hl. destruct (prep_line_key l l' Hl) as (key & -> & _).
    rewrite reset_key_insert, prep_line_reset. exact Hl. }
  unfold prep_matching. rewrite !map_outcome_map. intros H.
  apply map_outcome_Forall2 in H.
  apply (map_outcome_fixed _ _ _ _ H).
  intros b b' Hb. simpl in Hb. inv_bind Hb. injection Hb as <-. simpl.
  rewrite map_outcome_map in Ha. apply map_outcome_Forall2 in Ha.
  rewrite map_outcome_map.
  rewrite (map_outcome_fixed _ (fun l => prep_line column csv_pattern csv_repl (reset_key l))
             _ _ Ha).
  - reflexivity.
  - intros l l' Hl. apply (Hline (reset_key l)). exact Hl.
Qed.

End PrepFacts.

(** ** Reconciliation: [csv_matching] *)

Section MatchingLinks.
Context {rt : PyRuntime}.
Variable match_tc : bool.

Lemma match_media_unmatched (todo : list (string * media_dict)) : forall csvs st,
  match_media match_tc todo csvs = Ret st ->
  (forall k item, In (k, item) todo -> csv_line item = None) ->
  map fst (st_media st) = map fst todo
  /\ map (fun kv => file (snd kv)) (st_media st) = map (fun kv => file (snd kv)) todo
  /\ media_not_matched st
     = map (fun kv => file (snd kv)) (List.filter (fun kv => unmatched (snd kv)) (st_media st)).
Proof.
  induction todo as [|[k item] rest IH]; intros csvs st H Hfresh; simpl in H.
  - injection H as <-. auto.
  - inv_bind H.
    assert (forall k' item', In (k', item') rest -> csv_line item' = None) as Hrest.
    { intros k' item' Hin. apply (Hfresh k' item'). right. exact Hin. }
    destruct a as [[[i j] name]|]; inv_bind H; injection H as <-;
      destruct (IH _ _ Ha0 Hrest) as (H1 & H2 & H3); simpl.
    + rewrite H1, H2. auto.
    + unfold unmatched at 1. simpl.
      rewrite (Hfresh k item (or_introl eq_refl)). simpl.
      rewrite H1, H2, H3. auto.
Qed.

(** X11.  The collection keeps its keys and files in order, and the list of
    unmatched files is exactly the files of the items left without a line,
    in the order of the collection. *)
Theorem csv_matching_lists_unmatched (media : list (string * media_dict)) (csvs : batches)
  (st : match_state) :
  csv_matching match_tc media csvs = Ret st ->
  (forall k item, In (k, item) media -> csv_line item = None) ->
  map fst (st_media st) = map fst media
  /\ map (fun kv => file (snd kv)) (st_media st) = map (fun kv => file (snd kv)) media
  /\ media_not_matched st
     = map (fun kv => file (snd kv)) (List.filter (fun kv => unmatched (snd kv)) (st_media st)).
Proof.
  intros H Hfresh. apply csv_matching_inv in H.
  exact (match_media_unmatched media csvs st H Hfresh).
Qed.

Lemma line_at_set_line (csvs : batches) (i0 j0 : nat) (k : string) (v : pyval) (i j : nat) :
  line_at (set_line csvs i0 j0 k v) i j
  = if decide ((i, j) = (i0, j0))
    then option_map (fun l : pydict => <[k := v]> l) (line_at csvs i j)
    else line_at csvs i j.
Proof.
  unfold line_at, set_line.
  destruct (decide (i = i0)) as [->|Hi].
  - rewrite list_lookup_alter_eq. destruct (csvs !! i0) as [b|]; simpl.
    + destruct (decide (j = j0)) as [->|Hj].
      * rewrite list_lookup_alter_eq. rewrite decide_True by reflexivity.
        destruct (snd b !! j0); reflexivity.
      * rewrite list_lookup_alter_ne by congruence.
        rewrite decide_False by congruence. reflexivity.
    + destruct (decide ((i0, j) = (i0, j0))); reflexivity.
  - rewrite list_lookup_alter_ne by congruence.
    rewrite decide_False by congruence. reflexivity.
Qed.

Lemma match_media_marks (todo : list (string * media_dict)) : forall csvs st,
  match_media match_tc todo csvs = Ret st ->
  (forall k item, In (k, item) todo -> csv_line item = None) ->
  forall i j,
    line_at (st_csvs st) i j
    = option_map (marked_for (last_holder (st_media st) i j)) (line_at csvs i j).
Proof.
  induction todo as [|[k item] rest IH]; intros csvs st H Hfresh i j; simpl in H.
  - injection H as <-. simpl. destruct (line_at csvs i j); reflexivity.
  - inv_bind H.
    assert (forall k' item', In (k', item') rest -> csv_line item' = None) as Hrest.
    { intros k' item' Hin. apply (Hfresh k' item'). right. exact Hin. }
    destruct a as [[[i0 j0] name]|]; inv_bind H; injection H as <-; simpl;
      rewrite (IH _ _ Ha0 Hrest i j).
    + rewrite line_at_set_line.
      destruct (last_holder (st_media a) i j) as [f|].
      * destruct (decide ((i, j) = (i0, j0))); [|reflexivity].
        destruct (line_at csvs i j) as [l|]; [|reflexivity]. simpl.
        rewrite insert_insert_eq. reflexivity.
      * destruct (decide ((i, j) = (i0, j0))) as [E|E].
        -- rewrite decide_True by congruence.
           destruct (line_at csvs i j); reflexivity.
        -- rewrite decide_False by congruence.
           destruct (line_at csvs i j); reflexivity.
    + rewrite (Hfresh k item (or_introl eq_refl)).
      destruct (last_holder (st_media a) i j); [reflexivity|].
      rewrite decide_False by discriminate. reflexivity.
Qed.

Lemma last_holder_Some (media : list (string * media_dict)) (i j : nat) (f : string) :
  last_holder media i j = Some f ->
  exists k item, In (k, item) media /\ csv_line item = Some (i, j) /\ file item = f.
Proof.
  induction media as [|[k item] rest IH]; simpl; [discriminate|].
  destruct (last_holder rest i j) as [g|].
  - intros [= <-]. destruct (IH eq_refl) as (k' & item' & Hin & Hl & Hf). eauto 8.
  - destruct (decide (csv_line item = Some (i, j))) as [E|E]; [|discriminate].
    intros [= <-]. eauto 8.
Qed.

Lemma last_holder_None (media : list (string * media_dict)) (i j : nat) :
  last_holder media i j = None ->
  forall k item, In (k, item) media -> csv_line item <> Some (i, j).
Proof.
  induction media as [|[k item] rest IH]; simpl; [intros _ k item []|].
  destruct (last_holder rest i j) as [g|]; [discriminate|].
  destruct (decide (csv_line item = Some (i, j))) as [E|E]; [discriminate|].
  intros _ k' item' [[= <- <-]|Hin]; [exact E | exact (IH eq_refl k' item' Hin)].
Qed.

Lemma py_eq_str (v : pyval) (s : string) : py_eq v (PStr s) = true -> v = PStr s.
Proof.
  destruct v as [| b | z | t]; simpl; try discriminate.
  intros H. apply String.eqb_eq in H. congruence.
Qed.

Lemma line_accepts_key (media_key : string) (item : media_dict) (l : pydict) :
  line_accepts match_tc media_key item l = Ret true ->
  l !! "csv_key" = Some (PStr media_key).
Proof.
  unfold line_accepts, getitem.
  destruct (l !! "csv_skip_line") as [skip|]; [|discriminate]. simpl.
  destruct (truthy skip); [discriminate|].
  destruct (l !! "csv_key") as [key|]; [|discriminate]. simpl.
  destruct (py_eq key (PStr media_key)) eqn:E; [|discriminate].
  intros _. f_equal. exact (py_eq_str _ _ E).
Qed.

(** What a matched item of the result holds, in terms of the lines the call
    was given. *)
Lemma matched_item_line (media : list (string * media_dict)) (csvs : batches)
  (st : match_state) :
  match_media match_tc media csvs = Ret st ->
  (forall k item, In (k, item) media -> csv_line item = None) ->
  forall k item i j, In (k, item) (st_media st) -> csv_line item = Some (i, j) ->
    exists item0 l0, In (k, item0) media
      /\ first_accepted match_tc k item0 csvs i j
      /\ line_at csvs i j = Some l0
      /\ l0 !! "csv_key" = Some (PStr k).
Proof.
  intros H Hfresh k item i j Hin Hl.
  destruct (match_media_first_fit match_tc media csvs st H) as [_ Hall].
  apply (In_nth_error) in Hin as [n Hn].
  assert (st_media st !! n = Some (k, item)) as Hn'.
  { rewrite <- Hn. clear. revert n. induction (st_media st) as [|x l IH]; intros [|n];
      simpl; auto. }
  destruct (Forall2_lookup_r _ _ _ _ _ Hall Hn') as ([k0 item0] & Hb & Hfit).
  destruct Hfit as (Hk & found & Hafter & Hfound). simpl in Hk, Hafter, Hfound. subst k0.
  assert (In (k, item0) media) as Hin0.
  { apply list_elem_of_In. eapply list_elem_of_lookup_2. exact Hb. }
  destruct found as [[[i' j'] name]|].
  - rewrite Hafter in Hl. simpl in Hl. injection Hl as -> ->.
    destruct Hfound as [_ Hfirst].
    destruct Hfirst as [(l0 & Hl0 & Hacc) Hbefore].
    exists item0, l0. split; [exact Hin0|]. split; [split; eauto|].
    split; [exact Hl0|]. exact (line_accepts_key _ _ _ Hacc).
  - rewrite Hafter in Hl. simpl in Hl. rewrite (Hfresh k item0 Hin0) in Hl. discriminate.
Qed.

(** X12.  The two directions of a match agree: the line an item holds carries the
    item's key and is marked with the item's file, and no other item holds
    the same line. *)
Theorem csv_matching_links_agree (media : list (string * media_dict)) (csvs : batches)
  (st : match_state) :
  csv_matching match_tc media csvs = Ret st ->
  NoDup (map fst media) ->
  (forall k item, In (k, item) media -> csv_line item = None) ->
  forall k item i j, In (k, item) (st_media st) -> csv_line item = Some (i, j) ->
    (exists l, line_at (st_csvs st) i j = Some l
       /\ l !! "csv_key" = Some (PStr k)
       /\ l !! "csv_matched_media" = Some (PStr (file item)))
    /\ (forall k' item', In (k', item') (st_media st) ->
          csv_line item' = Some (i, j) -> k' = k /\ item' = item).
Proof.
  intros H Hnd Hfresh k item i j Hin Hl. apply csv_matching_inv in H.
  destruct (matched_item_line media csvs st H Hfresh k item i j Hin Hl)
    as (item0 & l0 & Hin0 & _ & Hl0 & Hkey).
  destruct (match_media_unmatched media csvs st H Hfresh) as (Hkeys & _ & _).
  assert (forall k' item', In (k', item') (st_media st) ->
            csv_line item' = Some (i, j) -> k' = k /\ item' = item) as Huniq.
  { intros k' item' Hin' Hl'.
    destruct (matched_item_line media csvs st H Hfresh k' item' i j Hin' Hl')
      as (_ & l1 & _ & _ & Hl1 & Hkey').
    assert (k' = k) as -> by congruence.
    split; [reflexivity|].
    assert (NoDup (map fst (st_media st))) as Hnd' by (rewrite Hkeys; exact Hnd).
    pose proof (od_In_get _ _ _ Hnd' Hin) as G1.
    pose proof (od_In_get _ _ _ Hnd' Hin') as G2. congruence. }
  split; [|exact Huniq].
  rewrite (match_media_marks media csvs st H Hfresh i j), Hl0. simpl.
  destruct (last_holder (st_media st) i j) as [f|] eqn:Hh.
  - apply last_holder_Some in Hh as (k' & item' & Hin' & Hl' & <-).
    destruct (Huniq k' item' Hin' Hl') as [-> ->].
    eexists. split; [reflexivity|]. split.
    + simpl. rewrite lookup_insert_ne by discriminate. exact Hkey.
    + simpl. apply lookup_insert_eq.
  - exfalso. exact (last_holder_None _ _ _ Hh k item Hin Hl).
Qed.

End MatchingLinks.

Lemma line_accepts_without_check {rt : PyRuntime} (media_key : string) (item : media_dict)
  (l : pydict) :
  line_accepts true media_key item l = Ret true ->
  line_accepts false media_key item l = Ret true.
Proof.
  unfold line_accepts, getitem.
  destruct (l !! "csv_skip_line") as [skip|]; [|discriminate]. simpl.
  destruct (truthy skip); [discriminate|].
  destruct (l !! "csv_key") as [key|]; [|discriminate]. simpl.
  destruct (py_eq key (PStr media_key)); [reflexivity|discriminate].
Qed.

(** X13.  The temporal check only takes matches away: an item matched with the
    check enabled is matched without it too, to the same line or to one that
    comes earlier in the scan. *)
Theorem temporal_check_only_removes_matches {rt : PyRuntime}
  (media : list (string * media_dict)) (csvs : batches) (st_tc st_no : match_state) :
  csv_matching true media csvs = Ret st_tc ->
  csv_matching false media csvs = Ret st_no ->
  (forall k item, In (k, item) media -> csv_line item = None) ->
  forall k item i j, In (k, item) (st_media st_tc) -> csv_line item = Some (i, j) ->
    exists item' i' j', In (k, item') (st_media st_no)
      /\ csv_line item' = Some (i', j') /\ no_later (i', j') (i, j).
Proof.
  intros Htc Hno Hfresh k item i j Hin Hl.
  apply csv_matching_inv in Htc. apply csv_matching_inv in Hno.
  destruct (matched_item_line true media csvs st_tc Htc Hfresh k item i j Hin Hl)
    as (item0 & l0 & Hin0 & [(l1 & Hl1 & Hacc) _] & Hl0 & _).
  assert (l1 = l0) as -> by congruence.
  apply line_accepts_without_check in Hacc.
  destruct (match_media_first_fit false media csvs st_no Hno) as [_ Hall].
  apply list_elem_of_In, list_elem_of_lookup in Hin0 as [n Hn].
  destruct (Forall2_lookup_l _ _ _ _ _ Hall Hn) as ([k' item'] & Hn' & Hfit).
  destruct Hfit as (Hk & found & Hafter & Hfound). simpl in Hk, Hafter, Hfound. subst k'.
  assert (In (k, item') (st_media st_no)) as Hin'.
  { apply list_elem_of_In. eapply list_elem_of_lookup_2. exact Hn'. }
  destruct found as [[[i' j'] name]|].
  - exists item', i', j'. split; [exact Hin'|]. split; [rewrite Hafter; reflexivity|].
    destruct Hfound as [_ [_ Hbefore]]. unfold no_later. simpl.
    destruct (Nat.lt_trichotomy i' i) as [Hlt|[->|Hgt]]; [lia| |].
    + destruct (Nat.le_gt_cases j' j) as [Hle|Hgt]; [lia|].
      specialize (Hbefore i j l0 ltac:(lia) Hl0). congruence.
    + specialize (Hbefore i j l0 ltac:(lia) Hl0). congruence.
  - specialize (Hfound i j l0 Hl0). congruence.
Qed.

(** ** Runs of the statements above *)

Lemma is_ret_returns {A : Type} (m : outcome A) : is_ret m = true -> returns m.
Proof. destruct m as [a|e]; [intros _; exists a; reflexivity | discriminate]. Qed.



Lemma prep_matching_changes_keys_only_witness :
  exists csvs',
    prep_matching (rt := mini_runtime) "Name" "^(\w+)_" "" ex_named_csvs = Ret csvs'
    /\ Forall2 (fun b b' : string * list pydict =>
                  fst b' = fst b
                  /\ Forall2 (fun l l' : pydict =>
                                exists key, l' = <["csv_key" := PStr key]> l
                                  /\ derived_key (rt := mini_runtime) "Name" "^(\w+)_" "" l key)
                             (snd b) (snd b'))
               ex_named_csvs csvs'.
Proof.
  destruct (is_ret_returns
              (prep_matching (rt := mini_runtime) "Name" "^(\w+)_" "" ex_named_csvs))
    as [csvs' H]; [vm_compute; reflexivity|].
  exists csvs'. split; [exact H|].
  exact (prep_matching_changes_keys_only (rt := mini_runtime) "Name" "^(\w+)_" ""
           ex_named_csvs csvs' H).
Defined.

Lemma prep_matching_idempotent_witness :
  exists csvs',
    prep_matching (rt := mini_runtime) "Name" "^(\w+)_" "" ex_named_csvs = Ret csvs'
    /\ prep_matching (rt := mini_runtime) "Name" "^(\w+)_" "" csvs' = Ret csvs'.
Proof.
  destruct (is_ret_returns
              (prep_matching (rt := mini_runtime) "Name" "^(\w+)_" "" ex_named_csvs))
    as [csvs' H]; [vm_compute; reflexivity|].
  exists csvs'. split; [exact H|].
  exact (prep_matching_idempotent (rt := mini_runtime) "Name" "^(\w+)_" ""
           ex_named_csvs csvs' H).
Defined.

Lemma ex_media_unmatched :
  forall k item, In (k, item) ex_media -> csv_line item = None.
Proof. intros k item [H|[H|[]]]; injection H as <- <-; reflexivity. Qed.

Lemma csv_matching_lists_unmatched_witness :
  exists st, csv_matching true ex_media ex_csvs = Ret st
    /\ map fst (st_media st) = map fst ex_media
    /\ map (fun kv => file (snd kv)) (st_media st) = map (fun kv => file (snd kv)) ex_media
    /\ media_not_matched st
       = map (fun kv => file (snd kv))
           (List.filter (fun kv => unmatched (snd kv)) (st_media st)).
Proof.
  destruct (is_ret_returns (csv_matching true ex_media ex_csvs)) as [st H];
    [vm_compute; reflexivity|].
  exists st. split; [exact H|].
  exact (csv_matching_lists_unmatched true ex_media ex_csvs st H ex_media_unmatched).
Defined.

Lemma csv_matching_links_agree_witness :
  exists st, csv_matching true ex_media ex_csvs = Ret st
    /\ forall k item i j, In (k, item) (st_media st) -> csv_line item = Some (i, j) ->
         (exists l, line_at (st_csvs st) i j = Some l
            /\ l !! "csv_key" = Some (PStr k)
            /\ l !! "csv_matched_media" = Some (PStr (file item)))
         /\ (forall k' item', In (k', item') (st_media st) ->
               csv_line item' = Some (i, j) -> k' = k /\ item' = item).
Proof.
  destruct (is_ret_returns (csv_matching true ex_media ex_csvs)) as [st H];
    [vm_compute; reflexivity|].
  exists st. split; [exact H|].
  apply (csv_matching_links_agree true ex_media ex_csvs st H).
  - apply NoDup_ListNoDup. repeat constructor; simpl; intuition discriminate.
  - exact ex_media_unmatched.
Defined.

Lemma temporal_check_only_removes_matches_witness :
  exists st_tc st_no,
    csv_matching true ex_media ex_csvs = Ret st_tc
    /\ csv_matching false ex_media ex_csvs = Ret st_no
    /\ forall k item i j, In (k, item) (st_media st_tc) -> csv_line item = Some (i, j) ->
         exists item' i' j', In (k, item') (st_media st_no)
           /\ csv_line item' = Some (i', j') /\ no_later (i', j') (i, j).
Proof.
  destruct (is_ret_returns (csv_matching true ex_media ex_csvs)) as [st_tc Htc];
    [vm_compute; reflexivity|].
  destruct (is_ret_returns (csv_matching false ex_media ex_csvs)) as [st_no Hno];
    [vm_compute; reflexivity|].
  exists st_tc, st_no. split; [exact Htc|]. split; [exact Hno|].
  exact (temporal_check_only_removes_matches (rt := mini_runtime) ex_media ex_csvs
           st_tc st_no Htc Hno ex_media_unmatched).
Defined.

(** ** Reading the csv files *)

Lemma fold_od_set_fresh {A K W : Type} `{EqDecision K} (key : A -> K) (val : A -> W)
  (l : list A) : forall (acc : list (K * W)),
  NoDup (map fst acc ++ map key l) ->
  fold_left (fun out x => od_set out (key x) (val x)) l acc
  = acc ++ map (fun x => (key x, val x)) l.
Proof.
  induction l as [|x l IH]; intros acc Hnd; simpl.
  - rewrite app_nil_r. reflexivity.
  - assert (od_get acc (key x) = None) as Hfresh.
    { apply od_get_None_notin. intros Hin.
      apply NoDup_app in Hnd as (_ & Hdisj & _).
      apply (Hdisj (key x)); [apply list_elem_of_In; exact Hin|]. left. }
    rewrite (od_set_fresh _ _ _ Hfresh). rewrite IH.
    + rewrite <- app_assoc. reflexivity.
    + rewrite map_app, <- app_assoc. exact Hnd.
Qed.

(** X14.  When no two columns of a row end up with the same name, renaming keeps
    the columns in their order with their values and changes the names
    only. *)
Theorem rename_columns_keeps_order_and_values (rename : list (string * string))
  (one_line : row) :
  NoDup (map (fun kv => rename_target rename (fst kv)) one_line) ->
  rename_columns rename one_line
  = map (fun kv => (rename_target rename (fst kv), snd kv)) one_line.
Proof.
  intros Hnd. unfold rename_columns.
  apply (fold_od_set_fresh (fun kv : string * pyval => rename_target rename (fst kv)) snd
           one_line []).
  exact Hnd.
Qed.

(** The record-in column of the csv file becomes [csv_rin]. *)
Lemma rename_columns_keeps_order_and_values_witness :
  rename_columns [("csv_rin", "Record In"); ("csv_rout", "Record Out")]
    [("Reel", PStr "A001"); ("Record Out", PStr "01:00:02:00"); ("Record In", PStr "01:00:00:00")]
  = [("Reel", PStr "A001"); ("csv_rout", PStr "01:00:02:00"); ("csv_rin", PStr "01:00:00:00")].
Proof.
  apply (rename_columns_keeps_order_and_values
           [("csv_rin", "Record In"); ("csv_rout", "Record Out")]
           [("Reel", PStr "A001"); ("Record Out", PStr "01:00:02:00");
            ("Record In", PStr "01:00:00:00")]).
  apply NoDup_ListNoDup. repeat constructor; simpl; intuition discriminate.
Defined.

Lemma tc_columns_In (k : string) :
  existsb (String.eqb k) tc_columns = true <-> In k tc_columns.
Proof.
  rewrite existsb_exists. split.
  - intros (c & Hc & E). apply String.eqb_eq in E. subst. exact Hc.
  - intros H. exists k. split; [exact H | apply String.eqb_refl].
Qed.

Lemma frames_name_inj (c c' : string) :
  In c tc_columns -> In c' tc_columns ->
  (c ++ "_frames")%string = (c' ++ "_frames")%string -> c = c'.
Proof.
  unfold tc_columns. simpl.
  intros [<-|[<-|[<-|[<-|[]]]]] [<-|[<-|[<-|[<-|[]]]]] E;
    solve [reflexivity | vm_compute in E; discriminate E].
Qed.

(** A column that the rest of the loop neither sets nor derives keeps the
    value it has. *)
Lemma frames_loop_other (fps : Q) (items : row) : forall (acc out : row) (k : string),
  frames_loop fps items acc = Ret out ->
  ~ In k (map fst items) ->
  (forall c, In c tc_columns -> In c (map fst items) -> k <> (c ++ "_frames")%string) ->
  od_get out k = od_get acc k.
Proof.
  induction items as [|[k0 v0] rest IH]; intros acc out k H Hk Hf; cbn [frames_loop] in H.
  - injection H as <-. reflexivity.
  - assert (k0 <> k) as Hne by (intros ->; apply Hk; left; reflexivity).
    assert (~ In k (map fst rest)) as Hk' by (intros Hin; apply Hk; right; exact Hin).
    assert (forall c, In c tc_columns -> In c (map fst rest) -> k <> (c ++ "_frames")%string)
      as Hf' by (intros c Hc Hin; apply Hf; [exact Hc | right; exact Hin]).
    destruct (existsb (String.eqb k0) tc_columns) eqn:Htc.
    + inv_bind H. rewrite (IH _ _ k H Hk' Hf').
      rewrite od_get_set_ne.
      * apply od_get_set_ne. exact Hne.
      * intros E. apply (Hf k0); [apply tc_columns_In; exact Htc | left; reflexivity|].
        symmetry. exact E.
    + rewrite (IH _ _ k H Hk' Hf'). apply od_get_set_ne. exact Hne.
Qed.

Lemma csv_tc_to_frames_columns (fps : Q) (one_line out_line : row) :
  csv_tc_to_frames fps one_line = Ret out_line ->
  NoDup (map fst one_line) ->
  (forall k c, In k (map fst one_line) -> In c tc_columns -> k <> (c ++ "_frames")%string) ->
  (forall k v, In (k, v) one_line -> od_get out_line k = Some v)
  /\ (forall c v, In c tc_columns -> In (c, v) one_line ->
        exists frames, csv_frames fps v = Ret frames
          /\ od_get out_line (c ++ "_frames")%string = Some frames).
Proof.
  unfold csv_tc_to_frames. generalize ([] : row) as acc.
  induction one_line as [|[k0 v0] rest IH]; intros acc H Hnd Hnames.
  { split; [intros k v []|intros c v _ []]. }
  simpl in Hnd. apply NoDup_cons in Hnd as [Hk0 Hnd].
  assert (~ In k0 (map fst rest)) as Hk0' by (intros Hin; apply Hk0, list_elem_of_In, Hin).
  assert (forall k c, In k (map fst rest) -> In c tc_columns -> k <> (c ++ "_frames")%string)
    as Hnames' by (intros k c Hk; apply Hnames; right; exact Hk).
  assert (forall c, In c tc_columns -> In c (map fst rest) -> k0 <> (c ++ "_frames")%string)
    as Hk0f by (intros c Hc _; apply Hnames; [left; reflexivity | exact Hc]).
  cbn [frames_loop] in H. destruct (existsb (String.eqb k0) tc_columns) eqn:Htc.
  - inv_bind H. destruct (IH _ H Hnd Hnames') as [Hkeep Hframes].
    assert (In k0 tc_columns) as Hin0 by (apply tc_columns_In; exact Htc).
    split.
    + intros k v [[= <- <-]|Hin]; [|exact (Hkeep k v Hin)].
      rewrite (frames_loop_other fps rest _ _ k0 H Hk0' Hk0f).
      rewrite od_get_set_ne.
      * apply od_get_set_eq.
      * intros E. apply (Hnames k0 k0); [left; reflexivity | exact Hin0 |].
        symmetry. exact E.
    + intros c v Hc [[= <- <-]|Hin]; [|exact (Hframes c v Hc Hin)].
      exists a. split; [exact Ha|].
      rewrite (frames_loop_other fps rest _ _ _ H).
      * apply od_get_set_eq.
      * intros Hin. apply (Hnames (k0 ++ "_frames")%string k0);
          [right; exact Hin | exact Hin0 | reflexivity].
      * intros c' Hc' Hin' E. apply Hk0'.
        rewrite (frames_name_inj k0 c' Hin0 Hc' E). exact Hin'.
  - destruct (IH _ H Hnd Hnames') as [Hkeep Hframes].
    split.
    + intros k v [[= <- <-]|Hin]; [|exact (Hkeep k v Hin)].
      rewrite (frames_loop_other fps rest _ _ k0 H Hk0' Hk0f).
      apply od_get_set_eq.
    + intros c v Hc [[= <- <-]|Hin]; [|exact (Hframes c v Hc Hin)].
      apply tc_columns_In in Hc. congruence.
Qed.

(** X15.  In a row that has no column named like a frame count, the timecode pass
    keeps every column with its value, and gives each timecode column a
    frame count beside it: [None] for an empty cell, the frames of the
    timecode otherwise. *)
Theorem csv_tc_to_frames_adds_frame_counts (fps : Q) (one_line out_line : row) :
  csv_tc_to_frames fps one_line = Ret out_line ->
  NoDup (map fst one_line) ->
  (forall k c, In k (map fst one_line) -> In c tc_columns -> k <> (c ++ "_frames")%string) ->
  (forall k v, In (k, v) one_line -> od_get out_line k = Some v)
  /\ (forall c v, In c tc_columns -> In (c, v) one_line ->
        exists frames, csv_frames fps v = Ret frames
          /\ od_get out_line (c ++ "_frames")%string = Some frames).
Proof. apply csv_tc_to_frames_columns. Qed.

Section ReadFacts.
Context {rt : PyRuntime}.
Variable rename : list (string * string).
Variable required_columns : list string.
Variable frame_rate : Q.
Variable csv_match_skip : list skip_filter.
Variable check_required_columns : bool.

Lemma read_row_ready (r : row) (line : pydict) :
  read_row rename frame_rate csv_match_skip r = Ret line -> line_ready line.
Proof.
  unfold read_row, mark_skip. intros H. inv_bind H. inv_bind H. injection H as <-.
  split.
  - eexists. apply lookup_insert_eq.
  - rewrite lookup_insert_ne by discriminate. apply lookup_insert_eq.
Qed.

Lemma read_rows_spec (rows : list row) : forall csv_listdict valid_lines lines m,
  read_rows rename frame_rate csv_match_skip rows csv_listdict valid_lines = Ret (lines, m) ->
  exists new,
    lines = csv_listdict ++ new
    /\ Forall2 (fun r l => read_row rename frame_rate csv_match_skip r = Ret l) rows new
    /\ m = (valid_lines + List.length (List.filter valid_line new))%nat.
Proof.
  induction rows as [|r rows IH]; intros acc n lines m H; simpl in H.
  - injection H as <- <-. exists []. rewrite app_nil_r. simpl. auto with lia.
  - inv_bind H. inv_bind H.
    destruct (IH _ _ _ _ H) as (new & -> & Hall & ->).
    exists (a :: new). split; [rewrite <- app_assoc; reflexivity|].
    split; [constructor; assumption|].
    simpl. unfold valid_line at 2. unfold getitem in Ha0.
    destruct (a !! "csv_skip_line") as [v|]; [|discriminate]. injection Ha0 as <-.
    destruct (truthy v); simpl; lia.
Qed.

Lemma keep_csv_ready (rows : list row) (lines : list pydict) (m : nat) :
  read_rows rename frame_rate csv_match_skip rows [] 0 = Ret (lines, m) ->
  keep_csv required_columns check_required_columns lines m = true ->
  batch_ready check_required_columns required_columns lines.
Proof.
  intros H Hkeep. destruct (read_rows_spec _ _ _ _ _ H) as (new & -> & Hall & ->).
  simpl in *. unfold batch_ready. split; [|split].
  - clear Hkeep H. induction Hall as [|r l rs ls Hr _ IH]; constructor; [|exact IH].
    exact (read_row_ready r l Hr).
  - unfold keep_csv in Hkeep. destruct new as [|first rest]; [discriminate|].
    destruct (List.length (List.filter valid_line (first :: rest)) =? 0)%nat eqn:E;
      [discriminate|].
    apply Nat.eqb_neq in E.
    destruct (List.filter valid_line (first :: rest)) as [|l ls] eqn:Hf; [simpl in E; lia|].
    assert (In l (List.filter valid_line (first :: rest))) as Hin by (rewrite Hf; left; reflexivity).
    apply filter_In in Hin as [Hin Hv].
    apply List.Exists_exists. exists l. split; [exact Hin | exact Hv].
  - intros ->. unfold keep_csv in Hkeep. destruct new as [|first rest]; [discriminate|].
    destruct (List.length (List.filter valid_line (first :: rest)) =? 0)%nat; [discriminate|].
    exists first, rest. split; [reflexivity|].
    rewrite forallb_forall in Hkeep. apply List.Forall_forall. intros c Hc.
    specialize (Hkeep c Hc). apply bool_decide_eq_true in Hkeep. exact Hkeep.
Qed.

Lemma read_files_ready (all_files csv_files : list (string * list row)) : forall csvs out,
  read_files rename required_columns frame_rate csv_match_skip check_required_columns
    csv_files csvs = Ret out ->
  (forall x, In x csv_files -> In x all_files) ->
  NoDup (map fst csvs) ->
  (forall b, In b csvs ->
     (exists p rows, In (p, rows) all_files /\ fst b = slashes p)
     /\ batch_ready check_required_columns required_columns (snd b)) ->
  NoDup (map fst out)
  /\ (forall b, In b out ->
        (exists p rows, In (p, rows) all_files /\ fst b = slashes p)
        /\ batch_ready check_required_columns required_columns (snd b)).
Proof.
  induction csv_files as [|[one_csv rows] rest IH]; intros csvs out H Hsub Hnd Hall;
    simpl in H.
  - injection H as <-. auto.
  - inv_bind H. destruct a as [lines m]. simpl in H.
    assert (forall x, In x rest -> In x all_files) as Hsub'
      by (intros x Hx; apply Hsub; right; exact Hx).
    destruct (keep_csv required_columns check_required_columns lines m) eqn:Hkeep.
    + apply (IH _ _ H Hsub').
      * apply od_set_NoDup. exact Hnd.
      * intros b Hb. apply od_set_In in Hb as [->|Hb]; [|exact (Hall b Hb)].
        simpl. split.
        -- exists one_csv, rows. split; [apply Hsub; left; reflexivity|reflexivity].
        -- exact (keep_csv_ready rows lines m Ha Hkeep).
    + exact (IH _ _ H Hsub' Hnd Hall).
Qed.

End ReadFacts.

Lemma read_csvs_ready {rt : PyRuntime}
  (rename : list (string * string)) (required_columns : list string) (frame_rate : Q)
  (csv_match_skip : list skip_filter) (check_required_columns : bool)
  (common sort_pattern : string) (highest_only : bool)
  (csv_files : list (string * list row)) (csvs : batches) :
  read_csvs rename required_columns frame_rate csv_match_skip check_required_columns
    common sort_pattern highest_only csv_files = Ret csvs ->
  csvs <> []
  /\ NoDup (map fst csvs)
  /\ (forall b, In b csvs ->
        (exists p rows, In (p, rows) csv_files /\ fst b = slashes p)
        /\ batch_ready check_required_columns required_columns (snd b)).
Proof.
  unfold read_csvs. intros H. destruct csv_files as [|f files]; [discriminate|].
  inv_bind H. destruct a as [|b0 read]; [discriminate|].
  destruct (read_files_ready rename required_columns frame_rate csv_match_skip
              check_required_columns (f :: files) (f :: files) [] (b0 :: read) Ha)
    as [Hnd Hall].
  { auto. }
  { constructor. }
  { intros b []. }
  destruct (group_csvs_sound _ _ _ _ _ H) as (Hin & Hout & Hne).
  split; [apply Hne; discriminate|]. split; [exact (Hout Hnd)|].
  intros b Hb. apply Hall, Hin, Hb.
Qed.

(** X16.  What [read_csvs] hands to the matching: at least one batch, each path
    once and each the normalised path of a file that was read; every line of
    a batch has a boolean skip mark and the empty key, every batch has a
    line that is not skipped, and with the column check on the first line of
    every batch has all the required columns. *)
Theorem read_csvs_batches_ready {rt : PyRuntime}
  (rename : list (string * string)) (required_columns : list string) (frame_rate : Q)
  (csv_match_skip : list skip_filter) (check_required_columns : bool)
  (common sort_pattern : string) (highest_only : bool)
  (csv_files : list (string * list row)) (csvs : batches) :
  read_csvs rename required_columns frame_rate csv_match_skip check_required_columns
    common sort_pattern highest_only csv_files = Ret csvs ->
  csvs <> []
  /\ NoDup (map fst csvs)
  /\ (forall b, In b csvs ->
        (exists p rows, In (p, rows) csv_files /\ fst b = slashes p)
        /\ batch_ready check_required_columns required_columns (snd b)).
Proof. apply read_csvs_ready. Qed.


(** Ten seconds at 24 frames per second, and an empty cell. *)
Lemma csv_tc_to_frames_adds_frame_counts_witness :
  csv_tc_to_frames (24 # 1) ex_renamed_row
  = Ret [ ("Reel", PStr "A001"); ("csv_sin", PStr "00:00:10:00"); ("csv_sin_frames", PInt 240);
          ("csv_sout", PStr ""); ("csv_sout_frames", PNone) ]
  /\ (forall k v, In (k, v) ex_renamed_row ->
        od_get [ ("Reel", PStr "A001"); ("csv_sin", PStr "00:00:10:00");
                 ("csv_sin_frames", PInt 240);
                 ("csv_sout", PStr ""); ("csv_sout_frames", PNone) ] k = Some v)
  /\ (forall c v, In c tc_columns -> In (c, v) ex_renamed_row ->
        exists frames, csv_frames (24 # 1) v = Ret frames
          /\ od_get [ ("Reel", PStr "A001"); ("csv_sin", PStr "00:00:10:00");
                      ("csv_sin_frames", PInt 240);
                      ("csv_sout", PStr ""); ("csv_sout_frames", PNone) ]
                    (c ++ "_frames")%string = Some frames).
Proof.
  split; [vm_compute; reflexivity|].
  apply (csv_tc_to_frames_adds_frame_counts (24 # 1) ex_renamed_row).
  - vm_compute. reflexivity.
  - apply NoDup_ListNoDup. repeat constructor; simpl; intuition discriminate.
  - intros k c Hk Hc E. simpl in Hk, Hc.
    destruct Hk as [<-|[<-|[<-|[]]]]; destruct Hc as [<-|[<-|[<-|[<-|[]]]]];
      vm_compute in E; discriminate E.
Defined.

Lemma read_csvs_batches_ready_witness :
  exists csvs,
    read_csvs (rt := mini_runtime) ex_rename ["Name"; "csv_sin"] (24 # 1) ex_reel_filters true
      ex_common ex_sort true ex_csv_files = Ret csvs
    /\ csvs <> []
    /\ NoDup (map fst csvs)
    /\ (forall b, In b csvs ->
          (exists p rows, In (p, rows) ex_csv_files /\ fst b = slashes p)
          /\ batch_ready true ["Name"; "csv_sin"] (snd b)).
Proof.
  destruct (is_ret_returns
              (read_csvs (rt := mini_runtime) ex_rename ["Name"; "csv_sin"] (24 # 1)
                 ex_reel_filters true ex_common ex_sort true ex_csv_files))
    as [csvs H]; [vm_compute; reflexivity|].
  exists csvs. split; [exact H|].
  exact (read_csvs_batches_ready (rt := mini_runtime) ex_rename ["Name"; "csv_sin"] (24 # 1)
           ex_reel_filters true ex_common ex_sort true ex_csv_files csvs H).
Defined.


(** *** A line and the temporal check *)

Lemma list_to_map_od_get (l : row) (k : string) :
  (list_to_map l : pydict) !! k = od_get l k.
Proof.
  induction l as [|[k0 v0] l IH]; [reflexivity|].
  simpl. destruct (decide (k0 = k)) as [->|Hne].
  - apply lookup_insert_eq.
  - rewrite lookup_insert_ne by exact Hne. exact IH.
Qed.

Lemma fold_od_set_NoDup {A K W : Type} `{EqDecision K} (key : A -> K) (val : A -> W)
  (l : list A) : forall (acc : list (K * W)),
  NoDup (map fst acc) ->
  NoDup (map fst (fold_left (fun out x => od_set out (key x) (val x)) l acc)).
Proof.
  induction l as [|x l IH]; intros acc Hnd; simpl; [exact Hnd|].
  apply IH, od_set_NoDup, Hnd.
Qed.

Lemma rename_columns_NoDup (rename : list (string * string)) (one_line : row) :
  NoDup (map fst (rename_columns rename one_line)).
Proof.
  unfold rename_columns.
  apply (fold_od_set_NoDup (fun kv : string * pyval => rename_target rename (fst kv)) snd).
  constructor.
Qed.

Lemma csv_frames_shape (fps : Q) (v frames : pyval) :
  csv_frames fps v = Ret frames -> frames = PNone \/ exists n, frames = PInt n.
Proof.
  unfold csv_frames. destruct (truthy v && negb (py_eq v (PStr ""))).
  - destruct v as [| b | z | s]; intros H; inv_bind H; try discriminate.
    injection H as <-. eauto.
  - intros [= <-]. auto.
Qed.

Section LineFacts.
Context {rt : PyRuntime}.
Variable rename : list (string * string).
Variable frame_rate : Q.
Variable csv_match_skip : list skip_filter.

Lemma read_row_lookup (r : row) (line : pydict) :
  read_row rename frame_rate csv_match_skip r = Ret line ->
  exists out_line,
    csv_tc_to_frames frame_rate (rename_columns rename r) = Ret out_line
    /\ forall k, k <> "csv_key" -> k <> "csv_skip_line" -> line !! k = od_get out_line k.
Proof.
  unfold read_row, mark_skip. intros H. inv_bind H. inv_bind H. injection H as <-.
  exists a. split; [exact Ha|]. intros k H1 H2.
  rewrite !lookup_insert_ne by congruence. apply list_to_map_od_get.
Qed.

(** X18.  A row that has the source-in and source-out columns after renaming, and
    no column named like a frame count, gives a line on which the lookups of
    the temporal check find a frame count or [None]. *)
Theorem read_row_ready_for_temporal_check (r : row) (line : pydict) :
  read_row rename frame_rate csv_match_skip r = Ret line ->
  (forall k c, In k (map fst (rename_columns rename r)) -> In c tc_columns ->
     k <> (c ++ "_frames")%string) ->
  In "csv_sin" (map fst (rename_columns rename r)) ->
  In "csv_sout" (map fst (rename_columns rename r)) ->
  wf_line true line = true.
Proof.
  intros H Hnames Hsin Hsout.
  destruct (read_row_ready rename frame_rate csv_match_skip r line H) as [[b Hb] Hkey].
  destruct (read_row_lookup r line H) as (out_line & Hout & Hlook).
  destruct (csv_tc_to_frames_columns frame_rate _ _ Hout (rename_columns_NoDup rename r) Hnames)
    as [_ Hframes].
  assert (forall c, In c tc_columns -> In c (map fst (rename_columns rename r)) ->
            c <> "csv_key" -> c <> "csv_skip_line" ->
            (c ++ "_frames")%string <> "csv_key" ->
            (c ++ "_frames")%string <> "csv_skip_line" ->
            is_frame (line !! (c ++ "_frames")%string) = true) as Hc.
  { intros c Hc Hin _ _ H1 H2. apply in_map_iff in Hin as ([c' v] & <- & Hin). simpl in *.
    destruct (Hframes c' v Hc Hin) as (frames & Hf & Hget).
    rewrite (Hlook _ H1 H2), Hget.
    destruct (csv_frames_shape _ _ _ Hf) as [->|[n ->]]; reflexivity. }
  unfold wf_line. rewrite Hb, Hkey. simpl.
  change "csv_sin_frames" with ("csv_sin" ++ "_frames")%string.
  change "csv_sout_frames" with ("csv_sout" ++ "_frames")%string.
  rewrite !Hc; try reflexivity; try discriminate; try assumption;
    unfold tc_columns; simpl; auto.
Qed.

(** X19.  Without a source-in column the line has no source-in frame count, and
    the temporal check raises on it as soon as its key is the key of a media
    item. *)
Theorem temporal_check_needs_source_in (r : row) (line line' : pydict)
  (column csv_pattern csv_repl media_key : string) (item : media_dict) :
  read_row rename frame_rate csv_match_skip r = Ret line ->
  ~ In "csv_sin" (map fst (rename_columns rename r)) ->
  ~ In "csv_sin_frames" (map fst (rename_columns rename r)) ->
  prep_line column csv_pattern csv_repl line = Ret line' ->
  valid_line line' = true ->
  line' !! "csv_key" = Some (PStr media_key) ->
  line_accepts true media_key item line' = Raise KeyError.
Proof.
  intros H Hsin Hsinf Hprep Hvalid Hkey.
  destruct (read_row_lookup r line H) as (out_line & Hout & Hlook).
  assert (line !! "csv_sin_frames" = None) as Hnone.
  { rewrite Hlook by discriminate.
    unfold csv_tc_to_frames in Hout.
    rewrite (frames_loop_other frame_rate _ _ _ "csv_sin_frames" Hout Hsinf); [reflexivity|].
    intros c Hc Hin E. unfold tc_columns in Hc. simpl in Hc.
    destruct Hc as [<-|[<-|[<-|[<-|[]]]]]; try (vm_compute in E; discriminate E).
    exact (Hsin Hin). }
  destruct (prep_line_key column csv_pattern csv_repl line line' Hprep) as (key & -> & _).
  unfold line_accepts, getitem. unfold valid_line in Hvalid.
  destruct (<["csv_key" := PStr key]> line !! "csv_skip_line") as [skip|]; [|discriminate].
  simpl. apply negb_true_iff in Hvalid. rewrite Hvalid, Hkey. simpl.
  rewrite String.eqb_refl. rewrite lookup_insert_ne by discriminate.
  rewrite Hnone. reflexivity.
Qed.

End LineFacts.

Lemma has_key_lookup (k : string) (l : pydict) :
  has_key k l = true -> l !! "csv_key" = Some (PStr k).
Proof.
  unfold has_key. destruct (l !! "csv_key") as [[| b | z | s]|]; try discriminate.
  intros H. apply String.eqb_eq in H. congruence.
Qed.

(** The first row of the example file, with its columns renamed. *)
Lemma read_row_ready_for_temporal_check_witness :
  exists line,
    read_row (rt := mini_runtime) ex_rename (24 # 1) ex_reel_filters
      (ex_raw_row "A001" "A001_t1" "00:00:10:00" "00:00:20:00")
    = Ret line
    /\ wf_line true line = true.
Proof.
  destruct (is_ret_returns
              (read_row (rt := mini_runtime) ex_rename (24 # 1) ex_reel_filters
                 (ex_raw_row "A001" "A001_t1" "00:00:10:00" "00:00:20:00")))
    as [line H]; [vm_compute; reflexivity|].
  exists line. split; [exact H|].
  apply (read_row_ready_for_temporal_check (rt := mini_runtime) ex_rename (24 # 1)
           ex_reel_filters (ex_raw_row "A001" "A001_t1" "00:00:10:00" "00:00:20:00") line H).
  - intros k c Hk Hc E. vm_compute in Hk. simpl in Hc.
    destruct Hc as [<-|[<-|[<-|[<-|[]]]]];
      repeat (destruct Hk as [<-|Hk]; [vm_compute in E; discriminate E|]);
      destruct Hk.
  - vm_compute. auto 10.
  - vm_compute. auto 10.
Defined.

(** The same row without the renaming: the line gets the key of the media
    file and has no source-in frame count. *)
Lemma temporal_check_needs_source_in_witness :
  exists line line',
    read_row (rt := mini_runtime) [] (24 # 1) ex_reel_filters
      (ex_raw_row "A001" "A001_t1" "00:00:10:00" "00:00:20:00")
    = Ret line
    /\ prep_line (rt := mini_runtime) "Name" "^(\w+)_" "" line = Ret line'
    /\ line_accepts true "A001" (ex_item "/media/A001.mov" (Some 0) (Some 100)) line'
       = Raise KeyError.
Proof.
  assert ((do line <- read_row (rt := mini_runtime) [] (24 # 1) ex_reel_filters
                        (ex_raw_row "A001" "A001_t1" "00:00:10:00" "00:00:20:00");
           do line' <- prep_line (rt := mini_runtime) "Name" "^(\w+)_" "" line;
           Ret (valid_line line' && has_key "A001" line')) = Ret true) as H
    by (vm_compute; reflexivity).
  destruct (bind_Ret_inv _ _ _ H) as (line & Hline & H').
  destruct (bind_Ret_inv _ _ _ H') as (line' & Hprep & Htest).
  injection Htest as Htest. apply andb_prop in Htest as [Hvalid Hkey].
  exists line, line'. split; [exact Hline|]. split; [exact Hprep|].
  apply (temporal_check_needs_source_in (rt := mini_runtime) [] (24 # 1) ex_reel_filters
           (ex_raw_row "A001" "A001_t1" "00:00:10:00" "00:00:20:00")
           line line' "Name" "^(\w+)_" "" "A001" _ Hline).
  - vm_compute. intuition discriminate.
  - vm_compute. intuition discriminate.
  - exact Hprep.
  - exact Hvalid.
  - exact (has_key_lookup _ _ Hkey).
Defined.


(** ** Listing a folder *)

Lemma prefix_spec (sub s : string) :
  String.prefix sub s = true <-> exists post, s = (sub ++ post)%string.
Proof.
  revert s. induction sub as [|c sub IH]; intros s.
  - split; [intros _; exists s; reflexivity|]. intros _. destruct s; reflexivity.
  - destruct s as [|c' s]; simpl.
    + split; [discriminate|]. intros [post H]. rewrite append_cons in H. discriminate.
    + destruct (ascii_dec c c') as [<-|Hne].
      * rewrite IH. split; intros [post H]; exists post.
        -- rewrite append_cons, H. reflexivity.
        -- rewrite append_cons in H. congruence.
      * split; [discriminate|]. intros [post H]. rewrite append_cons in H. congruence.
Qed.

Lemma contains_occurs (sub s : string) : contains sub s = true <-> occurs sub s.
Proof.
  unfold occurs. induction s as [|c s IH].
  - change (contains sub "") with (String.prefix sub "" || false).
    rewrite orb_false_r, prefix_spec. split.
    + intros [post H]. exists "", post. rewrite append_nil_l. exact H.
    + intros (pre & post & H). destruct pre as [|c pre].
      * rewrite append_nil_l in H. eauto.
      * rewrite append_cons in H. discriminate.
  - change (contains sub (String c s))
      with (String.prefix sub (String c s) || contains sub s).
    rewrite orb_true_iff, prefix_spec, IH. split.
    + intros [[post H]|(pre & post & H)].
      * exists "", post. rewrite append_nil_l. exact H.
      * exists (String c pre), post. rewrite append_cons, H. reflexivity.
    + intros (pre & post & H). destruct pre as [|c' pre].
      * left. rewrite append_nil_l in H. eauto.
      * right. rewrite append_cons in H. injection H as _ H. eauto.
Qed.

Lemma split_char_nonempty (sep : ascii) (s : string) : split_char sep s <> [].
Proof.
  destruct s as [|c r]; simpl; [discriminate|].
  destruct (Ascii.eqb c sep); [discriminate|].
  destruct (split_char sep r); discriminate.
Qed.

Lemma split_char_app_two (sep : ascii) (s t : string) :
  exists h h' tl, split_char sep (s ++ String sep t) = h :: h' :: tl.
Proof.
  induction s as [|c s (h & h' & tl & IH)].
  - rewrite append_nil_l. simpl. rewrite Ascii.eqb_refl.
    pose proof (split_char_nonempty sep t).
    destruct (split_char sep t) as [|x l]; [congruence|]. eauto.
  - rewrite append_cons. simpl. rewrite IH.
    destruct (Ascii.eqb c sep); eauto.
Qed.

Lemma last_split_char_app (sep : ascii) (s t d : string) :
  List.last (split_char sep (s ++ String sep t)) d = List.last (split_char sep t) d.
Proof.
  induction s as [|c s IH].
  - rewrite append_nil_l. simpl. rewrite Ascii.eqb_refl.
    pose proof (split_char_nonempty sep t).
    destruct (split_char sep t); [congruence|reflexivity].
  - rewrite append_cons. simpl.
    destruct (split_char_app_two sep s t) as (h & h' & tl & E).
    rewrite E in *. destruct (Ascii.eqb c sep); exact IH.
Qed.

(** The base name of a file in a folder is the name of the file. *)
Lemma basename_join (root f : string) :
  forallb (fun c => negb (Ascii.eqb c "/")) (list_ascii_of_string f) = true ->
  basename (root ++ "/" ++ f) = f.
Proof.
  intros Hf. unfold basename. rewrite append_cons, append_nil_l.
  rewrite last_split_char_app. rewrite split_char_no_sep by exact Hf. reflexivity.
Qed.

Section FileListFacts.
Variable re_match : string -> string -> option bool.
Variables (include exclude pattern : string).

Lemma file_loop_spec (files : list string) : forall file_list out,
  file_loop re_match include exclude pattern files file_list = FileList out ->
  exists kept,
    out = file_list ++ kept
    /\ kept `sublist_of` files
    /\ forall p, In p kept <-> In p files /\ passes re_match include exclude pattern p.
Proof.
  induction files as [|one_file rest IH]; intros acc out H; simpl in H.
  - injection H as <-. exists []. rewrite app_nil_r.
    split; [reflexivity|]. split; [constructor|]. intros p. split; [intros []|intros [[] _]].
  - assert (forall acc', file_loop re_match include exclude pattern rest acc' = FileList out ->
              ~ passes re_match include exclude pattern one_file ->
              acc' = acc ->
              exists kept, out = acc ++ kept /\ kept `sublist_of` one_file :: rest
                /\ forall p, In p kept <->
                     In p (one_file :: rest) /\ passes re_match include exclude pattern p)
      as Hskip.
    { intros acc' H' Hno ->. destruct (IH _ _ H') as (kept & -> & Hsub & Hin).
      exists kept. split; [reflexivity|]. split; [apply sublist_cons; exact Hsub|].
      intros p. rewrite Hin. split.
      - intros [Hp Hpass]. split; [right; exact Hp | exact Hpass].
      - intros [[<-|Hp] Hpass]; [contradiction|]. split; assumption. }
    assert (forall acc', file_loop re_match include exclude pattern rest acc' = FileList out ->
              passes re_match include exclude pattern one_file ->
              acc' = acc ++ [one_file] ->
              exists kept, out = acc ++ kept /\ kept `sublist_of` one_file :: rest
                /\ forall p, In p kept <->
                     In p (one_file :: rest) /\ passes re_match include exclude pattern p)
      as Hkeep.
    { intros acc' H' Hyes ->. destruct (IH _ _ H') as (kept & -> & Hsub & Hin).
      exists (one_file :: kept). split; [rewrite <- app_assoc; reflexivity|].
      split; [apply sublist_skip; exact Hsub|].
      intros p. simpl. rewrite Hin. split.
      - intros [<-|[Hp Hpass]]; [split; [left; reflexivity|exact Hyes]|].
        split; [right; exact Hp | exact Hpass].
      - intros [[<-|Hp] Hpass]; [left; reflexivity|]. right. split; assumption. }
    destruct (String.eqb_spec include "") as [Hi|Hi];
      destruct (contains include one_file) eqn:Hci; simpl in H;
      try (apply (Hskip _ H); [|reflexivity];
           intros ([?|Ho] & _ & _); [congruence|];
           apply contains_occurs in Ho; congruence).
    all: destruct (String.eqb_spec exclude "") as [He|He];
      destruct (contains exclude one_file) eqn:Hce; simpl in H;
      try (apply (Hskip _ H); [|reflexivity];
           intros (_ & [?|Ho] & _); [congruence|];
           apply Ho, contains_occurs; exact Hce).
    all: assert ((include = "" \/ occurs include one_file)
                 /\ (exclude = "" \/ ~ occurs exclude one_file)) as [Hinc Hexc]
      by (split; [first [left; assumption | right; apply contains_occurs; assumption]
                 | first [left; assumption
                         | right; intros Ho; apply contains_occurs in Ho; congruence]]).
    all: destruct (String.eqb_spec pattern "") as [Hp|Hp]; simpl in H;
      try (apply (Hkeep _ H); [|reflexivity]; repeat split; auto).
    all: destruct (re_match pattern (basename one_file)) as [[|]|] eqn:Hm; try discriminate;
      [apply (Hkeep _ H); [|reflexivity]; repeat split; auto
      |apply (Hskip _ H); [|reflexivity]; intros (_ & _ & [?|Hm']); congruence].
Qed.

(** X21.  The files listed are the files of the folder that pass the three
    filters, in the order of the folder: the include text must occur in the
    path, the exclude text must not, both tests being made on the whole
    path, root folder included, and the pattern must match the file name. *)
Theorem get_file_list_filters (root : string) (names : list string) (out : list string) :
  get_file_list re_match include exclude pattern root (Some names) = FileList out ->
  Forall (fun f => forallb (fun c => negb (Ascii.eqb c "/")) (list_ascii_of_string f) = true)
         names ->
  out `sublist_of` map (fun f => (root ++ "/" ++ f)%string) names
  /\ forall p, In p out <->
       exists f, In f names /\ p = (root ++ "/" ++ f)%string
         /\ (include = "" \/ occurs include p)
         /\ (exclude = "" \/ ~ occurs exclude p)
         /\ (pattern = "" \/ re_match pattern f = Some true).
Proof.
  unfold get_file_list. intros H Hnames.
  destruct (file_loop_spec _ _ _ H) as (kept & -> & Hsub & Hin). simpl.
  split; [exact Hsub|]. intros p. rewrite Hin. unfold passes. split.
  - intros [Hp (H1 & H2 & H3)]. apply in_map_iff in Hp as (f & <- & Hf).
    exists f. repeat split; auto.
    rewrite List.Forall_forall in Hnames. rewrite basename_join in H3 by auto. exact H3.
  - intros (f & Hf & -> & H1 & H2 & H3).
    split; [apply in_map_iff; exists f; split; [reflexivity|exact Hf]|].
    repeat split; auto.
    rewrite List.Forall_forall in Hnames. rewrite basename_join by auto. exact H3.
Qed.

End FileListFacts.

(** The csv files whose name starts with A and digits, B002 apart. *)
Lemma get_file_list_filters_witness :
  get_file_list mini_match ".csv" "B0" "A\d+" "/edit" (Some ex_folder)
  = FileList [ "/edit/A001.csv" ]
  /\ ([ "/edit/A001.csv" ] `sublist_of` map (fun f => ("/edit" ++ "/" ++ f)%string) ex_folder
      /\ forall p, In p [ "/edit/A001.csv" ] <->
           exists f, In f ex_folder /\ p = ("/edit" ++ "/" ++ f)%string
             /\ (".csv" = "" \/ occurs ".csv" p)
             /\ ("B0" = "" \/ ~ occurs "B0" p)
             /\ ("A\d+" = "" \/ mini_match "A\d+" f = Some true)).
Proof.
  split; [vm_compute; reflexivity|].
  apply (get_file_list_filters mini_match ".csv" "B0" "A\d+" "/edit" ex_folder).
  - vm_compute. reflexivity.
  - repeat constructor.
Defined.

Lemma file_loop_all (re_match : string -> string -> option bool) (include : string)
  (files : list string) : forall file_list,
  Forall (fun p => contains include p = true) files ->
  file_loop re_match include "" "" files file_list = FileList (file_list ++ files).
Proof.
  induction files as [|p files IH]; intros acc Hall; simpl.
  - rewrite app_nil_r. reflexivity.
  - inversion Hall as [|? ? Hp Hrest]; subst. rewrite Hp.
    rewrite andb_false_r. simpl. rewrite IH by exact Hrest.
    rewrite <- app_assoc. reflexivity.
Qed.

Lemma file_loop_none (re_match : string -> string -> option bool)
  (include exclude pattern : string) (files : list string) : forall file_list,
  exclude <> "" ->
  Forall (fun p => contains exclude p = true) files ->
  file_loop re_match include exclude pattern files file_list = FileList file_list.
Proof.
  induction files as [|p files IH]; intros acc Hne Hall; simpl; [reflexivity|].
  inversion Hall as [|? ? Hp Hrest]; subst. rewrite Hp.
  apply String.eqb_neq in Hne as Hne'. rewrite Hne'. simpl.
  rewrite IH by assumption. destruct (negb (include =? "") && negb (contains include p));
    reflexivity.
Qed.

Lemma string_app_assoc (a b c : string) : ((a ++ b) ++ c)%string = (a ++ (b ++ c))%string.
Proof.
  induction a as [|x a IH]; [rewrite !append_nil_l; reflexivity|].
  rewrite !append_cons, IH. reflexivity.
Qed.

Lemma occurs_in_root (sub root rest : string) :
  occurs sub root -> contains sub (root ++ rest) = true.
Proof.
  intros (pre & post & ->). apply contains_occurs.
  exists pre, (post ++ rest)%string.
  rewrite !string_app_assoc. reflexivity.
Qed.

(** X22.  The include and exclude texts are looked for in the whole path: an
    include text that occurs in the path of the root folder lets every file
    through, and an exclude text that occurs there leaves no file. *)
Theorem root_folder_takes_part_in_filters (re_match : string -> string -> option bool)
  (root : string) (names : list string) :
  (forall include, occurs include root ->
     get_file_list re_match include "" "" root (Some names)
     = FileList (map (fun f => (root ++ "/" ++ f)%string) names))
  /\ (forall include exclude pattern, exclude <> "" -> occurs exclude root ->
        get_file_list re_match include exclude pattern root (Some names) = FileList []).
Proof.
  split.
  - intros include Hinc. unfold get_file_list. rewrite file_loop_all; [reflexivity|].
    apply List.Forall_forall. intros p Hp. apply in_map_iff in Hp as (f & <- & _).
    apply occurs_in_root. exact Hinc.
  - intros include exclude pattern Hne Hexc. unfold get_file_list.
    apply file_loop_none; [exact Hne|].
    apply List.Forall_forall. intros p Hp. apply in_map_iff in Hp as (f & <- & _).
    apply occurs_in_root. exact Hexc.
Qed.

(** The text edit occurs in the root folder, and so does di. *)
Lemma root_folder_takes_part_in_filters_witness :
  get_file_list mini_match "edit" "" "" "/edit" (Some ex_folder)
  = FileList (map (fun f => ("/edit" ++ "/" ++ f)%string) ex_folder)
  /\ get_file_list mini_match ".csv" "di" "A\d+" "/edit" (Some ex_folder) = FileList [].
Proof.
  destruct (root_folder_takes_part_in_filters mini_match "/edit" ex_folder) as [H1 H2].
  split.
  - apply H1. exists "/", "". reflexivity.
  - apply H2; [discriminate|]. exists "/e", "t". reflexivity.
Defined.

(** ** Writing the EDLs *)

Section EdlFacts.
Context {rt : PyRuntime}.
Variables (edl_reel edl_clip edl_clip_path : edl_template).
Variable csvs : batches.

Lemma edl_lines_acc (edl : edl_prefs) (medias : list (string * media_dict)) :
  forall (cnt : nat) (lines : string),
  edl_lines edl edl_reel edl_clip edl_clip_path csvs medias cnt lines
  = do body <- edl_lines edl edl_reel edl_clip edl_clip_path csvs medias cnt "";
    Ret (lines ++ body)%string.
Proof.
  induction medias as [|m medias IH]; intros cnt lines; simpl.
  - rewrite append_nil_r. reflexivity.
  - destruct (media_to_edl_line edl edl_reel edl_clip edl_clip_path csvs m (S cnt)) as [l|e];
      [|reflexivity].
    simpl. rewrite IH. rewrite (IH (S cnt) ("" ++ l)%string).
    destruct (edl_lines edl edl_reel edl_clip edl_clip_path csvs medias (S cnt) "") as [b|e];
      [|reflexivity].
    simpl. rewrite append_nil_l, string_app_assoc. reflexivity.
Qed.

Lemma edl_lines_drop_frame (b : bool) (edl : edl_prefs) (medias : list (string * media_dict)) :
  forall (cnt : nat) (lines : string),
  edl_lines (set_drop_frame b edl) edl_reel edl_clip edl_clip_path csvs medias cnt lines
  = edl_lines edl edl_reel edl_clip edl_clip_path csvs medias cnt lines.
Proof.
  induction medias as [|m medias IH]; intros cnt lines; simpl; [reflexivity|].
  change (media_to_edl_line (set_drop_frame b edl) edl_reel edl_clip edl_clip_path csvs m (S cnt))
    with (media_to_edl_line edl edl_reel edl_clip edl_clip_path csvs m (S cnt)).
  destruct (media_to_edl_line edl edl_reel edl_clip edl_clip_path csvs m (S cnt)); simpl;
    [apply IH | reflexivity].
Qed.

(** An EDL of a bucket, taken apart: the title line, the frame-count-mode
    line and the events. *)
Lemma edl_of_bucket_parts (edl : edl_prefs) (one_csv : string)
  (medias : list (string * media_dict)) (path text : string) :
  edl_of_bucket edl edl_reel edl_clip edl_clip_path csvs one_csv medias = Ret (path, text) ->
  exists title body,
    forall b,
      edl_of_bucket (set_drop_frame b edl) edl_reel edl_clip edl_clip_path csvs one_csv medias
      = Ret (path, (title ++ fcm_line (set_drop_frame b edl) ++ body)%string).
Proof.
  unfold edl_of_bucket. intros H. inv_bind H. inv_bind H. inv_bind H.
  injection H as <- <-.
  rewrite edl_lines_acc in Ha1. inv_bind Ha1. injection Ha1 as <-.
  exists ("TITLE: " ++ edl_name_of edl one_csv (slashes (dirname (file (snd a0)))) ++ nl)%string,
         a2.
  intros b. rewrite Ha. simpl. rewrite Ha0. simpl.
  rewrite edl_lines_drop_frame, edl_lines_acc, Ha2. simpl.
  change (edl_root_of (set_drop_frame b edl)) with (edl_root_of edl).
  change (edl_name_of (set_drop_frame b edl)) with (edl_name_of edl).
  rewrite !string_app_assoc. reflexivity.
Qed.

Lemma od_set_same_but_fcm (edls1 edls2 : list (string * string)) (k t1 t2 : string) :
  Forall2 same_but_fcm edls1 edls2 ->
  same_but_fcm (k, t1) (k, t2) ->
  Forall2 same_but_fcm (od_set edls1 k t1) (od_set edls2 k t2).
Proof.
  intros Hall Hk. induction Hall as [|[k1 x1] [k2 x2] l1 l2 Hx Hrest IH]; simpl.
  - constructor; [exact Hk|constructor].
  - destruct Hx as [Hfst Hx]. simpl in Hfst. subst k2.
    destruct (decide (k1 = k)) as [->|Hne].
    + constructor; [exact Hk|exact Hrest].
    + constructor; [|exact IH]. split; [reflexivity|exact Hx].
Qed.

Lemma edl_loop_drop_frame (edl : edl_prefs)
  (by_csv : list (option string * list (string * media_dict))) :
  forall edls1 edls2 out1,
  edl_loop (set_drop_frame true edl) edl_reel edl_clip edl_clip_path csvs by_csv edls1
  = Ret out1 ->
  Forall2 same_but_fcm edls1 edls2 ->
  exists out2,
    edl_loop (set_drop_frame false edl) edl_reel edl_clip edl_clip_path csvs by_csv edls2
    = Ret out2
    /\ Forall2 same_but_fcm out1 out2.
Proof.
  induction by_csv as [|[[one_csv|] medias] rest IH]; intros edls1 edls2 out1 H Hall; simpl in H.
  - injection H as <-. exists edls2. split; [reflexivity|exact Hall].
  - inv_bind H. destruct a as [path text].
    destruct (edl_of_bucket_parts _ _ _ _ _ Ha) as (title & body & Hb).
    pose proof (Hb true) as Htrue. pose proof (Hb false) as Hfalse.
    change (set_drop_frame true (set_drop_frame true edl)) with (set_drop_frame true edl)
      in Htrue.
    change (set_drop_frame false (set_drop_frame true edl)) with (set_drop_frame false edl)
      in Hfalse.
    rewrite Ha in Htrue. injection Htrue as Htext.
    simpl. rewrite Hfalse. simpl. simpl in H.
    apply (IH _ _ _ H). apply od_set_same_but_fcm; [exact Hall|].
    split; [reflexivity|]. exists title, body. simpl. split; [exact Htext|reflexivity].
  - simpl. exact (IH _ _ _ H Hall).
Qed.

(** X23.  The drop-frame flag reaches the frame-count-mode line of the header and
    nothing else: the same EDLs come out at the same paths with the same
    title and the same events, timecodes included. *)
Theorem drop_frame_changes_header_only (edl : edl_prefs)
  (media : list (string * media_dict)) (edls : list (string * string)) :
  matched_media_to_edls (set_drop_frame true edl) edl_reel edl_clip edl_clip_path csvs media
  = Ret edls ->
  exists edls',
    matched_media_to_edls (set_drop_frame false edl) edl_reel edl_clip edl_clip_path csvs media
    = Ret edls'
    /\ Forall2 same_but_fcm edls edls'.
Proof.
  unfold matched_media_to_edls. intros H.
  apply (edl_loop_drop_frame edl _ [] [] edls H). constructor.
Qed.

End EdlFacts.

(** One matched file, written once with the drop-frame flag and once
    without. *)
Lemma drop_frame_changes_header_only_witness :
  exists edls edls',
    matched_media_to_edls (rt := mini_runtime) (set_drop_frame true ex_edl_prefs)
      ex_reel_template ex_clip_template ex_path_template ex_edl_csvs ex_edl_media = Ret edls
    /\ matched_media_to_edls (rt := mini_runtime) (set_drop_frame false ex_edl_prefs)
         ex_reel_template ex_clip_template ex_path_template ex_edl_csvs ex_edl_media
       = Ret edls'
    /\ Forall2 same_but_fcm edls edls'.
Proof.
  let t := eval vm_compute in
    (matched_media_to_edls (rt := mini_runtime) (set_drop_frame true ex_edl_prefs)
       ex_reel_template ex_clip_template ex_path_template ex_edl_csvs ex_edl_media) in
  match t with
  | Ret ?e => exists e
  end.
  match goal with
  | |- exists edls', ?A /\ _ => assert A as HA by (vm_compute; reflexivity)
  end.
  destruct (drop_frame_changes_header_only (rt := mini_runtime)
              ex_reel_template ex_clip_template ex_path_template ex_edl_csvs
              ex_edl_prefs ex_edl_media _ HA) as (edls' & Hrun & Hsame).
  exists edls'. auto.
Defined.

Lemma edl_loop_custom_path {rt : PyRuntime} (edl_reel edl_clip edl_clip_path : edl_template)
  (csvs : batches) (edl : edl_prefs)
  (by_csv : list (option string * list (string * media_dict))) :
  use_media_root edl = false -> use_media_root_up edl = false ->
  edl_name_from_csv edl = false -> edl_name_from_media_folder edl = false ->
  forall edls out,
  edl_loop edl edl_reel edl_clip edl_clip_path csvs by_csv edls = Ret out ->
  (edls = [] \/ exists text, edls = [(custom_edl_path edl, text)]) ->
  out = [] \/ exists text, out = [(custom_edl_path edl, text)].
Proof.
  intros H1 H2 H3 H4.
  induction by_csv as [|[[one_csv|] medias] rest IH]; intros edls out H Hedls; simpl in H.
  - injection H as <-. exact Hedls.
  - inv_bind H. destruct a as [path text].
    assert (path = custom_edl_path edl) as ->.
    { unfold edl_of_bucket in Ha. inv_bind Ha. inv_bind Ha. inv_bind Ha.
      injection Ha as <- _. unfold edl_root_of, edl_name_of, custom_edl_path.
      rewrite H1, H2, H3, H4. reflexivity. }
    simpl in H. apply (IH _ _ H). right.
    destruct Hedls as [->|[t ->]]; simpl; [eauto|].
    rewrite decide_True by reflexivity. eauto.
  - exact (IH _ _ H Hedls).
Qed.

(** X24.  When neither the folder nor the name of an EDL is taken from the media
    or from the csv file, every csv file is written to the same path: however
    many csv files have matches, one EDL at most is left, at the path made
    of the custom folder and the custom name. *)
Theorem custom_name_leaves_one_edl {rt : PyRuntime}
  (edl : edl_prefs) (edl_reel edl_clip edl_clip_path : edl_template)
  (csvs : batches) (media : list (string * media_dict)) (edls : list (string * string)) :
  use_media_root edl = false -> use_media_root_up edl = false ->
  edl_name_from_csv edl = false -> edl_name_from_media_folder edl = false ->
  matched_media_to_edls edl edl_reel edl_clip edl_clip_path csvs media = Ret edls ->
  edls = [] \/ exists text, edls = [(custom_edl_path edl, text)].
Proof.
  intros H1 H2 H3 H4 H. unfold matched_media_to_edls in H.
  apply (edl_loop_custom_path _ _ _ _ _ _ H1 H2 H3 H4 _ _ H). left. reflexivity.
Qed.

(** Two csv files with one matched file each. *)
Lemma custom_name_leaves_one_edl_witness :
  exists edls,
    matched_media_to_edls (rt := mini_runtime) ex_edl_prefs
      ex_reel_template ex_clip_template ex_path_template ex_edl_csvs2 ex_edl_media2 = Ret edls
    /\ (edls = [] \/ exists text, edls = [(custom_edl_path ex_edl_prefs, text)]).
Proof.
  eexists. split; [vm_compute; reflexivity|].
  apply (custom_name_leaves_one_edl (rt := mini_runtime) ex_edl_prefs
           ex_reel_template ex_clip_template ex_path_template ex_edl_csvs2 ex_edl_media2);
    [reflexivity | reflexivity | reflexivity | reflexivity | vm_compute; reflexivity].
Defined.

(** *** The buckets of [by_csv] *)

Lemma by_csv_add_other (by_csv : list (option string * list (string * media_dict)))
  (kv : string * media_dict) (k : option string) :
  csv_file (snd kv) <> k -> od_get (by_csv_add by_csv kv) k = od_get by_csv k.
Proof.
  intros Hne. unfold by_csv_add.
  destruct (od_get by_csv (csv_file (snd kv))) as [[|m l]|];
    destruct (csv_file (snd kv)) as [[|c r]|]; apply od_get_set_ne; exact Hne.
Qed.

Lemma by_csv_fold (p : string) (media : list (string * media_dict)) :
  p <> "" ->
  forall acc,
  od_get (fold_left by_csv_add media acc) (Some p)
  = match held_by p media with
    | [] => od_get acc (Some p)
    | x :: xs =>
        Some (match od_get acc (Some p) with
              | Some (m :: l) => (m :: l) ++ x :: xs
              | _ => x :: xs
              end)
    end.
Proof.
  intros Hp. induction media as [|kv rest IH]; intros acc; [reflexivity|].
  simpl. rewrite IH. unfold held_by. simpl.
  destruct (decide (csv_file (snd kv) = Some p)) as [E|E].
  - rewrite (bool_decide_eq_true_2 _ E).
    assert (od_get (by_csv_add acc kv) (Some p)
            = Some (match od_get acc (Some p) with
                    | Some (m :: l) => (m :: l) ++ [kv]
                    | _ => [kv]
                    end)) as ->.
    { unfold by_csv_add. rewrite E. destruct p as [|c r]; [congruence|].
      destruct (od_get acc (Some (String c r))) as [[|m l]|]; apply od_get_set_eq. }
    fold (held_by p rest).
    destruct (held_by p rest) as [|x xs];
      destruct (od_get acc (Some p)) as [[|m l]|]; try reflexivity.
    simpl. rewrite <- app_assoc. reflexivity.
  - rewrite (bool_decide_eq_false_2 _ E). rewrite by_csv_add_other by exact E.
    reflexivity.
Qed.

(** X25.  The bucket of a csv file holds the items matched to a line of that
    file, all of them and in the order of the collection; a csv file without
    matched items has no bucket. *)
Theorem by_csv_groups_by_file (media : list (string * media_dict)) (p : string) :
  p <> "" ->
  od_get (by_csv_of media) (Some p)
  = match held_by p media with
    | [] => None
    | bucket => Some bucket
    end.
Proof.
  intros Hp. unfold by_csv_of. rewrite (by_csv_fold p media Hp []). simpl.
  destruct (held_by p media); reflexivity.
Qed.

(** The two files of the example: each bucket has its own item. *)
Lemma by_csv_groups_by_file_witness :
  od_get (by_csv_of ex_edl_media2) (Some "/edit/b_v1.csv")
  = match held_by "/edit/b_v1.csv" ex_edl_media2 with
    | [] => None
    | bucket => Some bucket
    end.
Proof.
  apply (by_csv_groups_by_file ex_edl_media2 "/edit/b_v1.csv"). discriminate.
Defined.

(** *** The order of the events *)

Lemma py_lt_asym (a b : pyval) : py_lt a b = Ret true -> py_lt b a = Ret false.
Proof.
  unfold py_lt. destruct a as [| x | x | s], b as [| y | y | t]; simpl;
    try discriminate; intros [= H]; f_equal.
  - destruct x, y; try discriminate; reflexivity.
  - apply Z.ltb_lt in H. apply Z.ltb_ge. destruct x; lia.
  - apply Z.ltb_lt in H. apply Z.ltb_ge. destruct y; lia.
  - apply Z.ltb_lt in H. apply Z.ltb_ge. lia.
  - rewrite ltb_negb_leb in *. apply negb_true_iff in H. apply negb_false_iff.
    destruct (String.leb_total s t) as [Hst|Hts]; [exact Hst|congruence].
Qed.

Lemma py_lt_ge_trans (a b c : pyval) :
  py_lt b a = Ret false -> py_lt c b = Ret false -> py_lt c a = Ret false.
Proof.
  unfold py_lt. destruct a as [| x | x | s], b as [| y | y | t], c as [| z | z | u]; simpl;
    try discriminate; intros [= H1] [= H2]; f_equal;
    try (apply Z.ltb_ge in H1; apply Z.ltb_ge in H2; apply Z.ltb_ge;
         repeat match goal with v : bool |- _ => destruct v end; lia).
  rewrite ltb_negb_leb in *. apply negb_false_iff in H1, H2. apply negb_false_iff.
  apply Is_true_true. apply Is_true_true in H1, H2.
  exact (transitivity (R := String.le) H1 H2).
Qed.

Section SortedFacts.
Context {A : Type}.
Variable key : A -> pyval.

Lemma insert_by_spec (x : A) (l s : list A) :
  insert_by key x l = Ret s ->
  StronglySorted (key_below key) l ->
  Permutation s (x :: l) /\ StronglySorted (key_below key) s.
Proof.
  revert s. induction l as [|y l IH]; intros s H Hs; simpl in H.
  - injection H as <-. split; [reflexivity|]. repeat constructor.
  - inv_bind H. inversion Hs as [|? ? Hl Hy]; subst.
    destruct a.
    + inv_bind H. injection H as <-.
      destruct (IH _ Ha0 Hl) as [Hperm Hsorted].
      split; [rewrite Hperm; apply perm_swap|].
      constructor; [exact Hsorted|].
      apply List.Forall_forall. intros z Hz.
      apply (Permutation_in z Hperm) in Hz. destruct Hz as [<-|Hz].
      * exact (py_lt_asym _ _ Ha).
      * rewrite List.Forall_forall in Hy. exact (Hy z Hz).
    + injection H as <-. split; [reflexivity|].
      constructor; [exact Hs|].
      constructor; [exact Ha|].
      rewrite List.Forall_forall in Hy. apply List.Forall_forall. intros z Hz.
      exact (py_lt_ge_trans _ _ _ Ha (Hy z Hz)).
Qed.

Lemma sorted_by_spec (l s : list A) :
  sorted_by key l = Ret s ->
  Permutation s l /\ StronglySorted (key_below key) s.
Proof.
  revert s. induction l as [|x l IH]; intros s H; simpl in H.
  - injection H as <-. split; [reflexivity|constructor].
  - inv_bind H. destruct (IH _ Ha) as [Hperm Hsorted].
    destruct (insert_by_spec x a s H Hsorted) as [Hp Hs].
    split; [|exact Hs]. rewrite Hp. constructor. exact Hperm.
Qed.

End SortedFacts.

Section EventFacts.
Context {rt : PyRuntime}.
Variable edl : edl_prefs.
Variables (edl_reel edl_clip edl_clip_path : edl_template).
Variable csvs : batches.

Lemma edl_lines_spec (medias : list (string * media_dict)) : forall (cnt : nat) (acc text : string),
  edl_lines edl edl_reel edl_clip edl_clip_path csvs medias cnt acc = Ret text ->
  exists ls,
    Forall2 (fun (nm : nat * (string * media_dict)) (l : string) =>
               media_to_edl_line edl edl_reel edl_clip edl_clip_path csvs (snd nm) (fst nm)
               = Ret l)
            (combine (seq (S cnt) (List.length medias)) medias) ls
    /\ text = (acc ++ concat_lines ls)%string.
Proof.
  induction medias as [|m medias IH]; intros cnt acc text H; simpl in H.
  - injection H as <-. exists []. split; [constructor|]. simpl.
    rewrite append_nil_r. reflexivity.
  - inv_bind H. destruct (IH _ _ _ H) as (ls & Hall & ->).
    exists (a :: ls). split; [constructor; [exact Ha|exact Hall]|].
    simpl. rewrite string_app_assoc. reflexivity.
Qed.

(** X26.  The EDL of a bucket: its events are the items of the bucket in
    ascending order of their record-in frame counts, numbered from 1, after
    the title and the frame-count-mode line; the folder and the name are
    those of the first event's media file when they are taken from the
    media. *)
Theorem edl_events_in_record_order (one_csv : string) (medias : list (string * media_dict))
  (path text : string) :
  edl_of_bucket edl edl_reel edl_clip edl_clip_path csvs one_csv medias = Ret (path, text) ->
  exists first rest ls,
    Permutation (first :: rest) medias
    /\ StronglySorted (key_below (rin_key csvs)) (first :: rest)
    /\ Forall2 (fun (nm : nat * (string * media_dict)) (l : string) =>
                  media_to_edl_line edl edl_reel edl_clip edl_clip_path csvs (snd nm) (fst nm)
                  = Ret l)
               (combine (seq 1 (S (List.length rest))) (first :: rest)) ls
    /\ let first_media_path := slashes (dirname (file (snd first))) in
       let edl_name := edl_name_of edl one_csv first_media_path in
       path = (edl_root_of edl first_media_path ++ "/" ++ edl_name ++ ".edl")%string
       /\ text = (("TITLE: " ++ edl_name ++ nl ++ fcm_line edl) ++ concat_lines ls)%string.
Proof.
  unfold edl_of_bucket. intros H. inv_bind H. inv_bind H. inv_bind H.
  injection H as <- <-.
  destruct (sorted_by_spec _ _ _ Ha) as [Hperm Hsorted].
  destruct a as [|first rest]; [discriminate|]. injection Ha0 as <-.
  destruct (edl_lines_spec _ _ _ _ Ha1) as (ls & Hall & ->).
  exists first, rest, ls. repeat split; assumption.
Qed.

End EventFacts.

(** Two files of one csv file, discovered in the reverse of their record-in
    order. *)
Lemma edl_events_in_record_order_witness :
  exists path text,
    edl_of_bucket (rt := mini_runtime) ex_edl_prefs ex_reel_template ex_clip_template
      ex_path_template ex_edl_csvs3 "/edit/a_v1.csv" ex_edl_bucket3 = Ret (path, text)
    /\ exists first rest ls,
         Permutation (first :: rest) ex_edl_bucket3
         /\ StronglySorted (key_below (rin_key ex_edl_csvs3)) (first :: rest)
         /\ Forall2 (fun (nm : nat * (string * media_dict)) (l : string) =>
                       media_to_edl_line (rt := mini_runtime) ex_edl_prefs ex_reel_template
                         ex_clip_template ex_path_template ex_edl_csvs3 (snd nm) (fst nm)
                       = Ret l)
                    (combine (seq 1 (S (List.length rest))) (first :: rest)) ls
         /\ let first_media_path := slashes (dirname (file (snd first))) in
            let edl_name := edl_name_of ex_edl_prefs "/edit/a_v1.csv" first_media_path in
            path = (edl_root_of ex_edl_prefs first_media_path ++ "/" ++ edl_name ++ ".edl")%string
            /\ text = (("TITLE: " ++ edl_name ++ nl ++ fcm_line ex_edl_prefs)
                       ++ concat_lines ls)%string.
Proof.
  eexists. eexists. split; [vm_compute; reflexivity|].
  apply (edl_events_in_record_order (rt := mini_runtime) ex_edl_prefs ex_reel_template
           ex_clip_template ex_path_template ex_edl_csvs3 "/edit/a_v1.csv" ex_edl_bucket3).
  vm_compute. reflexivity.
Defined.

Example edl_of_bucket_run :
  edl_of_bucket (rt := mini_runtime) ex_edl_prefs ex_reel_template ex_clip_template
    ex_path_template ex_edl_csvs3 "/edit/a_v1.csv" ex_edl_bucket3
  = Ret ("/out/cut.edl",
         ("TITLE: cut" ++ nl ++ "FCM: NON-DROP FRAME" ++ nl ++ nl
          ++ "001  A001     V     C        00:00:10:00 00:00:20:00 01:00:00:00 01:00:10:00" ++ nl
          ++ "* A001.mov" ++ nl
          ++ "002  B001     V     C        00:00:10:00 00:00:20:00 01:00:10:00 01:00:20:00" ++ nl
          ++ "* B001.mov" ++ nl)%string).
Proof. vm_compute. reflexivity. Qed.

(** ** The reel column *)

(** X20.  The reel column is the label, AX when the template result is empty or
    [None], padded with spaces up to [max_reel] characters and followed by
    one space; the label is never cut, so the padded label is as long as the
    longer of the label and [max_reel]. *)
Theorem reel_column_pads_and_never_cuts {rt : PyRuntime}
  (reel_source reel_pattern reel_repl : string) (width : Z) (tokens : tokenmap) (v : pyval) :
  regex_test (PStr reel_source) tokens reel_pattern reel_repl = Ret v ->
  let label := match nonempty_result v with
               | Some r => r
               | None => "AX"
               end in
  reel_column reel_source reel_pattern reel_repl width tokens
  = Ret ((label ++ spaces (width - py_len label)) ++ " ")%string
  /\ py_len (label ++ spaces (width - py_len label)) = Z.max (py_len label) width.
Proof.
  intros Hv label. unfold reel_column. rewrite Hv. simpl. fold label.
  split; [reflexivity|].
  unfold py_len. rewrite length_append, length_spaces. lia.
Qed.

(** The label A001 in a column of width 8, and a label of ten characters. *)
Lemma reel_column_pads_and_never_cuts_witness :
  (reel_column (rt := mini_runtime) "{reel}" "(.*)" "" 8 {[ "reel" := "A001" ]}
   = Ret (("A001" ++ spaces (8 - py_len "A001")) ++ " ")%string
   /\ py_len ("A001" ++ spaces (8 - py_len "A001")) = Z.max (py_len "A001") 8)
  /\ (reel_column (rt := mini_runtime) "{reel}" "(.*)" "" 8 {[ "reel" := "ABCDEFGHIJ" ]}
      = Ret (("ABCDEFGHIJ" ++ spaces (8 - py_len "ABCDEFGHIJ")) ++ " ")%string
      /\ py_len ("ABCDEFGHIJ" ++ spaces (8 - py_len "ABCDEFGHIJ"))
         = Z.max (py_len "ABCDEFGHIJ") 8).
Proof.
  split.
  - apply (reel_column_pads_and_never_cuts (rt := mini_runtime) "{reel}" "(.*)" "" 8
             {[ "reel" := "A001" ]} (PStr "A001")).
    vm_compute. reflexivity.
  - apply (reel_column_pads_and_never_cuts (rt := mini_runtime) "{reel}" "(.*)" "" 8
             {[ "reel" := "ABCDEFGHIJ" ]} (PStr "ABCDEFGHIJ")).
    vm_compute. reflexivity.
Defined.
